(** * Offline-first sync engine of the beauty-shop point of sale

    A shallow embedding of the mutation queue ([offlineQueue.ts]), the
    sync engine ([syncManager.ts]) and the stock classification of the
    products screen ([Products.tsx]), with the properties the design
    document states about them.

    Dexie tables are finite maps from the primary key to the stored
    record.  A [where(index).equals(v).toArray()] query walks the index,
    which IndexedDB keeps ordered by index key and then by primary key,
    so it yields the matching records in ascending primary-key order.
    Identifiers are ASCII, for which the byte-wise [String.leb] agrees
    with IndexedDB's code-unit order. *)

From Stdlib Require Import ZArith Lia.
From stdpp Require Import gmap strings list fin_maps sorting.

Local Open Scope string_scope.
Local Open Scope list_scope.
Local Open Scope Z_scope.

(** ** Data model ([db.ts]) *)

Inductive MutationTable := products | sales | notifications | settings | images.
Inductive MutationOperation := INSERT | UPDATE | DELETE.
Inductive MutationStatus := pending | synced | failed.

Global Instance MutationTable_eq_dec : EqDecision MutationTable.
Proof. solve_decision. Defined.
Global Instance MutationOperation_eq_dec : EqDecision MutationOperation.
Proof. solve_decision. Defined.
Global Instance MutationStatus_eq_dec : EqDecision MutationStatus.
Proof. solve_decision. Defined.

(** The values a payload field can hold ([Record<string, any>]). *)
Inductive JsVal :=
  | JUndefined
  | JNull
  | JBool (b : bool)
  | JNum (n : Z)
  | JStr (s : string).

Global Instance JsVal_eq_dec : EqDecision JsVal.
Proof. solve_decision. Defined.

Record MutationRecord := mkMutation {
  m_id : string;
  m_clientId : string;
  m_table : MutationTable;
  m_operation : MutationOperation;
  m_recordId : string;
  m_payload : gmap string JsVal;
  m_timestamp : Z;
  m_status : MutationStatus;
  m_retries : Z;
  m_lastError : option string
}.

(** ** The mutation queue ([offlineQueue.ts]) *)

(** [db.mutations.update(id, {status})] *)
Definition set_status (s : MutationStatus) (m : MutationRecord) : MutationRecord :=
  mkMutation (m_id m) (m_clientId m) (m_table m) (m_operation m) (m_recordId m)
             (m_payload m) (m_timestamp m) s (m_retries m) (m_lastError m).

(** [db.mutations.update(id, {status, retries, lastError})]; a property
    updated to [undefined] is deleted from the stored object. *)
Definition set_outcome (s : MutationStatus) (r : Z) (e : option string)
    (m : MutationRecord) : MutationRecord :=
  mkMutation (m_id m) (m_clientId m) (m_table m) (m_operation m) (m_recordId m)
             (m_payload m) (m_timestamp m) s r e.

(** [table.toArray()] through an index restricted to one key: the
    records in ascending primary-key order. *)
Definition by_primary_key {A : Type} (a b : string * A) : Prop :=
  String.leb a.1 b.1 = true.

Global Instance by_primary_key_dec {A : Type} (a b : string * A) :
  Decision (by_primary_key a b).
Proof. unfold by_primary_key. apply _. Defined.

Definition toArray {A : Type} (q : gmap string A) : list A :=
  (merge_sort by_primary_key (map_to_list q)).*2.

(** [db.mutations.where('status').equals(s).toArray()] *)
Definition where_status (s : MutationStatus) (q : gmap string MutationRecord)
    : list MutationRecord :=
  filter (fun m => m_status m = s) (toArray q).

(** [uuid] is the value [uuidv4()] returns, [now] the reading of
    [Date.now()].  [db.mutations.add] rejects a key that is already
    stored ([None] stands for the rejected promise). *)
Definition enqueueMutation (uuid clientId : string) (now : Z)
    (table : MutationTable) (operation : MutationOperation)
    (recordId : string) (payload : gmap string JsVal)
    (q : gmap string MutationRecord)
    : option (MutationRecord * gmap string MutationRecord) :=
  let mutation :=
    mkMutation uuid clientId table operation recordId payload now pending 0 None in
  match q !! uuid with
  | Some _ => None
  | None => Some (mutation, <[uuid := mutation]> q)
  end.

Definition getPendingMutations (q : gmap string MutationRecord) : list MutationRecord :=
  where_status pending q.

Definition markMutationSynced (mutationId : string)
    (q : gmap string MutationRecord) : gmap string MutationRecord :=
  alter (set_status synced) mutationId q.

Definition maxRetries : Z := 5.

Definition markMutationFailed (mutationId error : string)
    (q : gmap string MutationRecord) : gmap string MutationRecord :=
  match q !! mutationId with
  | None => q
  | Some mutation =>
      let newRetries := m_retries mutation + 1 in
      let status := if maxRetries <=? newRetries then failed else pending in
      alter (set_outcome status newRetries (Some error)) mutationId q
  end.

Definition clearSyncedMutations (q : gmap string MutationRecord)
    : gmap string MutationRecord :=
  filter (fun kv => m_status kv.2 <> synced) q.

Definition getFailedMutations (q : gmap string MutationRecord) : list MutationRecord :=
  where_status failed q.

Definition retryFailedMutation (mutationId : string)
    (q : gmap string MutationRecord) : gmap string MutationRecord :=
  alter (set_outcome pending 0 None) mutationId q.

Definition deleteMutation (mutationId : string)
    (q : gmap string MutationRecord) : gmap string MutationRecord :=
  delete mutationId q.

(** ** Local store and remote rows ([db.ts], [supabase.ts])

    Prices are [decimal(10,2)] columns; they are carried as integers in
    hundredths.  The sync engine only copies them. *)

Record Product := mkProduct {
  p_id : string;
  p_name : string;
  p_category : string;
  p_buying_price : Z;
  p_selling_price : Z;
  p_quantity : Z;
  p_low_stock_level : Z;
  p_image_url : option string;
  p_created_at : string;
  p_updated_at : string
}.

Record Sale := mkSale {
  s_id : string;
  s_product_id : option string;
  s_product_name : string;
  s_quantity_sold : Z;
  s_unit_price : Z;
  s_total_price : Z;
  s_sale_date : string;
  s_created_at : string
}.

Record Notification := mkNotification {
  n_id : string;
  n_type : string;
  n_message : string;
  n_product_id : option string;
  n_cleared : bool;
  n_created_at : string
}.

Record Setting := mkSetting {
  t_id : string;
  t_key : string;
  t_value : JsVal;
  t_created_at : string;
  t_updated_at : string
}.

Record LocalProduct := mkLocalProduct {
  lp_id : string;
  lp_name : string;
  lp_category : string;
  lp_buying_price : Z;
  lp_selling_price : Z;
  lp_quantity : Z;
  lp_low_stock_level : Z;
  lp_image_url : option string;
  lp_image_id : option string;
  lp_created_at : string;
  lp_updated_at : string;
  lp_synced : bool;
  lp_lastSyncedAt : option string
}.

Record LocalSale := mkLocalSale {
  ls_id : string;
  ls_product_id : option string;
  ls_product_name : string;
  ls_quantity_sold : Z;
  ls_unit_price : Z;
  ls_total_price : Z;
  ls_sale_date : string;
  ls_created_at : string;
  ls_synced : bool;
  ls_lastSyncedAt : option string
}.

Record LocalNotification := mkLocalNotification {
  ln_id : string;
  ln_type : string;
  ln_message : string;
  ln_product_id : option string;
  ln_created_at : string;
  ln_cleared : bool;
  ln_synced : bool
}.

Record LocalSetting := mkLocalSetting {
  lt_id : string;
  lt_key : string;
  lt_value : JsVal;
  lt_created_at : string;
  lt_updated_at : string;
  lt_synced : bool
}.

Record SyncMetadata := mkSyncMetadata {
  sm_lastSyncedAt : string;
  sm_clientId : string;
  sm_offlineMode : bool
}.

Record LocalImageMetadata := mkLocalImageMetadata {
  li_id : string;
  li_product_id : string;
  li_filename : string;
  li_local_path : string;
  li_hash : string;
  li_remote_url : option string;
  li_blob : option string;
  li_size : Z;
  li_mimetype : string;
  li_created_at : string;
  li_synced : bool;
  li_lastSyncedAt : option string
}.

(** The Dexie database ([BeautyShopDB]); [syncMeta] holds at most the
    one row keyed ['sync_meta']. *)
Record Db := mkDb {
  db_products : gmap string LocalProduct;
  db_sales : gmap string LocalSale;
  db_notifications : gmap string LocalNotification;
  db_settings : gmap string LocalSetting;
  db_images : gmap string LocalImageMetadata;
  db_mutations : gmap string MutationRecord;
  db_syncMeta : option SyncMetadata
}.

Definition with_products (f : gmap string LocalProduct -> gmap string LocalProduct)
    (d : Db) : Db :=
  mkDb (f (db_products d)) (db_sales d) (db_notifications d) (db_settings d)
       (db_images d) (db_mutations d) (db_syncMeta d).

Definition with_sales (f : gmap string LocalSale -> gmap string LocalSale)
    (d : Db) : Db :=
  mkDb (db_products d) (f (db_sales d)) (db_notifications d) (db_settings d)
       (db_images d) (db_mutations d) (db_syncMeta d).

Definition with_notifications
    (f : gmap string LocalNotification -> gmap string LocalNotification)
    (d : Db) : Db :=
  mkDb (db_products d) (db_sales d) (f (db_notifications d)) (db_settings d)
       (db_images d) (db_mutations d) (db_syncMeta d).

Definition with_settings (f : gmap string LocalSetting -> gmap string LocalSetting)
    (d : Db) : Db :=
  mkDb (db_products d) (db_sales d) (db_notifications d) (f (db_settings d))
       (db_images d) (db_mutations d) (db_syncMeta d).

Definition with_images
    (f : gmap string LocalImageMetadata -> gmap string LocalImageMetadata)
    (d : Db) : Db :=
  mkDb (db_products d) (db_sales d) (db_notifications d) (db_settings d)
       (f (db_images d)) (db_mutations d) (db_syncMeta d).

Definition with_mutations
    (f : gmap string MutationRecord -> gmap string MutationRecord)
    (d : Db) : Db :=
  mkDb (db_products d) (db_sales d) (db_notifications d) (db_settings d)
       (db_images d) (f (db_mutations d)) (db_syncMeta d).

Definition with_syncMeta (f : option SyncMetadata -> option SyncMetadata)
    (d : Db) : Db :=
  mkDb (db_products d) (db_sales d) (db_notifications d) (db_settings d)
       (db_images d) (db_mutations d) (f (db_syncMeta d)).

(** ** The remote backend and the host, as the engine sees them *)

Record PgError := mkPgError {
  e_code : option string;
  e_message : option string
}.

(** What awaiting a Supabase query yields: the promise rejects, or it
    resolves to [{data, error}]. *)
Inductive SelectResult (A : Type) :=
  | SelectThrows
  | SelectError (e : PgError)
  | SelectData (rows : option (list A)).
Arguments SelectThrows {A}.
Arguments SelectError {A} e.
Arguments SelectData {A} rows.

Inductive Reply :=
  | ReplyOk
  | ReplyError (e : PgError)
  | ReplyThrows.

Inductive RemoteCall :=
  | CallSelect (t : MutationTable)
  | CallHead (t : MutationTable)
  | CallInsert (t : MutationTable) (payload : gmap string JsVal)
  | CallUpdate (t : MutationTable) (payload : gmap string JsVal) (recordId : string)
  | CallDelete (t : MutationTable) (recordId : string).

(** What a [catch] clause can receive. *)
Inductive Exception :=
  | RemoteFailure (r : Reply)
  | LocalStoreFailure.

(** Everything outside the engine.  The remote backend answers a call
    as a function of the calls made so far; the clock, the UUID
    generator and the remap-id generator are read by position. *)
Record Env := mkEnv {
  toISOString_now : nat -> string;
  Date_now : nat -> Z;
  uuidv4 : nat -> string;
  remapId : nat -> string;
  clientIdItem : option string;
  selectProducts : list RemoteCall -> SelectResult Product;
  selectSales : list RemoteCall -> SelectResult Sale;
  selectNotifications : list RemoteCall -> SelectResult Notification;
  selectSettings : list RemoteCall -> SelectResult Setting;
  reply : list RemoteCall -> RemoteCall -> Reply;
  String_ : Exception -> string;
  syncImagesToSupabase :
    gmap string LocalImageMetadata -> gmap string LocalImageMetadata
}.

(** The state the engine runs on: the local database, how many times
    the clock and the generators have been read, and the remote calls
    made so far (oldest first). *)
Record World := mkWorld {
  w_db : Db;
  w_clock : nat;
  w_uuids : nat;
  w_calls : list RemoteCall
}.

Definition with_db (f : Db -> Db) (w : World) : World :=
  mkWorld (f (w_db w)) (w_clock w) (w_uuids w) (w_calls w).

Definition tick (w : World) : World :=
  mkWorld (w_db w) (S (w_clock w)) (w_uuids w) (w_calls w).

Definition draw (w : World) : World :=
  mkWorld (w_db w) (w_clock w) (S (w_uuids w)) (w_calls w).

Definition call (c : RemoteCall) (w : World) : World :=
  mkWorld (w_db w) (w_clock w) (w_uuids w) (w_calls w ++ [c]).

(** ** Pull ([syncManager.ts]) *)

(** [s.startsWith(prefix)] and [s.includes(sub)] *)
Definition startsWith (s prefix : string) : bool := String.prefix prefix s.

Definition includes (s sub : string) : bool :=
  match String.index 0 sub s with
  | Some _ => true
  | None => false
  end.

(** [error?.code === 'PGRST205' ||
     error?.message?.includes("Could not find the table")] *)
Definition isRelationNotFound (error : PgError) : bool :=
  bool_decide (e_code error = Some "PGRST205")
  || match e_message error with
     | Some message => includes message "Could not find the table"
     | None => false
     end.

Definition putProduct (env : Env) (w : World) (product : Product) : World :=
  tick (with_db (with_products (insert (p_id product)
    (mkLocalProduct (p_id product) (p_name product) (p_category product)
       (p_buying_price product) (p_selling_price product) (p_quantity product)
       (p_low_stock_level product) (p_image_url product) None
       (p_created_at product) (p_updated_at product) true
       (Some (toISOString_now env (w_clock w)))))) w).

Definition putSale (env : Env) (w : World) (sale : Sale) : World :=
  tick (with_db (with_sales (insert (s_id sale)
    (mkLocalSale (s_id sale) (s_product_id sale) (s_product_name sale)
       (s_quantity_sold sale) (s_unit_price sale) (s_total_price sale)
       (s_sale_date sale) (s_created_at sale) true
       (Some (toISOString_now env (w_clock w)))))) w).

Definition putNotification (w : World) (notification : Notification) : World :=
  with_db (with_notifications (insert (n_id notification)
    (mkLocalNotification (n_id notification) (n_type notification)
       (n_message notification) (n_product_id notification)
       (n_created_at notification) (n_cleared notification) true))) w.

Definition putSetting (w : World) (setting : Setting) : World :=
  with_db (with_settings (insert (t_id setting)
    (mkLocalSetting (t_id setting) (t_key setting) (t_value setting)
       (t_created_at setting) (t_updated_at setting) true))) w.

(** The body of a pull function once the query has been awaited:
    [put] is the per-row upsert of that collection. *)
Definition mergeRows {A : Type} (put : World -> A -> World)
    (result : SelectResult A) (w : World) : bool * World :=
  match result with
  | SelectThrows => (false, w)
  | SelectError error =>
      if isRelationNotFound error then (true, w) else (false, w)
  | SelectData rows => (true, foldl put w (default [] rows))
  end.

Definition syncProductsFromSupabase (env : Env) (w : World) : bool * World :=
  mergeRows (putProduct env) (selectProducts env (w_calls w))
            (call (CallSelect products) w).

Definition syncSalesFromSupabase (env : Env) (w : World) : bool * World :=
  mergeRows (putSale env) (selectSales env (w_calls w))
            (call (CallSelect sales) w).

Definition syncNotificationsFromSupabase (env : Env) (w : World) : bool * World :=
  mergeRows putNotification (selectNotifications env (w_calls w))
            (call (CallSelect notifications) w).

Definition syncSettingsFromSupabase (env : Env) (w : World) : bool * World :=
  mergeRows putSetting (selectSettings env (w_calls w))
            (call (CallSelect settings) w).

(** ** Push ([pushPendingMutations]) *)

(** [idMappings[key]] in a test or on the left of [||]: the value when
    it is present and truthy (a non-empty string).  The table starts
    as [{}] and only receives record identifiers as keys; properties
    inherited from [Object.prototype] are outside the model. *)
Definition mapped (idMappings : gmap string string) (key : string) : option string :=
  match idMappings !! key with
  | Some v => if bool_decide (v = "") then None else Some v
  | None => None
  end.

(** [idMappings[recordId] || recordId] *)
Definition mappedOr (idMappings : gmap string string) (recordId : string) : string :=
  default recordId (mapped idMappings recordId).

(** [idMappings[recordId]] stored into a payload field. *)
Definition mappedVal (idMappings : gmap string string) (recordId : string) : JsVal :=
  match idMappings !! recordId with
  | Some v => JStr v
  | None => JUndefined
  end.

(** STEP 1, one iteration: pre-map an offline-created product. *)
Definition premapProduct (env : Env) (st : World * gmap string string)
    (mutation : MutationRecord) : World * gmap string string :=
  let '(w, idMappings) := st in
  if bool_decide (m_table mutation = products)
     && bool_decide (m_operation mutation = INSERT) then
    if startsWith (m_recordId mutation) "local_" then
      let remoteUUID := uuidv4 env (w_uuids w) in
      (draw w, <[m_recordId mutation := remoteUUID]> idMappings)
    else st
  else st.

Definition set_payload (payload : gmap string JsVal) (m : MutationRecord)
    : MutationRecord :=
  mkMutation (m_id m) (m_clientId m) (m_table m) (m_operation m) (m_recordId m)
             payload (m_timestamp m) (m_status m) (m_retries m) (m_lastError m).

Definition set_ls_product_id (pid : option string) (s : LocalSale) : LocalSale :=
  mkLocalSale (ls_id s) pid (ls_product_name s) (ls_quantity_sold s)
              (ls_unit_price s) (ls_total_price s) (ls_sale_date s)
              (ls_created_at s) (ls_synced s) (ls_lastSyncedAt s).

(** [payload?.product_id] when it is a truthy string.  A number or a
    boolean would be looked up under its decimal or literal spelling,
    which is never a key of the table. *)
Definition payloadProductId (payload : gmap string JsVal) : option string :=
  match payload !! "product_id" with
  | Some (JStr productId) =>
      if bool_decide (productId = "") then None else Some productId
  | _ => None
  end.

(** STEP 2, one iteration.  The array element is rewritten in memory
    (the second component collects the array as the apply pass will
    see it); the queued row itself is not written. *)
Definition rewriteSaleMutation (idMappings : gmap string string)
    (st : World * list MutationRecord) (mutation : MutationRecord)
    : World * list MutationRecord :=
  let '(w, seen) := st in
  if bool_decide (m_table mutation = sales) then
    match payloadProductId (m_payload mutation) with
    | Some productId =>
        match mapped idMappings productId with
        | Some newProductId =>
            let mutation' :=
              set_payload (<["product_id" := JStr newProductId]> (m_payload mutation))
                          mutation in
            let w' :=
              if startsWith (m_recordId mutation) "sale_" then
                with_db (with_sales
                  (alter (set_ls_product_id (Some newProductId))
                         (m_recordId mutation))) w
              else w in
            (w', seen ++ [mutation'])
        | None => (w, seen ++ [mutation])
        end
    | None => (w, seen ++ [mutation])
    end
  else (w, seen ++ [mutation]).

Record PushState := mkPush {
  ps_world : World;
  ps_idMappings : gmap string string;
  ps_syncedCount : nat;
  ps_failedCount : nat
}.

Definition in_world (f : World -> World) (st : PushState) : PushState :=
  mkPush (f (ps_world st)) (ps_idMappings st) (ps_syncedCount st) (ps_failedCount st).

Definition in_queue (f : gmap string MutationRecord -> gmap string MutationRecord)
    (st : PushState) : PushState :=
  in_world (with_db (with_mutations f)) st.

Definition record_mapping (oldId newId : string) (st : PushState) : PushState :=
  mkPush (ps_world st) (<[oldId := newId]> (ps_idMappings st))
         (ps_syncedCount st) (ps_failedCount st).

Definition count_synced (st : PushState) : PushState :=
  mkPush (ps_world st) (ps_idMappings st) (S (ps_syncedCount st)) (ps_failedCount st).

Definition count_failed (st : PushState) : PushState :=
  mkPush (ps_world st) (ps_idMappings st) (ps_syncedCount st) (S (ps_failedCount st)).

(** How the [try] block of one iteration ends. *)
Inductive Completion :=
  | Normal
  | Continue
  | Throw (error : Exception).

(** [const { error } = await supabase.from(t)...; if (error) throw error;] *)
Definition transmit (env : Env) (c : RemoteCall) (st : PushState)
    : PushState * option Exception :=
  let r := reply env (w_calls (ps_world st)) c in
  let st' := in_world (call c) st in
  match r with
  | ReplyOk => (st', None)
  | _ => (st', Some (RemoteFailure r))
  end.

(** [let finalPayload = {...payload}; finalPayload.id = v;
     delete finalPayload.synced] *)
Definition localPayload (payload : gmap string JsVal) (v : JsVal)
    : gmap string JsVal :=
  delete "synced" (<["id" := v]> payload).

(** [await markMutationSynced(mutation.id); syncedCount++; continue;] *)
Definition skip (mutation : MutationRecord) (st : PushState)
    : PushState * Completion :=
  (count_synced (in_queue (markMutationSynced (m_id mutation)) st), Continue).

(** [{...local, id: newId, synced: true, lastSyncedAt: iso}] and
    [{synced: true, lastSyncedAt: iso}] *)
Definition lp_rekey (newId iso : string) (p : LocalProduct) : LocalProduct :=
  mkLocalProduct newId (lp_name p) (lp_category p) (lp_buying_price p)
    (lp_selling_price p) (lp_quantity p) (lp_low_stock_level p) (lp_image_url p)
    (lp_image_id p) (lp_created_at p) (lp_updated_at p) true (Some iso).

Definition lp_stamp (iso : string) (p : LocalProduct) : LocalProduct :=
  lp_rekey (lp_id p) iso p.

Definition ls_rekey (newId iso : string) (s : LocalSale) : LocalSale :=
  mkLocalSale newId (ls_product_id s) (ls_product_name s) (ls_quantity_sold s)
    (ls_unit_price s) (ls_total_price s) (ls_sale_date s) (ls_created_at s)
    true (Some iso).

Definition ls_stamp (iso : string) (s : LocalSale) : LocalSale :=
  ls_rekey (ls_id s) iso s.

Definition ln_rekey (newId : string) (n : LocalNotification) : LocalNotification :=
  mkLocalNotification newId (ln_type n) (ln_message n) (ln_product_id n)
    (ln_created_at n) (ln_cleared n) true.

Definition lt_rekey (newId : string) (t : LocalSetting) : LocalSetting :=
  mkLocalSetting newId (lt_key t) (lt_value t) (lt_created_at t)
    (lt_updated_at t) true.

(** [finalPayload.id] *)
Definition payloadId (payload : gmap string JsVal) : JsVal :=
  default JUndefined (payload !! "id").

(** [const local = await table.get(recordId);
     if (local) { await table.delete(recordId);
                  await table.add({...local, id: newId, ...}); }]
    [add] rejects when the key is missing or already stored. *)
Definition rekey {A : Type} (recordId : string) (newId : JsVal)
    (renew : string -> A -> A) (t : gmap string A)
    : gmap string A * option Exception :=
  match t !! recordId with
  | None => (t, None)
  | Some local =>
      let t' := delete recordId t in
      match newId with
      | JStr newId =>
          match t' !! newId with
          | Some _ => (t', Some LocalStoreFailure)
          | None => (<[newId := renew newId local]> t', None)
          end
      | _ => (t', Some LocalStoreFailure)
      end
  end.

Definition completed (r : PushState * option Exception) : PushState * Completion :=
  match r.2 with
  | Some e => (r.1, Throw e)
  | None => (r.1, Normal)
  end.

Definition rekeyProduct (env : Env) (recordId : string) (newId : JsVal)
    (st : PushState) : PushState * option Exception :=
  let w := ps_world st in
  let iso := toISOString_now env (w_clock w) in
  let r := rekey recordId newId (fun i => lp_rekey i iso) (db_products (w_db w)) in
  let st' := in_world (with_db (with_products (fun _ => r.1))) st in
  (match db_products (w_db w) !! recordId with
   | Some _ => in_world tick st'
   | None => st'
   end, r.2).

Definition rekeySale (env : Env) (recordId : string) (newId : JsVal)
    (st : PushState) : PushState * option Exception :=
  let w := ps_world st in
  let iso := toISOString_now env (w_clock w) in
  let r := rekey recordId newId (fun i => ls_rekey i iso) (db_sales (w_db w)) in
  let st' := in_world (with_db (with_sales (fun _ => r.1))) st in
  (match db_sales (w_db w) !! recordId with
   | Some _ => in_world tick st'
   | None => st'
   end, r.2).

Definition rekeyNotification (recordId : string) (newId : JsVal)
    (st : PushState) : PushState * option Exception :=
  let r := rekey recordId newId ln_rekey (db_notifications (w_db (ps_world st))) in
  (in_world (with_db (with_notifications (fun _ => r.1))) st, r.2).

Definition rekeySetting (recordId : string) (newId : JsVal)
    (st : PushState) : PushState * option Exception :=
  let r := rekey recordId newId lt_rekey (db_settings (w_db (ps_world st))) in
  (in_world (with_db (with_settings (fun _ => r.1))) st, r.2).

(** [await db.products.update(id, {synced: true, lastSyncedAt: ...})] *)
Definition stampProduct (env : Env) (recordId : string) (st : PushState) : PushState :=
  let iso := toISOString_now env (w_clock (ps_world st)) in
  in_world (fun w => tick (with_db (with_products (alter (lp_stamp iso) recordId)) w)) st.

Definition stampSale (env : Env) (recordId : string) (st : PushState) : PushState :=
  let iso := toISOString_now env (w_clock (ps_world st)) in
  in_world (fun w => tick (with_db (with_sales (alter (ls_stamp iso) recordId)) w)) st.

(** [const remoteUUID = uuidv4()] *)
Definition freshUUID (env : Env) (st : PushState) : string * PushState :=
  (uuidv4 env (w_uuids (ps_world st)), in_world draw st).

(** STEP 3: the [try] block of one iteration of the apply pass. *)
Definition tryBody (env : Env) (mutation : MutationRecord) (st : PushState)
    : PushState * Completion :=
  let recordId := m_recordId mutation in
  let payload := m_payload mutation in
  match m_table mutation, m_operation mutation with
  | products, INSERT =>
      let isLocalRecord := startsWith recordId "local_" in
      let finalPayload :=
        if isLocalRecord
        then localPayload payload (mappedVal (ps_idMappings st) recordId)
        else payload in
      match transmit env (CallInsert products finalPayload) st with
      | (st1, Some error) => (st1, Throw error)
      | (st1, None) =>
          if isLocalRecord
          then completed (rekeyProduct env recordId (payloadId finalPayload) st1)
          else (stampProduct env recordId st1, Normal)
      end
  | products, UPDATE =>
      if startsWith recordId "local_" then skip mutation st
      else
        let recordId' := mappedOr (ps_idMappings st) recordId in
        match transmit env (CallUpdate products payload recordId') st with
        | (st1, Some error) => (st1, Throw error)
        | (st1, None) => (stampProduct env recordId' st1, Normal)
        end
  | products, DELETE =>
      if startsWith recordId "local_" then skip mutation st
      else
        let recordId' := mappedOr (ps_idMappings st) recordId in
        match transmit env (CallDelete products recordId') st with
        | (st1, Some error) => (st1, Throw error)
        | (st1, None) => (st1, Normal)
        end
  | sales, INSERT =>
      let isLocalRecord := startsWith recordId "sale_" in
      let '(finalPayload, st0) :=
        if isLocalRecord
        then let '(remoteUUID, st') := freshUUID env st in
             (localPayload payload (JStr remoteUUID),
              record_mapping recordId remoteUUID st')
        else (payload, st) in
      match transmit env (CallInsert sales finalPayload) st0 with
      | (st1, Some error) => (st1, Throw error)
      | (st1, None) =>
          if isLocalRecord
          then completed (rekeySale env recordId (payloadId finalPayload) st1)
          else (stampSale env recordId st1, Normal)
      end
  | sales, UPDATE =>
      if startsWith recordId "sale_" then skip mutation st
      else
        let recordId' := mappedOr (ps_idMappings st) recordId in
        match transmit env (CallUpdate sales payload recordId') st with
        | (st1, Some error) => (st1, Throw error)
        | (st1, None) => (stampSale env recordId' st1, Normal)
        end
  | sales, DELETE =>
      if startsWith recordId "sale_" then skip mutation st
      else
        let recordId' := mappedOr (ps_idMappings st) recordId in
        match transmit env (CallDelete sales recordId') st with
        | (st1, Some error) => (st1, Throw error)
        | (st1, None) => (st1, Normal)
        end
  | notifications, INSERT =>
      let isLocalRecord := startsWith recordId "notif_" in
      let '(finalPayload, st0) :=
        if isLocalRecord
        then let '(remoteUUID, st') := freshUUID env st in
             (localPayload payload (JStr remoteUUID),
              record_mapping recordId remoteUUID st')
        else (payload, st) in
      match transmit env (CallInsert notifications finalPayload) st0 with
      | (st1, Some error) => (st1, Throw error)
      | (st1, None) =>
          if isLocalRecord
          then completed (rekeyNotification recordId (payloadId finalPayload) st1)
          else (st1, Normal)
      end
  | notifications, UPDATE =>
      if startsWith recordId "notif_" then skip mutation st
      else
        let recordId' := mappedOr (ps_idMappings st) recordId in
        match transmit env (CallUpdate notifications payload recordId') st with
        | (st1, Some error) => (st1, Throw error)
        | (st1, None) => (st1, Normal)
        end
  | notifications, DELETE =>
      if startsWith recordId "notif_" then skip mutation st
      else
        let recordId' := mappedOr (ps_idMappings st) recordId in
        match transmit env (CallDelete notifications recordId') st with
        | (st1, Some error) => (st1, Throw error)
        | (st1, None) => (st1, Normal)
        end
  | settings, INSERT =>
      let isLocalRecord := startsWith recordId "setting_" in
      let '(finalPayload, st0) :=
        if isLocalRecord
        then let '(remoteUUID, st') := freshUUID env st in
             (localPayload payload (JStr remoteUUID),
              record_mapping recordId remoteUUID st')
        else (payload, st) in
      match transmit env (CallInsert settings finalPayload) st0 with
      | (st1, Some error) => (st1, Throw error)
      | (st1, None) =>
          if isLocalRecord
          then completed (rekeySetting recordId (payloadId finalPayload) st1)
          else (st1, Normal)
      end
  | settings, UPDATE =>
      if startsWith recordId "setting_" then skip mutation st
      else
        let recordId' := mappedOr (ps_idMappings st) recordId in
        match transmit env (CallUpdate settings payload recordId') st with
        | (st1, Some error) => (st1, Throw error)
        | (st1, None) => (st1, Normal)
        end
  | settings, DELETE =>
      if startsWith recordId "setting_" then skip mutation st
      else
        let recordId' := mappedOr (ps_idMappings st) recordId in
        match transmit env (CallDelete settings recordId') st with
        | (st1, Some error) => (st1, Throw error)
        | (st1, None) => (st1, Normal)
        end
  | images, _ => (st, Normal)
  end.

(** One iteration of the apply pass, with its [catch] clause. *)
Definition applyMutation (env : Env) (st : PushState) (mutation : MutationRecord)
    : PushState :=
  match tryBody env mutation st with
  | (st', Normal) =>
      count_synced (in_queue (markMutationSynced (m_id mutation)) st')
  | (st', Continue) => st'
  | (st', Throw error) =>
      count_failed
        (in_queue (markMutationFailed (m_id mutation) (String_ env error)) st')
  end.

(** STEP 1, STEP 2 and STEP 3 over the array [mutations]. *)
Definition premapPass (env : Env) (mutations : list MutationRecord) (w : World)
    : World * gmap string string :=
  foldl (premapProduct env) (w, ∅) mutations.

Definition rewritePass (idMappings : gmap string string)
    (mutations : list MutationRecord) (w : World) : World * list MutationRecord :=
  foldl (rewriteSaleMutation idMappings) (w, []) mutations.

Definition applyPass (env : Env) (mutations : list MutationRecord) (st : PushState)
    : PushState :=
  foldl (applyMutation env) st mutations.

Record PushResult := mkPushResult {
  success : bool;
  idMappings : gmap string string
}.

(** The relation-not-found test of the preflight, on the awaited
    [{ error }] or on a rejection. *)
Definition preflightAborts (r : Reply) : bool :=
  match r with
  | ReplyOk => false
  | ReplyError prodHeadErr => isRelationNotFound prodHeadErr
  | ReplyThrows => true
  end.

Definition pushPendingMutations (env : Env) (w : World) : PushResult * World :=
  let mutations := getPendingMutations (db_mutations (w_db w)) in
  if bool_decide (length mutations = 0%nat) then (mkPushResult true ∅, w)
  else
    let head := reply env (w_calls w) (CallHead products) in
    let w0 := call (CallHead products) w in
    if preflightAborts head then (mkPushResult false ∅, w0)
    else
      let '(w1, idMappings1) := premapPass env mutations w0 in
      let '(w2, mutations') := rewritePass idMappings1 mutations w1 in
      let st := applyPass env mutations' (mkPush w2 idMappings1 0 0) in
      let w3 := with_db (with_mutations clearSyncedMutations) (ps_world st) in
      (mkPushResult (bool_decide (ps_failedCount st = 0%nat)) (ps_idMappings st), w3).

(** ** Reference fixup and the full sync ([updateRemappedReferences],
       [performFullSync]) *)

(** [localStorage.getItem('mbodze_client_id') || 'unknown'] *)
Definition clientId (env : Env) : string :=
  match clientIdItem env with
  | Some c => if bool_decide (c = "") then "unknown" else c
  | None => "unknown"
  end.

(** One iteration of the loop over [allSales]; the flag records that
    an earlier iteration threw, which ends the loop. *)
Definition remapSale (env : Env) (idMappings : gmap string string)
    (st : World * bool) (sale : LocalSale) : World * bool :=
  let '(w, thrown) := st in
  if thrown then st
  else
    match ls_product_id sale ≫= mapped idMappings with
    | None => st
    | Some newProductId =>
        let w1 :=
          with_db (with_sales
            (alter (set_ls_product_id (Some newProductId)) (ls_id sale))) w in
        let newId := remapId env (w_clock w1) in
        let w2 := tick w1 in
        let mutation :=
          mkMutation newId (clientId env) sales UPDATE (ls_id sale)
            {["product_id" := JStr newProductId]} (Date_now env (w_clock w2))
            pending 0 None in
        let w3 := tick w2 in
        match db_mutations (w_db w3) !! newId with
        | Some _ => (w3, true)
        | None => (with_db (with_mutations (insert newId mutation)) w3, false)
        end
    end.

Definition updateRemappedReferences (env : Env) (idMappings : gmap string string)
    (w : World) : World :=
  if bool_decide (size idMappings = 0%nat) then w
  else (foldl (remapSale env idMappings) (w, false) (toArray (db_sales (w_db w)))).1.

Definition SYNC_DEBOUNCE_MS : Z := 1000.

(** The module state of the engine next to the world it acts on. *)
Record Engine := mkEngine {
  world : World;
  syncInProgress : bool;
  lastSyncAttempt : Z
}.

Definition set_sm_lastSyncedAt (iso : string) (m : SyncMetadata) : SyncMetadata :=
  mkSyncMetadata iso (sm_clientId m) (sm_offlineMode m).

(** The pull phase: the four pull functions, one after the other. *)
Definition pullPhase (env : Env) (w : World) : (bool * bool * bool * bool) * World :=
  let '(pullProducts, w) := syncProductsFromSupabase env w in
  let '(pullSales, w) := syncSalesFromSupabase env w in
  let '(pullNotifications, w) := syncNotificationsFromSupabase env w in
  let '(pullSettings, w) := syncSettingsFromSupabase env w in
  ((pullProducts, pullSales, pullNotifications, pullSettings), w).

(** The [try] block of [performFullSync]. *)
Definition fullSyncBody (env : Env) (w : World) : bool * World :=
  let '((pullProducts, pullSales, pullNotifications, pullSettings), w) :=
    pullPhase env w in
  let '(pushResult, w) := pushPendingMutations env w in
  let w := with_db (with_images (syncImagesToSupabase env)) w in
  let w :=
    if bool_decide (size (idMappings pushResult) = 0%nat) then w
    else updateRemappedReferences env (idMappings pushResult) w in
  let w :=
    tick (with_db (with_syncMeta
      (fmap (set_sm_lastSyncedAt (toISOString_now env (w_clock w))))) w) in
  (pullProducts && pullSales && pullNotifications && pullSettings
     && success pushResult, w).

(** The synchronous prefix of [performFullSync], up to the first
    [await]: [None] when the call returns [false] at once, otherwise
    the engine with the flag raised and the attempt stamped. *)
Definition enter (now : Z) (e : Engine) : option Engine :=
  if now - lastSyncAttempt e <? SYNC_DEBOUNCE_MS then None
  else if syncInProgress e then None
  else Some (mkEngine (world e) true now).

(** The rest of the call: the [try] block and the [finally] clause. *)
Definition settle (env : Env) (e : Engine) : bool * Engine :=
  let '(success, w) := fullSyncBody env (world e) in
  (success, mkEngine w false (lastSyncAttempt e)).

(** A call that nothing interleaves with; [now] is [Date.now()]. *)
Definition performFullSync (env : Env) (now : Z) (e : Engine) : bool * Engine :=
  match enter now e with
  | None => (false, e)
  | Some e' => settle env e'
  end.

(** Calls as the event loop schedules them: a trigger runs the
    synchronous prefix of a call, and an admitted call later runs to
    completion.  [cycles] counts the pull-and-push cycles executed and
    [dropped] the calls that returned at once. *)
Inductive Event :=
  | Trigger (now : Z)
  | Complete.

Record Machine := mkMachine {
  engine : Engine;
  cycles : nat;
  dropped : nat
}.

Definition step (env : Env) (m : Machine) (ev : Event) : Machine :=
  match ev with
  | Trigger now =>
      match enter now (engine m) with
      | None => mkMachine (engine m) (cycles m) (S (dropped m))
      | Some e' => mkMachine e' (cycles m) (dropped m)
      end
  | Complete =>
      if syncInProgress (engine m)
      then mkMachine (settle env (engine m)).2 (S (cycles m)) (dropped m)
      else m
  end.

Definition run (env : Env) (evs : list Event) (m : Machine) : Machine :=
  foldl (step env) m evs.

(** ** Stock classification ([Products.tsx]) *)

Record StockStatus := mkStockStatus {
  label : string;
  color : string;
  bgColor : string
}.

Definition getStockStatus (product : Product) : StockStatus :=
  if p_quantity product =? 0 then
    mkStockStatus "Out of Stock" "text-red-600" "bg-red-100"
  else if p_quantity product <=? p_low_stock_level product then
    mkStockStatus "Low Stock" "text-orange-600" "bg-orange-100"
  else
    mkStockStatus "In Stock" "text-green-600" "bg-green-100".

(** ** Notions used to state the properties *)

(** Every row is stored under its own [id] (the primary key is the
    inbound key path [&id]). *)
Definition well_keyed (q : gmap string MutationRecord) : Prop :=
  forall k m, q !! k = Some m -> m_id m = k.

(** The local-origin marker the engine tests for in each collection. *)
Definition placeholderPrefix (t : MutationTable) : option string :=
  match t with
  | products => Some "local_"
  | sales => Some "sale_"
  | notifications => Some "notif_"
  | settings => Some "setting_"
  | images => None
  end.

(** A local store with the [lastSyncedAt] stamps left out. *)
Definition lp_unstamp (p : LocalProduct) : LocalProduct :=
  mkLocalProduct (lp_id p) (lp_name p) (lp_category p) (lp_buying_price p)
    (lp_selling_price p) (lp_quantity p) (lp_low_stock_level p) (lp_image_url p)
    (lp_image_id p) (lp_created_at p) (lp_updated_at p) (lp_synced p) None.

Definition ls_unstamp (s : LocalSale) : LocalSale :=
  mkLocalSale (ls_id s) (ls_product_id s) (ls_product_name s) (ls_quantity_sold s)
    (ls_unit_price s) (ls_total_price s) (ls_sale_date s) (ls_created_at s)
    (ls_synced s) None.

Definition unstamped (d : Db) : Db :=
  with_products (fmap lp_unstamp) (with_sales (fmap ls_unstamp) d).

(** [n] consecutive failed pushes of one mutation. *)
Fixpoint failTimes (n : nat) (mutationId error : string)
    (q : gmap string MutationRecord) : gmap string MutationRecord :=
  match n with
  | O => q
  | S n' => markMutationFailed mutationId error (failTimes n' mutationId error q)
  end.

(** The stored row after [n] such failures. *)
Definition after_failures (n : nat) (error : string) (m : MutationRecord)
    : MutationRecord :=
  match n with
  | O => m
  | S _ =>
      set_outcome
        (if maxRetries <=? m_retries m + Z.of_nat n then failed else pending)
        (m_retries m + Z.of_nat n) (Some error) m
  end.

(** ** Sample data *)

Definition sampleMutation : MutationRecord :=
  mkMutation "m-1" "client_1" products UPDATE "p-1" ∅ 1700000000000 pending 0 None.

Definition sampleQueue : gmap string MutationRecord :=
  {["m-1" := sampleMutation]}.

Definition exhaustedMutation : MutationRecord :=
  mkMutation "m-2" "client_1" sales INSERT "sale_1" ∅ 1700000000001 failed 5
             (Some "timeout").

Definition exhaustedQueue : gmap string MutationRecord :=
  <["m-2" := exhaustedMutation]> sampleQueue.

(** The relation-not-found condition as the backend reports it. *)
Definition relationNotFound (e : PgError) : Prop :=
  e_code e = Some "PGRST205" \/
  exists message, e_message e = Some message /\
                  includes message "Could not find the table" = true.

(** What the four queries of one pull phase return when the phase
    starts after the remote calls [calls]. *)
Definition pullReplies (env : Env) (calls : list RemoteCall)
    : SelectResult Product * SelectResult Sale
      * SelectResult Notification * SelectResult Setting :=
  (selectProducts env calls,
   selectSales env (calls ++ [CallSelect products]),
   selectNotifications env (calls ++ [CallSelect products; CallSelect sales]),
   selectSettings env
     (calls ++ [CallSelect products; CallSelect sales; CallSelect notifications])).

(** The rows a query result upserts, as a pure table update. *)
Definition upserted {A B : Type} (key : A -> string) (row : A -> B)
    (result : SelectResult A) (t : gmap string B) : gmap string B :=
  match result with
  | SelectData rows => foldl (fun t r => <[key r := row r]> t) t (default [] rows)
  | _ => t
  end.

Definition unstampedProduct (product : Product) : LocalProduct :=
  mkLocalProduct (p_id product) (p_name product) (p_category product)
    (p_buying_price product) (p_selling_price product) (p_quantity product)
    (p_low_stock_level product) (p_image_url product) None
    (p_created_at product) (p_updated_at product) true None.

Definition unstampedSale (sale : Sale) : LocalSale :=
  mkLocalSale (s_id sale) (s_product_id sale) (s_product_name sale)
    (s_quantity_sold sale) (s_unit_price sale) (s_total_price sale)
    (s_sale_date sale) (s_created_at sale) true None.

Definition localNotification (notification : Notification) : LocalNotification :=
  mkLocalNotification (n_id notification) (n_type notification)
    (n_message notification) (n_product_id notification)
    (n_created_at notification) (n_cleared notification) true.

Definition localSetting (setting : Setting) : LocalSetting :=
  mkLocalSetting (t_id setting) (t_key setting) (t_value setting)
    (t_created_at setting) (t_updated_at setting) true.

(** The local store a pull phase leaves, stamps left out, from the
    four query results and the store it started on. *)
Definition pulled
    (r : SelectResult Product * SelectResult Sale
         * SelectResult Notification * SelectResult Setting) (d : Db) : Db :=
  let '(rp, rs, rn, rt) := r in
  mkDb (upserted p_id unstampedProduct rp (db_products d))
       (upserted s_id unstampedSale rs (db_sales d))
       (upserted n_id localNotification rn (db_notifications d))
       (upserted t_id localSetting rt (db_settings d))
       (db_images d) (db_mutations d) (db_syncMeta d).

Definition emptyDb : Db := mkDb ∅ ∅ ∅ ∅ ∅ ∅ None.

Definition emptyWorld : World := mkWorld emptyDb 0 0 [].

Definition hairCream : Product :=
  mkProduct "8f14e45f-ceea-467f-a9d1-3c5f2b7a9e10" "Hair Cream" "Hair"
            20000 50000 10 7 None
            "2024-01-01T08:00:00.000Z" "2024-01-01T08:00:00.000Z".

Definition missingTable : PgError :=
  mkPgError (Some "PGRST205")
            (Some "Could not find the table 'public.products' in the schema cache").

(** A backend that holds one product and accepts every write; the
    clock reads one minute later from its second reading on. *)
Definition shopBackend : Env :=
  mkEnv (fun k => match k with
                  | O => "2024-01-02T10:00:00.000Z"
                  | S _ => "2024-01-02T10:01:00.000Z"
                  end)
        (fun k => 1704189600000 + Z.of_nat k)
        (fun k => match k with
                  | O => "0b8c7d1e-5a3f-4c2b-9e6d-1f2a3b4c5d6e"
                  | S _ => "7c9e6679-7425-40de-944b-e07fc1f90ae7"
                  end)
        (fun k => match k with
                  | O => "remap_1704189600000_k3j9x0a1b"
                  | S _ => "remap_1704189600001_q8w2e4r6t"
                  end)
        (Some "client_1704000000000_ab12cd34e")
        (fun _ => SelectData (Some [hairCream]))
        (fun _ => SelectData (Some []))
        (fun _ => SelectData (Some []))
        (fun _ => SelectData None)
        (fun _ _ => ReplyOk)
        (fun _ => "[object Object]")
        (fun imgs => imgs).

(** A backend whose schema is not provisioned yet. *)
Definition bareBackend : Env :=
  mkEnv (toISOString_now shopBackend) (Date_now shopBackend) (uuidv4 shopBackend)
        (remapId shopBackend) (clientIdItem shopBackend)
        (fun _ => SelectError missingTable)
        (fun _ => SelectError missingTable)
        (fun _ => SelectError missingTable)
        (fun _ => SelectError missingTable)
        (fun _ _ => ReplyError missingTable)
        (String_ shopBackend)
        (syncImagesToSupabase shopBackend).

Definition idleEngine : Engine := mkEngine emptyWorld false 0.

Definition idleMachine : Machine := mkMachine idleEngine 0 0.

(** The preflight did not abort the push: the existence check came
    back without the relation-not-found condition. *)
Definition preflightPasses (env : Env) (w : World) : Prop :=
  preflightAborts (reply env (w_calls w) (CallHead products)) = false.

(** The state in which the apply pass of a push starts: the world, the
    id-mapping table and the array of mutations after STEP 1 and
    STEP 2. *)
Definition beforeApply (env : Env) (w : World)
    : World * gmap string string * list MutationRecord :=
  let mutations := getPendingMutations (db_mutations (w_db w)) in
  let '(w1, idMappings1) := premapPass env mutations (call (CallHead products) w) in
  let '(w2, mutations') := rewritePass idMappings1 mutations w1 in
  (w2, idMappings1, mutations').

(** What the push returns once the apply pass has ended in [st]. *)
Definition afterApply (st : PushState) : PushResult * World :=
  (mkPushResult (bool_decide (ps_failedCount st = 0%nat)) (ps_idMappings st),
   with_db (with_mutations clearSyncedMutations) (ps_world st)).

(** Ascending primary-key order of queued mutations. *)
Definition idOrder (a b : MutationRecord) : Prop :=
  String.leb (m_id a) (m_id b) = true.

(** [b] is the array element [a], possibly with its payload rewritten
    by STEP 2. *)
Definition sameButPayload (a b : MutationRecord) : Prop :=
  b = set_payload (m_payload b) a.

Definition queueOf (st : PushState) : gmap string MutationRecord :=
  db_mutations (w_db (ps_world st)).

(** A UUID drawn from the generator at a position in [lo, hi). *)
Definition drawnIn (env : Env) (lo hi : nat) (v : string) : Prop :=
  exists k, (lo <= k < hi)%nat /\ v = uuidv4 env k.

(** An offline session: a product created under a placeholder id, a
    sale of it, and a restock of it, all still pending. *)
Definition offlineProduct : LocalProduct :=
  mkLocalProduct "local_1704189000000" "Hair Cream" "Hair" 20000 50000 10 7
                 None None "2024-01-02T09:50:00.000Z" "2024-01-02T09:50:00.000Z"
                 false None.

Definition offlineSale : LocalSale :=
  mkLocalSale "sale_1704189100000" (Some "local_1704189000000") "Hair Cream"
              10 50000 500000 "2024-01-02T09:51:40.000Z"
              "2024-01-02T09:51:40.000Z" false None.

Definition insertProduct : MutationRecord :=
  mkMutation "1b4e28ba-2fa1-41d2-883f-0016d3cca427" "client_1704000000000_ab12cd34e"
             products INSERT "local_1704189000000"
             {["name" := JStr "Hair Cream"; "selling_price" := JNum 50000;
               "synced" := JBool false]}
             1704189000000 pending 0 None.

Definition insertSale : MutationRecord :=
  mkMutation "6fa459ea-ee8a-4ca4-894e-db77e160355e" "client_1704000000000_ab12cd34e"
             sales INSERT "sale_1704189100000"
             {["product_id" := JStr "local_1704189000000"; "quantity_sold" := JNum 10]}
             1704189100000 pending 0 None.

Definition restockProduct : MutationRecord :=
  mkMutation "9c858901-8a57-4791-81fe-4c455b099bc9" "client_1704000000000_ab12cd34e"
             products UPDATE "local_1704189000000" {["quantity" := JNum 25]}
             1704189200000 pending 0 None.

Definition offlineQueue : gmap string MutationRecord :=
  <[m_id restockProduct := restockProduct]>
    (<[m_id insertSale := insertSale]>
       (<[m_id insertProduct := insertProduct]> ∅)).

Definition offlineWorld : World :=
  mkWorld (mkDb {[lp_id offlineProduct := offlineProduct]}
                {[ls_id offlineSale := offlineSale]}
                ∅ ∅ ∅ offlineQueue None)
          0 0 [].

(** A product created online and restocked afterwards, both writes
    queued; the UUID of the later mutation sorts first. *)
Definition createdFirst : MutationRecord :=
  mkMutation "f47ac10b-58cc-4372-a567-0e02b2c3d479" "client_1704000000000_ab12cd34e"
             products INSERT "3f2504e0-4f89-41d3-9a0c-0305e82c3301"
             {["name" := JStr "Shea Butter"; "quantity" := JNum 4]}
             1704189300000 pending 0 None.

Definition createdSecond : MutationRecord :=
  mkMutation "16fd2706-8baf-433b-82eb-8c7fada847da" "client_1704000000000_ab12cd34e"
             products UPDATE "3f2504e0-4f89-41d3-9a0c-0305e82c3301"
             {["quantity" := JNum 12]}
             1704189400000 pending 0 None.

Definition reorderedQueue : gmap string MutationRecord :=
  <[m_id createdSecond := createdSecond]> (<[m_id createdFirst := createdFirst]> ∅).

Definition reorderedWorld : World :=
  mkWorld (mkDb ∅ ∅ ∅ ∅ ∅ reorderedQueue None) 0 0 [].

(** ** Further operations of the queue ([offlineQueue.ts]) *)

(** [db.mutations.where('table').equals(table)
      .and((m) => m.status === 'pending').toArray()] *)
Definition getPendingMutationsForTable (table : MutationTable)
    (q : gmap string MutationRecord) : list MutationRecord :=
  filter (fun m => m_status m = pending)
         (filter (fun m => m_table m = table) (toArray q)).

Record QueueStats := mkQueueStats {
  qs_pending : nat;
  qs_synced : nat;
  qs_failed : nat;
  qs_total : nat
}.

(** [.count()] of a status query is the length of its result. *)
Definition getQueueStats (q : gmap string MutationRecord) : QueueStats :=
  let pending := length (where_status pending q) in
  let synced := length (where_status synced q) in
  let failed := length (where_status failed q) in
  mkQueueStats pending synced failed (pending + synced + failed).

(** The rows a query result carries into the merge loop. *)
Definition rowsOf {A : Type} (result : SelectResult A) : list A :=
  match result with
  | SelectData rows => default [] rows
  | _ => []
  end.

(** A pull function fails exactly on a rejection or on an error other
    than relation-not-found. *)
Definition pullFails {A : Type} (result : SelectResult A) : bool :=
  match result with
  | SelectThrows => true
  | SelectError e => negb (isRelationNotFound e)
  | SelectData _ => false
  end.

(** Everything a world holds apart from one collection and the clock
    position: used to say that a step touches that collection only. *)
Definition besidesProducts (w : World) : Db * nat * list RemoteCall :=
  (with_products (fun _ => ∅) (w_db w), w_uuids w, w_calls w).

Definition besidesSales (w : World) : Db * nat * list RemoteCall :=
  (with_sales (fun _ => ∅) (w_db w), w_uuids w, w_calls w).

Definition besidesNotifications (w : World) : Db * nat * list RemoteCall :=
  (with_notifications (fun _ => ∅) (w_db w), w_uuids w, w_calls w).

Definition besidesSettings (w : World) : Db * nat * list RemoteCall :=
  (with_settings (fun _ => ∅) (w_db w), w_uuids w, w_calls w).

(** The local row a pull stores for a remote row, stamped [iso]. *)
Definition pulledProduct (iso : string) (product : Product) : LocalProduct :=
  mkLocalProduct (p_id product) (p_name product) (p_category product)
    (p_buying_price product) (p_selling_price product) (p_quantity product)
    (p_low_stock_level product) (p_image_url product) None
    (p_created_at product) (p_updated_at product) true (Some iso).

Definition pulledSale (iso : string) (sale : Sale) : LocalSale :=
  mkLocalSale (s_id sale) (s_product_id sale) (s_product_name sale)
    (s_quantity_sold sale) (s_unit_price sale) (s_total_price sale)
    (s_sale_date sale) (s_created_at sale) true (Some iso).

(** A remote call that writes to the collection [t]. *)
Definition writesTo (t : MutationTable) (c : RemoteCall) : Prop :=
  match c with
  | CallInsert t' _ | CallUpdate t' _ _ | CallDelete t' _ => t' = t
  | _ => False
  end.

Definition isWrite (c : RemoteCall) : Prop := exists t, writesTo t c.

(** The array element STEP 2 leaves for [mutation]: a sale whose
    payload names a pre-mapped product gets the product's new id. *)
Definition rewrittenMutation (idMappings : gmap string string)
    (mutation : MutationRecord) : MutationRecord :=
  if bool_decide (m_table mutation = sales) then
    match payloadProductId (m_payload mutation) ≫= mapped idMappings with
    | Some newProductId =>
        set_payload (<["product_id" := JStr newProductId]> (m_payload mutation))
                    mutation
    | None => mutation
    end
  else mutation.

Definition productsOf (st : PushState) : gmap string LocalProduct :=
  db_products (w_db (ps_world st)).

(** The mutation [updateRemappedReferences] queues for a sale. *)
Definition isRemapMutation (idMappings : gmap string string) (m : MutationRecord)
    : Prop :=
  m_table m = sales /\ m_operation m = UPDATE /\ m_status m = pending /\
  m_retries m = 0 /\ m_lastError m = None /\
  exists oldId newId,
    mapped idMappings oldId = Some newId /\
    m_payload m = {["product_id" := JStr newId]}.

(** Every sale is stored under its own id. *)
Definition sales_well_keyed (t : gmap string LocalSale) : Prop :=
  forall k s, t !! k = Some s -> ls_id s = k.

(** From clock position [c0] on, the generated remap ids are new to the
    queue [q] and pairwise different. *)
Definition remapIdsFresh (env : Env) (c0 : nat) (q : gmap string MutationRecord)
    : Prop :=
  (forall c, (c0 <= c)%nat -> q !! remapId env c = None) /\
  (forall c c', (c0 <= c)%nat -> (c0 <= c')%nat ->
                remapId env c = remapId env c' -> c = c').

(** How many of the events are triggers. *)
Fixpoint triggersIn (evs : list Event) : nat :=
  match evs with
  | [] => 0%nat
  | Trigger _ :: rest => S (triggersIn rest)
  | Complete :: rest => triggersIn rest
  end.

(** 1 while a sync is in progress, else 0. *)
Definition inFlight (m : Machine) : nat :=
  if syncInProgress (engine m) then 1%nat else 0%nat.

(** Every trigger among the events falls into the debounce window
    opened at [t0]. *)
Definition withinWindow (t0 : Z) (evs : list Event) : Prop :=
  Forall (fun ev => match ev with
                    | Trigger t => t - t0 < SYNC_DEBOUNCE_MS
                    | Complete => True
                    end) evs.

(** ** Startup ([initializeSyncQueue], [supabase.ts]) *)

(** An optional field of a local row copied into a payload.  The local
    records carry a field that is absent or [null] as [None]; the
    payload holds [null] for it. *)
Definition optional (o : option string) : JsVal :=
  match o with
  | Some s => JStr s
  | None => JNull
  end.

Definition productPayload (product : LocalProduct) : gmap string JsVal :=
  {["name" := JStr (lp_name product);
    "category" := JStr (lp_category product);
    "buying_price" := JNum (lp_buying_price product);
    "selling_price" := JNum (lp_selling_price product);
    "quantity" := JNum (lp_quantity product);
    "low_stock_level" := JNum (lp_low_stock_level product);
    "image_url" := optional (lp_image_url product);
    "updated_at" := JStr (lp_updated_at product)]}.

Definition salePayload (sale : LocalSale) : gmap string JsVal :=
  {["product_id" := optional (ls_product_id sale);
    "product_name" := JStr (ls_product_name sale);
    "quantity_sold" := JNum (ls_quantity_sold sale);
    "unit_price" := JNum (ls_unit_price sale);
    "total_price" := JNum (ls_total_price sale);
    "sale_date" := JStr (ls_sale_date sale);
    "created_at" := JStr (ls_created_at sale)]}.

Definition notificationPayload (notification : LocalNotification)
    : gmap string JsVal :=
  {["type" := JStr (ln_type notification);
    "message" := JStr (ln_message notification);
    "product_id" := optional (ln_product_id notification);
    "created_at" := JStr (ln_created_at notification);
    "cleared" := JBool (ln_cleared notification)]}.

Definition settingPayload (setting : LocalSetting) : gmap string JsVal :=
  {["key" := JStr (lt_key setting);
    "value" := lt_value setting;
    "updated_at" := JStr (lt_updated_at setting)]}.

(** [await db.mutations.filter(m => m.table === table &&
      m.recordId === recordId && m.status === 'pending').first()] *)
Definition existingMutation (table : MutationTable) (recordId : string)
    (q : gmap string MutationRecord) : option MutationRecord :=
  head (filter (fun m => m_table m = table /\ m_recordId m = recordId
                         /\ m_status m = pending) (toArray q)).

(** [await enqueueMutation(table, operation, recordId, payload)] on the
    world: the identifier and the time stamp are read, then the row is
    added; the flag tells that [add] rejected. *)
Definition enqueue (env : Env) (table : MutationTable)
    (operation : MutationOperation) (recordId : string)
    (payload : gmap string JsVal) (w : World) : World * bool :=
  let w1 := tick (draw w) in
  match enqueueMutation (uuidv4 env (w_uuids w)) (clientId env)
          (Date_now env (w_clock w)) table operation recordId payload
          (db_mutations (w_db w)) with
  | Some (_, q) => (with_db (with_mutations (fun _ => q)) w1, false)
  | None => (w1, true)
  end.

(** One iteration of one of the four loops of [initializeSyncQueue];
    the state holds [enqueuedCount] and whether an [enqueueMutation]
    has thrown, which leaves the loops for the outer [catch]. *)
Definition enqueueIfMissing (env : Env) (table : MutationTable)
    (operation : MutationOperation) (recordId : string)
    (payload : gmap string JsVal) (st : World * nat * bool)
    : World * nat * bool :=
  let '(w, enqueuedCount, thrown) := st in
  if thrown then st
  else
    match existingMutation table recordId (db_mutations (w_db w)) with
    | Some _ => st
    | None =>
        let '(w', rejected) := enqueue env table operation recordId payload w in
        if rejected then (w', enqueuedCount, true)
        else (w', S enqueuedCount, false)
    end.

Definition enqueueLoop {A : Type} (env : Env) (table : MutationTable)
    (operation : MutationOperation) (recordId : A -> string)
    (payload : A -> gmap string JsVal) (rows : list A)
    (st : World * nat * bool) : World * nat * bool :=
  foldl (fun st row =>
           enqueueIfMissing env table operation (recordId row) (payload row) st)
        st rows.

(** The four loops. *)
Definition enqueueUnsynced (env : Env) (w : World) : World * nat * bool :=
  let st := (w, 0%nat, false) in
  let unsyncedProducts :=
    filter (fun p => lp_synced p = false) (toArray (db_products (w_db st.1.1))) in
  let st := enqueueLoop env products UPDATE lp_id productPayload
              unsyncedProducts st in
  let unsyncedSales :=
    filter (fun s => ls_synced s = false) (toArray (db_sales (w_db st.1.1))) in
  let st := enqueueLoop env sales INSERT ls_id salePayload unsyncedSales st in
  let unsyncedNotifications :=
    filter (fun n => ln_synced n = false)
           (toArray (db_notifications (w_db st.1.1))) in
  let st := enqueueLoop env notifications INSERT ln_id notificationPayload
              unsyncedNotifications st in
  let unsyncedSettings :=
    filter (fun s => lt_synced s = false) (toArray (db_settings (w_db st.1.1))) in
  enqueueLoop env settings UPDATE lt_id settingPayload unsyncedSettings st.

(** [online] is [navigator.onLine], [now] the reading of [Date.now()]
    in [performFullSync]. *)
Definition initializeSyncQueue (env : Env) (online : bool) (now : Z) (e : Engine)
    : nat * Engine :=
  let '(w, enqueuedCount, thrown) := enqueueUnsynced env (world e) in
  let e1 := mkEngine w (syncInProgress e) (lastSyncAttempt e) in
  if thrown then (0%nat, e1)
  else
    let pendingMutations := length (where_status pending (db_mutations (w_db w))) in
    if (0 <? enqueuedCount)%nat || (0 <? pendingMutations)%nat then
      if online then (enqueuedCount, (performFullSync env now e1).2)
      else (enqueuedCount, e1)
    else (enqueuedCount, e1).

(** A pending mutation addresses the row [recordId] of [table]. *)
Definition queued (table : MutationTable) (recordId : string)
    (q : gmap string MutationRecord) : Prop :=
  exists m, m ∈ getPendingMutations q /\ m_table m = table /\ m_recordId m = recordId.

(** The number of rows the store marks as not synced. *)
Definition unsyncedCount (d : Db) : nat :=
  (length (filter (fun p => lp_synced p = false) (toArray (db_products d)))
   + length (filter (fun s => ls_synced s = false) (toArray (db_sales d)))
   + length (filter (fun n => ln_synced n = false) (toArray (db_notifications d)))
   + length (filter (fun s => lt_synced s = false) (toArray (db_settings d))))%nat.

(** The next [n] identifiers [uuidv4] returns are distinct and not in
    the queue. *)
Definition freshUUIDs (env : Env) (w : World) (n : nat) : Prop :=
  forall j, (w_uuids w <= j < w_uuids w + n)%nat ->
    db_mutations (w_db w) !! uuidv4 env j = None /\
    forall k, (w_uuids w <= k < w_uuids w + n)%nat ->
      uuidv4 env j = uuidv4 env k -> j = k.

(** What the loops of [initializeSyncQueue] have done to the world [w0]
    they started from when they hold the state [st]: nothing has
    thrown, the queue has gained [enqueuedCount] pending rows under the
    identifiers drawn, and nothing else has changed. *)
Definition enqueuedFrom (env : Env) (w0 : World) (st : World * nat * bool) : Prop :=
  let '(w, n, thrown) := st in
  thrown = false /\
  (db_products (w_db w) = db_products (w_db w0) /\
   db_sales (w_db w) = db_sales (w_db w0) /\
   db_notifications (w_db w) = db_notifications (w_db w0) /\
   db_settings (w_db w) = db_settings (w_db w0) /\
   db_images (w_db w) = db_images (w_db w0) /\
   db_syncMeta (w_db w) = db_syncMeta (w_db w0) /\
   w_calls w = w_calls w0) /\
  w_uuids w = (w_uuids w0 + n)%nat /\
  w_clock w = (w_clock w0 + n)%nat /\
  db_mutations (w_db w0) ⊆ db_mutations (w_db w) /\
  size (db_mutations (w_db w)) = (size (db_mutations (w_db w0)) + n)%nat /\
  (forall k m, db_mutations (w_db w) !! k = Some m ->
     db_mutations (w_db w0) !! k = Some m \/
     (exists j, (j < n)%nat /\ k = uuidv4 env (w_uuids w0 + j) /\
                m_id m = k /\ m_status m = pending)).

(** Every row of the store [d] that is marked as not synced is
    addressed by a pending mutation of the queue [q]. *)
Definition unsyncedQueued (d : Db) (q : gmap string MutationRecord) : Prop :=
  (forall k p, db_products d !! k = Some p -> lp_synced p = false ->
     queued products (lp_id p) q) /\
  (forall k s, db_sales d !! k = Some s -> ls_synced s = false ->
     queued sales (ls_id s) q) /\
  (forall k n, db_notifications d !! k = Some n -> ln_synced n = false ->
     queued notifications (ln_id n) q) /\
  (forall k s, db_settings d !! k = Some s -> lt_synced s = false ->
     queued settings (lt_id s) q).

(** An offline session that has not been queued: a product and a sale
    of it in the store, the queue empty. *)
Definition unqueuedWorld : World :=
  mkWorld (mkDb {[lp_id offlineProduct := offlineProduct]}
                {[ls_id offlineSale := offlineSale]}
                ∅ ∅ ∅ ∅ None)
          0 0 [].

Definition unqueuedEngine : Engine := mkEngine unqueuedWorld false 0.

(** ** The cart ([Sales.tsx]) *)

Record CartItem := mkCartItem {
  ci_product : Product;
  ci_quantity : Z
}.

(** The cart a handler leaves ([setCart] called or not) and the message
    it alerts, if any. *)
Definition Handled : Type := list CartItem * option string.

(** [cart.find((item) => item.product.id === productId)] *)
Definition findItem (productId : string) (cart : list CartItem) : option CartItem :=
  List.find (fun item => bool_decide (p_id (ci_product item) = productId)) cart.

Definition set_ci_quantity (quantity : Z) (item : CartItem) : CartItem :=
  mkCartItem (ci_product item) quantity.

Definition addToCart (product : Product) (cart : list CartItem) : Handled :=
  if p_quantity product <=? 0 then (cart, Some "Product is out of stock!")
  else
    match findItem (p_id product) cart with
    | Some existingItem =>
        if ci_quantity existingItem >=? p_quantity product then
          (cart, Some "Cannot add more than available stock!")
        else
          (map (fun item =>
                  if bool_decide (p_id (ci_product item) = p_id product)
                  then set_ci_quantity (ci_quantity item + 1) item
                  else item) cart, None)
    | None => (cart ++ [mkCartItem product 1], None)
    end.

Definition removeFromCart (productId : string) (cart : list CartItem)
    : list CartItem :=
  List.filter (fun item => negb (bool_decide (p_id (ci_product item) = productId)))
              cart.

Definition updateQuantity (productId : string) (newQuantity : Z)
    (cart : list CartItem) : Handled :=
  match findItem productId cart with
  | None => (cart, None)
  | Some item =>
      if newQuantity <=? 0 then (removeFromCart productId cart, None)
      else if newQuantity >? p_quantity (ci_product item) then
        (cart, Some "Cannot exceed available stock!")
      else
        (map (fun item =>
                if bool_decide (p_id (ci_product item) = productId)
                then set_ci_quantity newQuantity item
                else item) cart, None)
  end.

(** The product identifiers of the lines of a cart. *)
Definition lines (cart : list CartItem) : list string :=
  map (fun item => p_id (ci_product item)) cart.

(** One line per product, each for at least one unit and for no more
    than the stock its copy of the product records. *)
Definition cartOk (cart : list CartItem) : Prop :=
  NoDup (lines cart) /\
  Forall (fun item => 1 <= ci_quantity item <= p_quantity (ci_product item)) cart.

Definition sampleCart : list CartItem := [mkCartItem hairCream 2].

(** ** Completing a sale ([completeSale], [Sales.tsx]) *)

(** [db.products.update(id, { quantity, updated_at, synced: false })]
    on the stored row. *)
Definition set_lp_sold (quantity : Z) (iso : string) (p : LocalProduct)
    : LocalProduct :=
  mkLocalProduct (lp_id p) (lp_name p) (lp_category p) (lp_buying_price p)
    (lp_selling_price p) quantity (lp_low_stock_level p) (lp_image_url p)
    (lp_image_id p) (lp_created_at p) iso false (lp_lastSyncedAt p).

(** The row added to [db.sales] for a line of the cart. *)
Definition saleOf (saleId saleDate : string) (item : CartItem) : LocalSale :=
  mkLocalSale saleId (Some (p_id (ci_product item))) (p_name (ci_product item))
    (ci_quantity item) (p_selling_price (ci_product item))
    (p_selling_price (ci_product item) * ci_quantity item)
    saleDate saleDate false None.

(** [saleRecord], the payload of the mutation that inserts the sale. *)
Definition saleRecord (saleId saleDate : string) (item : CartItem)
    : gmap string JsVal :=
  {["id" := JStr saleId;
    "product_id" := JStr (p_id (ci_product item));
    "product_name" := JStr (p_name (ci_product item));
    "quantity_sold" := JNum (ci_quantity item);
    "unit_price" := JNum (p_selling_price (ci_product item));
    "total_price" := JNum (p_selling_price (ci_product item) * ci_quantity item);
    "sale_date" := JStr saleDate;
    "created_at" := JStr saleDate;
    "synced" := JBool false]}.

(** One iteration of the loop over the cart.  [saleIdAt k] is the
    string [`sale_${Date.now()}_${Math.random().toString(36).substr(2, 9)}`]
    built at the [k]-th reading of the clock; the flag records that an
    [add] has rejected, which leaves the loop for the [catch]. *)
Definition sellItem (env : Env) (saleIdAt : nat -> string) (saleDate : string)
    (st : World * bool) (item : CartItem) : World * bool :=
  let '(w, thrown) := st in
  if thrown then st
  else
    let productId := p_id (ci_product item) in
    let newQuantity := p_quantity (ci_product item) - ci_quantity item in
    let w :=
      tick (with_db (with_products
        (alter (set_lp_sold newQuantity (toISOString_now env (w_clock w)))
               productId)) w) in
    let payload : gmap string JsVal :=
      {["quantity" := JNum newQuantity;
        "updated_at" := JStr (toISOString_now env (w_clock w))]} in
    let '(w, rejected) := enqueue env products UPDATE productId payload (tick w) in
    if rejected then (w, true)
    else
      let saleId := saleIdAt (w_clock w) in
      let w := tick w in
      match db_sales (w_db w) !! saleId with
      | Some _ => (w, true)
      | None =>
          let w := with_db (with_sales (insert saleId (saleOf saleId saleDate item)))
                           w in
          enqueue env sales INSERT saleId (saleRecord saleId saleDate item) w
      end.

(** The store, the cart and the message alerted, if any. *)
Definition completeSale (env : Env) (saleIdAt : nat -> string)
    (cart : list CartItem) (w : World) : World * list CartItem * option string :=
  if bool_decide (length cart = 0%nat) then (w, cart, Some "Cart is empty!")
  else
    let saleDate := toISOString_now env (w_clock w) in
    let '(w, thrown) := foldl (sellItem env saleIdAt saleDate) (tick w, false) cart in
    if thrown then (w, cart, Some "Error completing sale. Please try again.")
    else (w, [], None).

(** The identifier of the sale recorded for the [i]-th line of the
    cart by a [completeSale] that starts in the world [w0]: each
    iteration reads the clock five times, the fourth reading being the
    [Date.now()] of the identifier, after the one reading of
    [saleDate]. *)
Definition saleIdOf (saleIdAt : nat -> string) (w0 : World) (i : nat) : string :=
  saleIdAt (w_clock w0 + 5 * i + 4)%nat.

(** The time stamp written to the product of the [i]-th line. *)
Definition soldAt (env : Env) (w0 : World) (i : nat) : string :=
  toISOString_now env (w_clock w0 + 5 * i + 1)%nat.

(** The sale identifiers of the first [n] lines are distinct and not in
    the store. *)
Definition freshSaleIds (saleIdAt : nat -> string) (w0 : World) (n : nat) : Prop :=
  forall i, (i < n)%nat ->
    db_sales (w_db w0) !! saleIdOf saleIdAt w0 i = None /\
    forall j, (j < n)%nat ->
      saleIdOf saleIdAt w0 i = saleIdOf saleIdAt w0 j -> i = j.

(** Every product row is stored under its own [id]. *)
Definition products_well_keyed (t : gmap string LocalProduct) : Prop :=
  forall k p, t !! k = Some p -> lp_id p = k.

(** What the loop of [completeSale], started in [w0], has done when it
    has gone through the lines [seen] without a rejected [add]. *)
Definition soldFrom (env : Env) (saleIdAt : nat -> string) (saleDate : string)
    (w0 : World) (seen : list CartItem) (st : World * bool) : Prop :=
  let '(w, thrown) := st in
  let n := length seen in
  thrown = false /\
  (db_notifications (w_db w) = db_notifications (w_db w0) /\
   db_settings (w_db w) = db_settings (w_db w0) /\
   db_images (w_db w) = db_images (w_db w0) /\
   db_syncMeta (w_db w) = db_syncMeta (w_db w0) /\
   w_calls w = w_calls w0) /\
  w_clock w = (w_clock w0 + 1 + 5 * n)%nat /\
  w_uuids w = (w_uuids w0 + 2 * n)%nat /\
  (forall k, k ∉ lines seen ->
     db_products (w_db w) !! k = db_products (w_db w0) !! k) /\
  (forall i item, seen !! i = Some item ->
     db_products (w_db w) !! p_id (ci_product item) =
       set_lp_sold (p_quantity (ci_product item) - ci_quantity item)
                   (soldAt env w0 i)
         <$> db_products (w_db w0) !! p_id (ci_product item)) /\
  db_sales (w_db w0) ⊆ db_sales (w_db w) /\
  size (db_sales (w_db w)) = (size (db_sales (w_db w0)) + n)%nat /\
  (forall i item, seen !! i = Some item ->
     db_sales (w_db w) !! saleIdOf saleIdAt w0 i =
       Some (saleOf (saleIdOf saleIdAt w0 i) saleDate item)) /\
  (forall k s, db_sales (w_db w) !! k = Some s ->
     db_sales (w_db w0) !! k = Some s \/
     exists i, (i < n)%nat /\ k = saleIdOf saleIdAt w0 i) /\
  db_mutations (w_db w0) ⊆ db_mutations (w_db w) /\
  size (db_mutations (w_db w)) = (size (db_mutations (w_db w0)) + 2 * n)%nat /\
  (forall k m, db_mutations (w_db w) !! k = Some m ->
     db_mutations (w_db w0) !! k = Some m \/
     (exists j, (j < 2 * n)%nat /\ k = uuidv4 env (w_uuids w0 + j) /\
                m_id m = k /\ m_status m = pending)) /\
  (forall i item, seen !! i = Some item ->
     queued products (p_id (ci_product item)) (db_mutations (w_db w)) /\
     queued sales (saleIdOf saleIdAt w0 i) (db_mutations (w_db w))).

(** A shop with one product in stock, nothing sold and nothing queued. *)
Definition stockedWorld : World :=
  mkWorld (mkDb {[p_id hairCream :=
                    mkLocalProduct (p_id hairCream) "Hair Cream" "Hair" 20000 50000
                      10 7 None None "2024-01-01T08:00:00.000Z"
                      "2024-01-01T08:00:00.000Z" true
                      (Some "2024-01-02T09:00:00.000Z")]}
                ∅ ∅ ∅ ∅ ∅ None)
          0 0 [].

Definition sampleSaleIdAt (k : nat) : string := "sale_1704189600004_x7k2m9q1z".

(** A shop whose store already holds a sale under the identifier the
    next sale will draw. *)
Definition collidingWorld : World :=
  with_db (with_sales (insert "sale_1704189600004_x7k2m9q1z"
             (saleOf "sale_1704189600004_x7k2m9q1z" "2024-01-02T09:00:00.000Z"
                     (mkCartItem hairCream 1))))
          stockedWorld.

(** ** Sync metadata ([initializeSyncMeta], [db.ts]) *)

(** [new Date(0).toISOString()] *)
Definition epoch : string := "1970-01-01T00:00:00.000Z".

(** The object [initializeSyncMeta] returns: the stored row, or, when
    it has just created the row, an object without [lastSyncedAt]. *)
Record SyncMetaView := mkSyncMetaView {
  v_lastSyncedAt : option string;
  v_clientId : string;
  v_offlineMode : bool
}.

Definition initializeSyncMeta (clientId : string) (d : Db) : SyncMetaView * Db :=
  match db_syncMeta d with
  | Some existing =>
      (mkSyncMetaView (Some (sm_lastSyncedAt existing)) (sm_clientId existing)
                      (sm_offlineMode existing), d)
  | None =>
      (mkSyncMetaView None clientId false,
       with_syncMeta (fun _ => Some (mkSyncMetadata epoch clientId false)) d)
  end.

(** The iteration of the apply pass for [m] reaches no remote call: an
    UPDATE or DELETE of a record whose id still carries the placeholder
    prefix of its collection, or a mutation of the images table, for
    which the apply pass has no branch. *)
Definition notTransmitted (m : MutationRecord) : Prop :=
  m_table m = images \/
  (m_operation m <> INSERT /\
   exists prefix, placeholderPrefix (m_table m) = Some prefix /\
                  startsWith (m_recordId m) prefix = true).

(** A backend that enforces the reference from a sale to its product:
    it refuses the insert of a sale whose [product_id] is not the id of
    a product inserted before, and accepts every other write. *)
Definition foreignKeyViolation : PgError :=
  mkPgError (Some "23503")
            (Some "insert or update on table sales violates foreign key constraint").

Definition insertedProductIds (history : list RemoteCall) : list JsVal :=
  omap (fun c => match c with
                 | CallInsert products payload => payload !! "id"
                 | _ => None
                 end) history.

Definition strictBackend : Env :=
  mkEnv (toISOString_now shopBackend) (Date_now shopBackend) (uuidv4 shopBackend)
        (remapId shopBackend) (clientIdItem shopBackend)
        (selectProducts shopBackend) (selectSales shopBackend)
        (selectNotifications shopBackend) (selectSettings shopBackend)
        (fun history c =>
           match c with
           | CallInsert sales payload =>
               match payload !! "product_id" with
               | Some v => if bool_decide (v ∈ insertedProductIds history)
                           then ReplyOk else ReplyError foreignKeyViolation
               | None => ReplyOk
               end
           | _ => ReplyOk
           end)
        (String_ shopBackend)
        (syncImagesToSupabase shopBackend).

(** The offline session again, the sale queued after the product but
    under a UUID that sorts before the product's. *)
Definition earlySale : MutationRecord :=
  mkMutation "0f8fad5b-d9cb-469f-a165-70867728950e" "client_1704000000000_ab12cd34e"
             sales INSERT "sale_1704189100000"
             {["product_id" := JStr "local_1704189000000"; "quantity_sold" := JNum 10]}
             1704189100000 pending 0 None.

Definition saleFirstWorld : World :=
  mkWorld (mkDb {[lp_id offlineProduct := offlineProduct]}
                {[ls_id offlineSale := offlineSale]}
                ∅ ∅ ∅
                (<[m_id earlySale := earlySale]>
                   (<[m_id insertProduct := insertProduct]> ∅))
                None)
          0 0 [].

(** * Properties *)

(** ** The mutation queue *)

Section Queue.
Implicit Types (q : gmap string MutationRecord) (m : MutationRecord).

Lemma elem_of_toArray {A : Type} (t : gmap string A) (x : A) :
  x ∈ toArray t <-> exists k, t !! k = Some x.
Proof.
  unfold toArray. rewrite list_elem_of_fmap. split.
  - intros [[k y] [-> Hin]]. exists k.
    rewrite merge_sort_Permutation in Hin.
    by apply elem_of_map_to_list in Hin.
  - intros [k Hk]. exists (k, x). split; [done|].
    rewrite merge_sort_Permutation. by apply elem_of_map_to_list.
Qed.

Lemma elem_of_where_status s q m :
  m ∈ where_status s q <-> (exists k, q !! k = Some m) /\ m_status m = s.
Proof.
  unfold where_status.
  rewrite list_elem_of_filter, elem_of_toArray. tauto.
Qed.

Lemma markMutationFailed_lookup q mutationId error m :
  q !! mutationId = Some m ->
  markMutationFailed mutationId error q !! mutationId =
    Some (set_outcome (if maxRetries <=? m_retries m + 1 then failed else pending)
                      (m_retries m + 1) (Some error) m).
Proof.
  intros Hm. unfold markMutationFailed. rewrite Hm.
  by rewrite lookup_alter_eq, Hm.
Qed.

Lemma markMutationFailed_other q mutationId error k :
  k <> mutationId ->
  markMutationFailed mutationId error q !! k = q !! k.
Proof.
  intros Hk. unfold markMutationFailed.
  destruct (q !! mutationId); [|done]. by rewrite lookup_alter_ne.
Qed.
End Queue.

Section RetryBudget.
Implicit Types (q : gmap string MutationRecord) (m : MutationRecord).

Lemma failTimes_lookup n q mutationId error m :
  q !! mutationId = Some m ->
  failTimes n mutationId error q !! mutationId = Some (after_failures n error m).
Proof.
  intros Hm. induction n as [|n IH]; [done|].
  cbn [failTimes].
  rewrite (markMutationFailed_lookup _ _ _ _ IH).
  f_equal. destruct n as [|n]; cbn [after_failures].
  - done.
  - unfold set_outcome; cbn.
    replace (m_retries m + Z.of_nat (S n) + 1)
      with (m_retries m + Z.of_nat (S (S n))) by lia.
    done.
Qed.

Lemma failTimes_other n q mutationId error k :
  k <> mutationId ->
  failTimes n mutationId error q !! k = q !! k.
Proof.
  intros Hk. induction n as [|n IH]; [done|].
  cbn [failTimes]. by rewrite markMutationFailed_other.
Qed.

Lemma pending_only q m : m ∈ getPendingMutations q -> m_status m = pending.
Proof. unfold getPendingMutations. rewrite elem_of_where_status. tauto. Qed.

Lemma pending_stored q mutationId m :
  q !! mutationId = Some m -> m_status m = pending -> m ∈ getPendingMutations q.
Proof.
  intros Hm Hs. unfold getPendingMutations. rewrite elem_of_where_status. eauto.
Qed.
End RetryBudget.

(** C10. For a mutation in the queue, [retryFailedMutation] stores
    status ['pending'], retry count 0 and no last-error text under its
    id and changes no other row; the mutation is pending again, and it
    then takes five more failures, not fewer, to make it ['failed']. *)
Theorem retryFailedMutation_fresh_budget
    (q : gmap string MutationRecord) (mutationId : string) (m : MutationRecord) :
  q !! mutationId = Some m ->
  let q' := retryFailedMutation mutationId q in
  (exists m', q' !! mutationId = Some m' /\
     m_status m' = pending /\ m_retries m' = 0 /\ m_lastError m' = None /\
     m' = set_outcome pending 0 None m /\
     m' ∈ getPendingMutations q') /\
  (forall k, k <> mutationId -> q' !! k = q !! k) /\
  (forall error n m', (0 < n)%nat ->
     failTimes n mutationId error q' !! mutationId = Some m' ->
     m_retries m' = Z.of_nat n /\
     ((n < 5)%nat -> m_status m' = pending) /\
     ((5 <= n)%nat -> m_status m' = failed)).
Proof.
  intros Hm q'.
  assert (Hq' : q' !! mutationId = Some (set_outcome pending 0 None m)).
  { unfold q', retryFailedMutation. by rewrite lookup_alter_eq, Hm. }
  split; [|split].
  - exists (set_outcome pending 0 None m). repeat split; try done.
    by apply (pending_stored _ mutationId).
  - intros k Hk. unfold q', retryFailedMutation. by rewrite lookup_alter_ne.
  - intros error n m' Hn Hl.
    rewrite (failTimes_lookup n _ _ error _ Hq') in Hl.
    injection Hl as <-. destruct n as [|n]; [lia|].
    cbn [after_failures set_outcome m_retries m_status]. unfold maxRetries.
    repeat split.
    + intros Hlt. destruct (Z.leb_spec 5 (0 + Z.of_nat (S n))); [lia|done].
    + intros Hge. destruct (Z.leb_spec 5 (0 + Z.of_nat (S n))); [done|lia].
Qed.

Lemma retryFailedMutation_fresh_budget_witness :
  exhaustedQueue !! "m-2" = Some exhaustedMutation /\
  let q' := retryFailedMutation "m-2" exhaustedQueue in
  (exists m', q' !! "m-2" = Some m' /\
     m_status m' = pending /\ m_retries m' = 0 /\ m_lastError m' = None /\
     m' = set_outcome pending 0 None exhaustedMutation /\
     m' ∈ getPendingMutations q') /\
  (forall k, k <> "m-2" -> q' !! k = exhaustedQueue !! k) /\
  (forall error n m', (0 < n)%nat ->
     failTimes n "m-2" error q' !! "m-2" = Some m' ->
     m_retries m' = Z.of_nat n /\
     ((n < 5)%nat -> m_status m' = pending) /\
     ((5 <= n)%nat -> m_status m' = failed)).
Proof.
  split; [reflexivity|].
  apply (retryFailedMutation_fresh_budget exhaustedQueue "m-2" exhaustedMutation).
  reflexivity.
Defined.

(** ** Stock classification *)

(** C9, as the code decides it.  A product is 'Out of Stock' exactly
    when its quantity is 0, 'Low Stock' exactly when its quantity is
    not 0 and at most the low-stock level (a negative quantity
    included), and 'In Stock' exactly when its quantity is not 0 and
    above the level; 7 of 7 is low stock, 8 of 7 in stock, 0 out of
    stock. *)
Theorem getStockStatus_classes (product : Product) :
  (label (getStockStatus product) = "Out of Stock" <-> p_quantity product = 0) /\
  (label (getStockStatus product) = "Low Stock" <->
     p_quantity product <> 0 /\ p_quantity product <= p_low_stock_level product) /\
  (label (getStockStatus product) = "In Stock" <->
     p_quantity product <> 0 /\ p_low_stock_level product < p_quantity product) /\
  (forall name, label (getStockStatus
     (mkProduct "p" name "" 0 0 7 7 None "" "")) = "Low Stock") /\
  (forall name, label (getStockStatus
     (mkProduct "p" name "" 0 0 8 7 None "" "")) = "In Stock") /\
  (forall name level, label (getStockStatus
     (mkProduct "p" name "" 0 0 0 level None "" "")) = "Out of Stock").
Proof.
  unfold getStockStatus.
  split; [|split; [|split; [|done]]];
    destruct (Z.eqb_spec (p_quantity product) 0);
    destruct (Z.leb_spec (p_quantity product) (p_low_stock_level product));
    cbn; split; try done; try lia; intros [? ?]; lia.
Qed.

(** C9 as stated fails for a negative quantity: with quantity -1 and
    low-stock level 7 the product is classified 'Low Stock' although
    its quantity is not above 0. *)
Lemma getStockStatus_negative_quantity :
  let product := mkProduct "p-1" "Hair Cream" "" 20000 50000 (-1) 7 None "" "" in
  label (getStockStatus product) = "Low Stock" /\
  ~ (label (getStockStatus product) = "Low Stock" <->
       p_quantity product > 0 /\ p_quantity product <= p_low_stock_level product).
Proof.
  cbn. split; [reflexivity|]. intros [H _]. specialize (H eq_refl). lia.
Qed.

(** ** Pull *)

Lemma isRelationNotFound_spec (e : PgError) :
  isRelationNotFound e = true <-> relationNotFound e.
Proof.
  unfold isRelationNotFound, relationNotFound.
  rewrite orb_true_iff, bool_decide_eq_true.
  destruct (e_message e) as [message|]; split; intros [H|H]; eauto.
  - destruct H as (? & [= <-] & ?). by right.
  - done.
  - by destruct H as (? & ? & _).
Qed.

Lemma mergeRows_schema_not_ready {A : Type} (put : World -> A -> World)
    (e : PgError) (w : World) :
  relationNotFound e -> mergeRows put (SelectError e) w = (true, w).
Proof.
  intros He%isRelationNotFound_spec. unfold mergeRows. by rewrite He.
Qed.

(** C7. When the query of a collection answers with the
    relation-not-found condition (code PGRST205, or a message that
    contains 'Could not find the table'), the pull function of that
    collection returns [true] and leaves the local database as it was:
    no row is merged, changed or deleted.  This holds for each of the
    four pull functions. *)
Theorem pull_schema_not_ready (env : Env) (w : World) (e : PgError) :
  relationNotFound e ->
  (selectProducts env (w_calls w) = SelectError e ->
     (syncProductsFromSupabase env w).1 = true /\
     w_db (syncProductsFromSupabase env w).2 = w_db w) /\
  (selectSales env (w_calls w) = SelectError e ->
     (syncSalesFromSupabase env w).1 = true /\
     w_db (syncSalesFromSupabase env w).2 = w_db w) /\
  (selectNotifications env (w_calls w) = SelectError e ->
     (syncNotificationsFromSupabase env w).1 = true /\
     w_db (syncNotificationsFromSupabase env w).2 = w_db w) /\
  (selectSettings env (w_calls w) = SelectError e ->
     (syncSettingsFromSupabase env w).1 = true /\
     w_db (syncSettingsFromSupabase env w).2 = w_db w).
Proof.
  intros He.
  unfold syncProductsFromSupabase, syncSalesFromSupabase,
    syncNotificationsFromSupabase, syncSettingsFromSupabase.
  split; [|split; [|split]]; intros ->;
    by rewrite mergeRows_schema_not_ready.
Qed.

Section Upsert.
Context {A B : Type} (key : A -> string) (row : A -> B).

Lemma foldl_upsert_union (rows : list A) (t : gmap string B) :
  foldl (fun t r => <[key r := row r]> t) t rows =
  foldl (fun t r => <[key r := row r]> t) ∅ rows ∪ t.
Proof.
  revert t. induction rows as [|r rows IH]; intros t; cbn [foldl].
  - by rewrite (left_id_L ∅ (∪)).
  - rewrite IH, (IH (<[key r := row r]> ∅)).
    rewrite !(insert_union_singleton_l _ (key r)).
    by rewrite (right_id_L ∅ (∪)), (assoc_L (∪)).
Qed.

Lemma upserted_idem (result : SelectResult A) (t : gmap string B) :
  upserted key row result (upserted key row result t) = upserted key row result t.
Proof.
  destruct result as [| |rows]; cbn; try done.
  rewrite foldl_upsert_union, (foldl_upsert_union _ t).
  by rewrite (assoc_L (∪)), (idemp_L (∪)).
Qed.
End Upsert.

Lemma pulled_idem r (d : Db) : pulled r (pulled r d) = pulled r d.
Proof.
  destruct r as [[[rp rs] rn] rt]. unfold pulled; cbn.
  by rewrite !upserted_idem.
Qed.

(** What a merge loop leaves: the calls made, and the store with the
    stamps left out. *)
Lemma foldl_putProduct (env : Env) (rows : list Product) (w : World) :
  w_calls (foldl (putProduct env) w rows) = w_calls w /\
  unstamped (w_db (foldl (putProduct env) w rows)) =
    with_products (upserted p_id unstampedProduct (SelectData (Some rows)))
                  (unstamped (w_db w)).
Proof.
  revert w. induction rows as [|r rows IH]; intros w; cbn [foldl].
  - by destruct w as [[] ? ? ?].
  - destruct (IH (putProduct env w r)) as [-> ->].
    destruct w as [[] ? ? ?]. split; [done|].
    unfold unstamped, with_products, with_sales, upserted; cbn.
    by rewrite fmap_insert.
Qed.

Lemma foldl_putSale (env : Env) (rows : list Sale) (w : World) :
  w_calls (foldl (putSale env) w rows) = w_calls w /\
  unstamped (w_db (foldl (putSale env) w rows)) =
    with_sales (upserted s_id unstampedSale (SelectData (Some rows)))
               (unstamped (w_db w)).
Proof.
  revert w. induction rows as [|r rows IH]; intros w; cbn [foldl].
  - by destruct w as [[] ? ? ?].
  - destruct (IH (putSale env w r)) as [-> ->].
    destruct w as [[] ? ? ?]. split; [done|].
    unfold unstamped, with_products, with_sales, upserted; cbn.
    by rewrite fmap_insert.
Qed.

Lemma foldl_putNotification (rows : list Notification) (w : World) :
  w_calls (foldl putNotification w rows) = w_calls w /\
  unstamped (w_db (foldl putNotification w rows)) =
    with_notifications
      (upserted n_id localNotification (SelectData (Some rows)))
      (unstamped (w_db w)).
Proof.
  revert w. induction rows as [|r rows IH]; intros w; cbn [foldl].
  - by destruct w as [[] ? ? ?].
  - destruct (IH (putNotification w r)) as [-> ->].
    by destruct w as [[] ? ? ?].
Qed.

Lemma foldl_putSetting (rows : list Setting) (w : World) :
  w_calls (foldl putSetting w rows) = w_calls w /\
  unstamped (w_db (foldl putSetting w rows)) =
    with_settings (upserted t_id localSetting (SelectData (Some rows)))
                  (unstamped (w_db w)).
Proof.
  revert w. induction rows as [|r rows IH]; intros w; cbn [foldl].
  - by destruct w as [[] ? ? ?].
  - destruct (IH (putSetting w r)) as [-> ->].
    by destruct w as [[] ? ? ?].
Qed.

Lemma pullPhase_effect (env : Env) (w : World) :
  w_calls (pullPhase env w).2 =
    w_calls w ++ [CallSelect products; CallSelect sales;
                  CallSelect notifications; CallSelect settings] /\
  unstamped (w_db (pullPhase env w).2) =
    pulled (pullReplies env (w_calls w)) (unstamped (w_db w)).
Proof.
  unfold pullPhase, pullReplies, syncProductsFromSupabase, syncSalesFromSupabase,
    syncNotificationsFromSupabase, syncSettingsFromSupabase.
  set (c := w_calls w).
  assert (Hc : w_calls (call (CallSelect products) w) = c ++ [CallSelect products])
    by done.
  assert (Hd : unstamped (w_db (call (CallSelect products) w)) = unstamped (w_db w))
    by done.
  revert Hc Hd. generalize (call (CallSelect products) w). intros w1 Hc1 Hd1.
  (* products *)
  destruct (mergeRows (putProduct env) (selectProducts env c) w1) as [b1 w2] eqn:E1.
  assert (H2 : w_calls w2 = c ++ [CallSelect products] /\
               unstamped (w_db w2) =
                 with_products (upserted p_id unstampedProduct (selectProducts env c))
                               (unstamped (w_db w))).
  { unfold mergeRows in E1. destruct (selectProducts env c) as [|e|rows].
    - injection E1 as <- <-. rewrite Hc1, Hd1. by destruct w as [[] ? ? ?].
    - destruct (isRelationNotFound e); injection E1 as <- <-;
        rewrite Hc1, Hd1; by destruct w as [[] ? ? ?].
    - injection E1 as <- <-.
      destruct (foldl_putProduct env (default [] rows) w1) as [-> ->].
      rewrite Hc1, Hd1. by destruct rows. }
  destruct H2 as [Hc2 Hd2]. rewrite Hc2.
  (* sales *)
  destruct (mergeRows (putSale env) (selectSales env (c ++ [CallSelect products]))
              (call (CallSelect sales) w2)) as [b2 w3] eqn:E2.
  assert (H3 : w_calls w3 = c ++ [CallSelect products; CallSelect sales] /\
               unstamped (w_db w3) =
                 with_sales (upserted s_id unstampedSale
                               (selectSales env (c ++ [CallSelect products])))
                            (unstamped (w_db w2))).
  { assert (Hc' : w_calls (call (CallSelect sales) w2) =
                    c ++ [CallSelect products; CallSelect sales]).
    { cbn. rewrite Hc2. by rewrite <- app_assoc. }
    assert (Hd' : unstamped (w_db (call (CallSelect sales) w2)) = unstamped (w_db w2))
      by done.
    revert E2 Hc' Hd'. generalize (call (CallSelect sales) w2). intros w' E2 Hc' Hd'.
    unfold mergeRows in E2.
    destruct (selectSales env (c ++ [CallSelect products])) as [|e|rows].
    - injection E2 as <- <-. rewrite Hc', Hd'. by destruct w2 as [[] ? ? ?].
    - destruct (isRelationNotFound e); injection E2 as <- <-;
        rewrite Hc', Hd'; by destruct w2 as [[] ? ? ?].
    - injection E2 as <- <-.
      destruct (foldl_putSale env (default [] rows) w') as [-> ->].
      rewrite Hc', Hd'. by destruct rows. }
  destruct H3 as [Hc3 Hd3]. rewrite Hc3.
  (* notifications *)
  destruct (mergeRows putNotification
              (selectNotifications env (c ++ [CallSelect products; CallSelect sales]))
              (call (CallSelect notifications) w3)) as [b3 w4] eqn:E3.
  assert (H4 : w_calls w4 =
                 c ++ [CallSelect products; CallSelect sales; CallSelect notifications] /\
               unstamped (w_db w4) =
                 with_notifications
                   (upserted n_id localNotification
                      (selectNotifications env
                         (c ++ [CallSelect products; CallSelect sales])))
                   (unstamped (w_db w3))).
  { assert (Hc' : w_calls (call (CallSelect notifications) w3) =
                    c ++ [CallSelect products; CallSelect sales;
                          CallSelect notifications]).
    { cbn. rewrite Hc3. by rewrite <- app_assoc. }
    assert (Hd' : unstamped (w_db (call (CallSelect notifications) w3)) =
                  unstamped (w_db w3)) by done.
    revert E3 Hc' Hd'. generalize (call (CallSelect notifications) w3).
    intros w' E3 Hc' Hd'. unfold mergeRows in E3.
    destruct (selectNotifications env _) as [|e|rows].
    - injection E3 as <- <-. rewrite Hc', Hd'. by destruct w3 as [[] ? ? ?].
    - destruct (isRelationNotFound e); injection E3 as <- <-;
        rewrite Hc', Hd'; by destruct w3 as [[] ? ? ?].
    - injection E3 as <- <-.
      destruct (foldl_putNotification (default [] rows) w') as [-> ->].
      rewrite Hc', Hd'. by destruct rows. }
  destruct H4 as [Hc4 Hd4]. rewrite Hc4.
  (* settings *)
  destruct (mergeRows putSetting
              (selectSettings env
                 (c ++ [CallSelect products; CallSelect sales;
                        CallSelect notifications]))
              (call (CallSelect settings) w4)) as [b4 w5] eqn:E4.
  cbn [snd].
  assert (Hc' : w_calls (call (CallSelect settings) w4) =
                  c ++ [CallSelect products; CallSelect sales;
                        CallSelect notifications; CallSelect settings]).
  { cbn. rewrite Hc4. by rewrite <- app_assoc. }
  assert (Hd' : unstamped (w_db (call (CallSelect settings) w4)) =
                unstamped (w_db w4)) by done.
  revert E4 Hc' Hd'. generalize (call (CallSelect settings) w4).
  intros w' E4 Hc' Hd'. unfold mergeRows in E4.
  assert (H5 : w_calls w5 =
                 c ++ [CallSelect products; CallSelect sales;
                       CallSelect notifications; CallSelect settings] /\
               unstamped (w_db w5) =
                 with_settings
                   (upserted t_id localSetting
                      (selectSettings env
                         (c ++ [CallSelect products; CallSelect sales;
                                CallSelect notifications])))
                   (unstamped (w_db w4))).
  { destruct (selectSettings env _) as [|e|rows].
    - injection E4 as <- <-. rewrite Hc', Hd'. by destruct w4 as [[] ? ? ?].
    - destruct (isRelationNotFound e); injection E4 as <- <-;
        rewrite Hc', Hd'; by destruct w4 as [[] ? ? ?].
    - injection E4 as <- <-.
      destruct (foldl_putSetting (default [] rows) w') as [-> ->].
      rewrite Hc', Hd'. by destruct rows. }
  destruct H5 as [-> ->]. split; [done|].
  rewrite Hd4, Hd3, Hd2. by destruct w as [[] ? ? ?].
Qed.

Lemma pull_schema_not_ready_witness :
  relationNotFound missingTable /\
  ((syncProductsFromSupabase bareBackend emptyWorld).1 = true /\
   w_db (syncProductsFromSupabase bareBackend emptyWorld).2 = w_db emptyWorld) /\
  ((syncSalesFromSupabase bareBackend emptyWorld).1 = true /\
   w_db (syncSalesFromSupabase bareBackend emptyWorld).2 = w_db emptyWorld) /\
  ((syncNotificationsFromSupabase bareBackend emptyWorld).1 = true /\
   w_db (syncNotificationsFromSupabase bareBackend emptyWorld).2 = w_db emptyWorld) /\
  ((syncSettingsFromSupabase bareBackend emptyWorld).1 = true /\
   w_db (syncSettingsFromSupabase bareBackend emptyWorld).2 = w_db emptyWorld).
Proof.
  assert (He : relationNotFound missingTable) by (left; reflexivity).
  split; [exact He|].
  destruct (pull_schema_not_ready bareBackend emptyWorld missingTable He)
    as (Hp & Hs & Hn & Ht).
  repeat split;
    first [apply Hp | apply Hs | apply Hn | apply Ht]; reflexivity.
Defined.

(** C6, as the code behaves.  When the four queries of a second pull
    phase return what they returned in the first, the local store after
    the second phase equals the store after the first in every field of
    every record except [lastSyncedAt]; the notifications, settings,
    images, mutations and sync-metadata tables are equal outright. *)
Theorem pull_twice_equal_up_to_stamps (env : Env) (w : World) :
  let w1 := (pullPhase env w).2 in
  let w2 := (pullPhase env w1).2 in
  pullReplies env (w_calls w1) = pullReplies env (w_calls w) ->
  unstamped (w_db w2) = unstamped (w_db w1) /\
  db_notifications (w_db w2) = db_notifications (w_db w1) /\
  db_settings (w_db w2) = db_settings (w_db w1) /\
  db_images (w_db w2) = db_images (w_db w1) /\
  db_mutations (w_db w2) = db_mutations (w_db w1) /\
  db_syncMeta (w_db w2) = db_syncMeta (w_db w1).
Proof.
  intros w1 w2 Hsame.
  assert (H : unstamped (w_db w2) = unstamped (w_db w1)).
  { unfold w2. rewrite (proj2 (pullPhase_effect env w1)), Hsame.
    unfold w1. rewrite (proj2 (pullPhase_effect env w)).
    apply pulled_idem. }
  split; [exact H|].
  unfold unstamped in H.
  destruct (w_db w2), (w_db w1); cbn in *. by injection H as _ _ -> -> -> -> ->.
Qed.

Lemma pull_twice_equal_up_to_stamps_witness :
  let w1 := (pullPhase shopBackend emptyWorld).2 in
  let w2 := (pullPhase shopBackend w1).2 in
  pullReplies shopBackend (w_calls w1) = pullReplies shopBackend (w_calls emptyWorld) /\
  unstamped (w_db w2) = unstamped (w_db w1) /\
  db_notifications (w_db w2) = db_notifications (w_db w1) /\
  db_settings (w_db w2) = db_settings (w_db w1) /\
  db_images (w_db w2) = db_images (w_db w1) /\
  db_mutations (w_db w2) = db_mutations (w_db w1) /\
  db_syncMeta (w_db w2) = db_syncMeta (w_db w1).
Proof.
  split; [reflexivity|].
  apply (pull_twice_equal_up_to_stamps shopBackend emptyWorld). reflexivity.
Defined.

(** C6 as stated fails: with one remote product that does not change,
    the second pull phase stamps the product's [lastSyncedAt] with the
    later clock reading, so the local store differs from the store
    after the first phase. *)
Lemma pull_twice_restamps :
  let w1 := (pullPhase shopBackend emptyWorld).2 in
  let w2 := (pullPhase shopBackend w1).2 in
  pullReplies shopBackend (w_calls w1) = pullReplies shopBackend (w_calls emptyWorld) /\
  lp_lastSyncedAt <$> db_products (w_db w1) !! p_id hairCream =
    Some (Some "2024-01-02T10:00:00.000Z") /\
  lp_lastSyncedAt <$> db_products (w_db w2) !! p_id hairCream =
    Some (Some "2024-01-02T10:01:00.000Z") /\
  w_db w2 <> w_db w1.
Proof.
  cbn zeta.
  assert (H1 : lp_lastSyncedAt <$>
           db_products (w_db (pullPhase shopBackend emptyWorld).2) !! p_id hairCream =
           Some (Some "2024-01-02T10:00:00.000Z")) by (vm_compute; reflexivity).
  assert (H2 : lp_lastSyncedAt <$>
           db_products (w_db (pullPhase shopBackend
                               (pullPhase shopBackend emptyWorld).2).2) !! p_id hairCream =
           Some (Some "2024-01-02T10:01:00.000Z")) by (vm_compute; reflexivity).
  split; [reflexivity|]. split; [exact H1|]. split; [exact H2|].
  intros Heq. rewrite Heq in H2. rewrite H1 in H2. discriminate H2.
Qed.

(** ** The sync orchestrator *)

Lemma enter_dropped (e : Engine) (now : Z) :
  syncInProgress e = true \/ now - lastSyncAttempt e < SYNC_DEBOUNCE_MS ->
  enter now e = None.
Proof.
  intros H. unfold enter.
  destruct (Z.ltb_spec (now - lastSyncAttempt e) SYNC_DEBOUNCE_MS); [done|].
  destruct H as [-> | H]; [done | lia].
Qed.

Lemma enter_admitted (e : Engine) (now : Z) :
  enter now e <> None ->
  enter now e = Some (mkEngine (world e) true now).
Proof.
  unfold enter.
  destruct (now - lastSyncAttempt e <? SYNC_DEBOUNCE_MS); [done|].
  by destruct (syncInProgress e).
Qed.

Lemma settle_engine (env : Env) (e : Engine) :
  syncInProgress (settle env e).2 = false /\
  lastSyncAttempt (settle env e).2 = lastSyncAttempt e.
Proof. unfold settle. by destruct (fullSyncBody env (world e)). Qed.

(** ** Push *)

Lemma pushPendingMutations_nothing_pending (env : Env) (w : World) :
  getPendingMutations (db_mutations (w_db w)) = [] ->
  pushPendingMutations env w = (mkPushResult true ∅, w).
Proof. intros H. unfold pushPendingMutations. by rewrite H. Qed.

Lemma pushPendingMutations_aborted (env : Env) (w : World) :
  getPendingMutations (db_mutations (w_db w)) <> [] ->
  preflightAborts (reply env (w_calls w) (CallHead products)) = true ->
  pushPendingMutations env w = (mkPushResult false ∅, call (CallHead products) w).
Proof.
  intros Hne Hab. unfold pushPendingMutations.
  rewrite bool_decide_eq_false_2, Hab; [done|].
  by destruct (getPendingMutations _).
Qed.

Lemma pushPendingMutations_phases (env : Env) (w : World) :
  getPendingMutations (db_mutations (w_db w)) <> [] ->
  preflightPasses env w ->
  pushPendingMutations env w =
    afterApply (applyPass env (beforeApply env w).2
                  (mkPush (beforeApply env w).1.1 (beforeApply env w).1.2 0 0)).
Proof.
  intros Hne Hpass. unfold pushPendingMutations, beforeApply, afterApply.
  unfold preflightPasses in Hpass.
  rewrite bool_decide_eq_false_2, Hpass; [|by destruct (getPendingMutations _)].
  destruct (premapPass _ _ _) as [w1 ids1].
  by destruct (rewritePass _ _ _) as [w2 ms].
Qed.

(** C5. When the queue holds pending mutations, so that the preflight
    check on the remote products collection is made, and the check
    reports the relation-not-found condition or throws, then
    [pushPendingMutations] returns [success = false] with an empty id
    mapping, makes no remote call besides the check, and leaves the
    local database, in particular every queued mutation with its
    status, retry count and payload, as it was. *)
Theorem push_preflight_abort (env : Env) (w : World) :
  getPendingMutations (db_mutations (w_db w)) <> [] ->
  (reply env (w_calls w) (CallHead products) = ReplyThrows \/
   exists e, reply env (w_calls w) (CallHead products) = ReplyError e /\
             relationNotFound e) ->
  let r := pushPendingMutations env w in
  success r.1 = false /\
  idMappings r.1 = ∅ /\
  w_db r.2 = w_db w /\
  (forall k, db_mutations (w_db r.2) !! k = db_mutations (w_db w) !! k) /\
  w_calls r.2 = w_calls w ++ [CallHead products].
Proof.
  intros Hne Hrep r. unfold r.
  rewrite pushPendingMutations_aborted; [done|done|].
  destruct Hrep as [-> | (e & -> & He)]; [done|].
  by apply isRelationNotFound_spec.
Qed.

Ltac push_unfold :=
  unfold applyMutation, tryBody, skip, completed, transmit, rekeyProduct, rekeySale,
    rekeyNotification, rekeySetting, rekey, stampProduct, stampSale, freshUUID,
    record_mapping, count_synced, count_failed, in_queue, in_world, with_db,
    with_mutations, with_products, with_sales, with_notifications, with_settings,
    call, tick, draw in *.

Ltac push_cases := repeat (case_match; simplify_eq/=).

Lemma String_leb_trans (s1 s2 s3 : string) :
  String.leb s1 s2 = true -> String.leb s2 s3 = true -> String.leb s1 s3 = true.
Proof.
  unfold String.leb. revert s2 s3.
  induction s1 as [|c1 s1 IH]; intros [|c2 s2] [|c3 s3]; cbn; try done.
  unfold Ascii.compare.
  destruct (N.compare_spec (Ascii.N_of_ascii c1) (Ascii.N_of_ascii c2));
    destruct (N.compare_spec (Ascii.N_of_ascii c2) (Ascii.N_of_ascii c3));
    destruct (N.compare_spec (Ascii.N_of_ascii c1) (Ascii.N_of_ascii c3));
    try done; try lia.
  apply IH.
Qed.

Global Instance by_primary_key_trans {A : Type} : Transitive (@by_primary_key A).
Proof. intros x y z. apply String_leb_trans. Qed.

Global Instance by_primary_key_total {A : Type} : Total (@by_primary_key A).
Proof. intros x y. apply String.leb_total. Qed.

Lemma StronglySorted_filter_list {A : Type} (R : relation A) (P : A -> Prop)
    `{!forall x, Decision (P x)} (l : list A) :
  StronglySorted R l -> StronglySorted R (filter P l).
Proof.
  induction 1 as [|x l Hs IH Hall]; [constructor|].
  rewrite filter_cons. case_decide; [|done].
  constructor; [done|].
  rewrite Forall_forall in Hall |- *. intros y Hy%list_elem_of_filter.
  apply Hall. tauto.
Qed.

Lemma toArray_sorted (q : gmap string MutationRecord) :
  well_keyed q -> StronglySorted idOrder (toArray q).
Proof.
  intros Hk. unfold toArray.
  assert (Hall : Forall (fun kv => m_id kv.2 = kv.1)
                   (merge_sort by_primary_key (map_to_list q))).
  { rewrite Forall_forall. intros [k m] Hin.
    rewrite merge_sort_Permutation in Hin.
    apply elem_of_map_to_list in Hin. by apply Hk. }
  pose proof (StronglySorted_merge_sort
                (@by_primary_key MutationRecord) (map_to_list q)) as Hs.
  revert Hall. induction Hs as [|[k m] l Hs IH Hhd]; intros Hall; [constructor|].
  inversion Hall as [|? ? Hm Hl]; subst. cbn in *.
  constructor; [by apply IH|].
  rewrite Forall_fmap, Forall_forall. intros [k' m'] Hin.
  rewrite Forall_forall in Hhd, Hl. specialize (Hhd _ Hin). specialize (Hl _ Hin).
  unfold idOrder, by_primary_key in *. cbn in *. by rewrite Hm, Hl.
Qed.

Lemma toArray_ids {A : Type} (key : A -> string) (q : gmap string A) :
  (forall k x, q !! k = Some x -> key x = k) ->
  NoDup (key <$> toArray q).
Proof.
  intros Hk. unfold toArray.
  assert (Heq : key <$> (merge_sort by_primary_key (map_to_list q)).*2 =
                (merge_sort by_primary_key (map_to_list q)).*1).
  { rewrite <- list_fmap_compose. apply list_fmap_ext.
    intros i [k x] Hin. cbn. apply Hk.
    apply elem_of_map_to_list. rewrite <- (merge_sort_Permutation by_primary_key).
    by eapply list_elem_of_lookup_2. }
  rewrite Heq, merge_sort_Permutation. apply NoDup_fst_map_to_list.
Qed.

Lemma getPendingMutations_sorted (q : gmap string MutationRecord) :
  well_keyed q -> StronglySorted idOrder (getPendingMutations q).
Proof.
  intros Hk. unfold getPendingMutations, where_status.
  by apply StronglySorted_filter_list, toArray_sorted.
Qed.

Lemma getPendingMutations_ids (q : gmap string MutationRecord) :
  well_keyed q -> NoDup (m_id <$> getPendingMutations q).
Proof.
  intros Hk. unfold getPendingMutations, where_status.
  eapply sublist_NoDup; [by apply (toArray_ids m_id q)|].
  apply fmap_sublist, sublist_filter.
Qed.

Lemma getPendingMutations_spec (q : gmap string MutationRecord) (m : MutationRecord) :
  well_keyed q ->
  m ∈ getPendingMutations q <-> q !! m_id m = Some m /\ m_status m = pending.
Proof.
  intros Hk. unfold getPendingMutations. rewrite elem_of_where_status.
  split.
  - intros [[k Hm] Hs]. by rewrite (Hk _ _ Hm).
  - intros [Hm Hs]. split; [by exists (m_id m)|done].
Qed.

(** *** STEP 1 and STEP 2 *)

Lemma premapProduct_cases (env : Env) (w : World) (ids : gmap string string)
    (m : MutationRecord) :
  (m_table m = products /\ m_operation m = INSERT /\
   startsWith (m_recordId m) "local_" = true /\
   premapProduct env (w, ids) m =
     (draw w, <[m_recordId m := uuidv4 env (w_uuids w)]> ids)) \/
  (~ (m_table m = products /\ m_operation m = INSERT /\
      startsWith (m_recordId m) "local_" = true) /\
   premapProduct env (w, ids) m = (w, ids)).
Proof.
  unfold premapProduct.
  destruct (decide (m_table m = products)) as [Ht|Ht];
    destruct (decide (m_operation m = INSERT)) as [Ho|Ho];
    destruct (startsWith (m_recordId m) "local_") eqn:Hp;
    rewrite ?(bool_decide_eq_true_2 _ Ht), ?(bool_decide_eq_false_2 _ Ht),
      ?(bool_decide_eq_true_2 _ Ho), ?(bool_decide_eq_false_2 _ Ho); cbn;
    first [by left | right; split; [|done]; intros (? & ? & ?); congruence].
Qed.

Lemma premap_invariant (env : Env) (ms : list MutationRecord) (w : World)
    (ids : gmap string string) :
  let r := foldl (premapProduct env) (w, ids) ms in
  w_db r.1 = w_db w /\ w_calls r.1 = w_calls w /\ w_clock r.1 = w_clock w /\
  (w_uuids w <= w_uuids r.1)%nat /\
  (forall key v, ids !! key = Some v ->
     exists v', r.2 !! key = Some v' /\
                (v' = v \/ drawnIn env (w_uuids w) (w_uuids r.1) v')) /\
  (forall key, ids !! key = None -> startsWith key "local_" = false ->
     r.2 !! key = None) /\
  (forall m, m ∈ ms -> m_table m = products -> m_operation m = INSERT ->
     startsWith (m_recordId m) "local_" = true ->
     exists v', r.2 !! m_recordId m = Some v' /\
                drawnIn env (w_uuids w) (w_uuids r.1) v').
Proof.
  revert w ids. induction ms as [|m0 ms IH]; intros w ids; cbn [foldl].
  - cbn. repeat split; try done; try lia.
    + intros key v Hv. exists v. eauto.
    + intros m Hm. by apply elem_of_nil in Hm.
  - destruct (premapProduct_cases env w ids m0)
      as [(Ht & Ho & Hp & ->) | (Hno & ->)].
    + specialize (IH (draw w) (<[m_recordId m0 := uuidv4 env (w_uuids w)]> ids)).
      cbn zeta in *. destruct IH as (Hdb & Hc & Hk & Hu & Hkeep & Hnone & Hall).
      cbn [draw w_db w_calls w_clock w_uuids] in *.
      assert (Hwiden : forall v',
        drawnIn env (S (w_uuids w))
                (w_uuids (foldl (premapProduct env)
                   (draw w, <[m_recordId m0 := uuidv4 env (w_uuids w)]> ids) ms).1) v' ->
        drawnIn env (w_uuids w)
                (w_uuids (foldl (premapProduct env)
                   (draw w, <[m_recordId m0 := uuidv4 env (w_uuids w)]> ids) ms).1) v').
      { intros v' (k & Hr & ->). exists k. split; [cbn in *; lia|done]. }
      assert (Hnew : exists v',
        (foldl (premapProduct env)
           (draw w, <[m_recordId m0 := uuidv4 env (w_uuids w)]> ids) ms).2
          !! m_recordId m0 = Some v' /\
        drawnIn env (w_uuids w)
                (w_uuids (foldl (premapProduct env)
                   (draw w, <[m_recordId m0 := uuidv4 env (w_uuids w)]> ids) ms).1) v').
      { destruct (Hkeep (m_recordId m0) (uuidv4 env (w_uuids w)))
          as (v' & Hv' & Hor); [by rewrite lookup_insert_eq|].
        exists v'. split; [done|]. destruct Hor as [-> | Hd]; [|by apply Hwiden].
        exists (w_uuids w). split; [cbn in *; lia|done]. }
      repeat split; try done; try (cbn in *; lia).
      * intros key v Hv. destruct (decide (key = m_recordId m0)) as [->|Hne].
        -- destruct Hnew as (v' & Hv' & Hd). exists v'. eauto.
        -- destruct (Hkeep key v) as (v' & Hv' & Hor);
             [by rewrite lookup_insert_ne|].
           exists v'. split; [done|]. destruct Hor; [by left|right; by apply Hwiden].
      * intros key Hn Hpre. apply Hnone; [|done].
        rewrite lookup_insert_ne; [done|]. intros <-. congruence.
      * intros m [->|Hin]%elem_of_cons Htm Hom Hpm; [done|].
        destruct (Hall m Hin Htm Hom Hpm) as (v' & Hv' & Hd).
        exists v'. split; [done|by apply Hwiden].
    + specialize (IH w ids). cbn zeta in *.
      destruct IH as (Hdb & Hc & Hk & Hu & Hkeep & Hnone & Hall).
      repeat split; try done.
      intros m [->|Hin]%elem_of_cons Htm Hom Hpm; [|by apply Hall].
      exfalso. by apply Hno.
Qed.

Lemma rewriteSaleMutation_cases (ids : gmap string string) (w : World)
    (seen : list MutationRecord) (m : MutationRecord) :
  exists w' m',
    rewriteSaleMutation ids (w, seen) m = (w', seen ++ [m']) /\
    sameButPayload m m' /\
    db_mutations (w_db w') = db_mutations (w_db w) /\
    db_products (w_db w') = db_products (w_db w) /\
    w_calls w' = w_calls w /\ w_uuids w' = w_uuids w /\ w_clock w' = w_clock w.
Proof.
  unfold rewriteSaleMutation, sameButPayload.
  destruct w as [[] ? ? ?], m. cbn.
  push_cases; eexists _, _; (split; [reflexivity|]); by cbn.
Qed.

Lemma rewrite_invariant (ids : gmap string string) (ms seen : list MutationRecord)
    (w : World) :
  exists w' ms',
    foldl (rewriteSaleMutation ids) (w, seen) ms = (w', seen ++ ms') /\
    Forall2 sameButPayload ms ms' /\
    db_mutations (w_db w') = db_mutations (w_db w) /\
    db_products (w_db w') = db_products (w_db w) /\
    w_calls w' = w_calls w /\ w_uuids w' = w_uuids w /\ w_clock w' = w_clock w.
Proof.
  revert w seen. induction ms as [|m ms IH]; intros w seen; cbn [foldl].
  - exists w, []. rewrite app_nil_r. by repeat split.
  - destruct (rewriteSaleMutation_cases ids w seen m)
      as (w1 & m' & -> & Hm & Hq1 & Hp1 & Hc1 & Hu1 & Hk1).
    destruct (IH w1 (seen ++ [m'])) as (w' & ms' & -> & Hms & Hq & Hp & Hc & Hu & Hk).
    exists w', (m' :: ms'). rewrite <- app_assoc. cbn.
    split; [done|]. split; [by constructor|].
    repeat split; congruence.
Qed.

(** The state the apply pass starts from: nothing but the preflight
    check has been transmitted, the queue is untouched, the array holds
    the pending mutations in the order [getPendingMutations] returned
    them, and the table holds the UUIDs drawn in STEP 1. *)
Lemma beforeApply_spec (env : Env) (w : World) :
  let mutations := getPendingMutations (db_mutations (w_db w)) in
  let pre := premapPass env mutations (call (CallHead products) w) in
  (beforeApply env w).1.2 = pre.2 /\
  Forall2 sameButPayload mutations (beforeApply env w).2 /\
  db_mutations (w_db (beforeApply env w).1.1) = db_mutations (w_db w) /\
  db_products (w_db (beforeApply env w).1.1) = db_products (w_db w) /\
  w_calls (beforeApply env w).1.1 = w_calls w ++ [CallHead products] /\
  w_db pre.1 = w_db w /\ w_calls pre.1 = w_calls w ++ [CallHead products].
Proof.
  intros mutations pre. unfold beforeApply. fold mutations. fold pre.
  destruct (premap_invariant env mutations (call (CallHead products) w) ∅)
    as (Hdb & Hc & _). unfold premapPass in pre. fold pre in Hdb, Hc.
  destruct pre as [w1 ids1] eqn:Hpre. cbn [fst snd] in *.
  unfold rewritePass.
  destruct (rewrite_invariant ids1 mutations [] w1)
    as (w2 & ms' & -> & Hms & Hq & Hp & Hc2 & _).
  cbn [fst snd app]. rewrite Hq, Hp, Hc2, Hdb, Hc. by cbn.
Qed.

(** *** STEP 3 *)

Lemma applyMutation_queue (env : Env) (st : PushState) (m : MutationRecord) :
  queueOf (applyMutation env st m) = markMutationSynced (m_id m) (queueOf st) \/
  exists e,
    queueOf (applyMutation env st m) = markMutationFailed (m_id m) e (queueOf st).
Proof.
  unfold queueOf. destruct st as [[[] ? ? ?] ? ? ?].
  push_unfold. cbn. push_cases; eauto.
Qed.

Lemma applyMutation_other (env : Env) (st : PushState) (m : MutationRecord)
    (k : string) :
  k <> m_id m -> queueOf (applyMutation env st m) !! k = queueOf st !! k.
Proof.
  intros Hk. destruct (applyMutation_queue env st m) as [-> | [e ->]].
  - unfold markMutationSynced. by rewrite lookup_alter_ne.
  - by apply markMutationFailed_other.
Qed.

Lemma applyPass_other (env : Env) (ms : list MutationRecord) (st : PushState)
    (k : string) :
  k ∉ (m_id <$> ms) -> queueOf (applyPass env ms st) !! k = queueOf st !! k.
Proof.
  revert st. induction ms as [|m ms IH]; intros st Hk; [done|].
  cbn in Hk. apply not_elem_of_cons in Hk as [Hne Hk].
  unfold applyPass in *. cbn [foldl]. rewrite IH; [|done].
  by apply applyMutation_other.
Qed.

Lemma skip_step (env : Env) (st : PushState) (m : MutationRecord) (prefix : string) :
  m_operation m = UPDATE \/ m_operation m = DELETE ->
  placeholderPrefix (m_table m) = Some prefix ->
  startsWith (m_recordId m) prefix = true ->
  applyMutation env st m = count_synced (in_queue (markMutationSynced (m_id m)) st).
Proof.
  intros Ho Ht Hp. unfold applyMutation, tryBody.
  destruct (m_table m); cbn in Ht; simplify_eq;
    destruct Ho as [-> | ->]; by rewrite Hp.
Qed.

Lemma sameButPayload_fields (a b : MutationRecord) :
  sameButPayload a b ->
  m_id b = m_id a /\ m_table b = m_table a /\ m_operation b = m_operation a /\
  m_recordId b = m_recordId a.
Proof. unfold sameButPayload. by intros ->. Qed.

Lemma sameButPayload_ids (l l' : list MutationRecord) :
  Forall2 sameButPayload l l' -> m_id <$> l' = m_id <$> l.
Proof.
  induction 1 as [|a b l l' Hab _ IH]; [done|].
  cbn. f_equal; [|done]. by apply sameButPayload_fields.
Qed.

Lemma clearSyncedMutations_synced (q : gmap string MutationRecord) (k : string)
    (r : MutationRecord) :
  q !! k = Some r -> m_status r = synced -> clearSyncedMutations q !! k = None.
Proof.
  intros Hr Hs. unfold clearSyncedMutations.
  apply map_lookup_filter_None. right. intros r' Hr'. cbn. simplify_eq. tauto.
Qed.

Lemma clearSyncedMutations_kept (q : gmap string MutationRecord) (k : string)
    (r : MutationRecord) :
  q !! k = Some r -> m_status r <> synced -> clearSyncedMutations q !! k = Some r.
Proof.
  intros Hr Hs. unfold clearSyncedMutations. by apply map_lookup_filter_Some.
Qed.

(** Where the apply pass meets a pending mutation: the array splits
    around its (possibly rewritten) copy, and no other element has its
    id. *)
Lemma apply_order_split (env : Env) (w : World) (m : MutationRecord) :
  well_keyed (db_mutations (w_db w)) ->
  m ∈ getPendingMutations (db_mutations (w_db w)) ->
  exists l1 m' l2,
    (beforeApply env w).2 = l1 ++ (m' :: l2) /\ sameButPayload m m' /\
    (m_id m ∉ (m_id <$> l1)) /\ (m_id m ∉ (m_id <$> l2)).
Proof.
  intros Hk Hin.
  destruct (beforeApply_spec env w) as (_ & Hms & _).
  pose proof (getPendingMutations_ids _ Hk) as Hnd.
  apply list_elem_of_split in Hin as (p1 & p2 & Hp). rewrite Hp in Hms, Hnd.
  apply Forall2_app_inv_l in Hms as (l1 & rest & H1 & Hrest & Heq).
  apply Forall2_cons_inv_l in Hrest as (m' & l2 & Hm & H2 & ->).
  exists l1, m', l2. split; [done|]. split; [done|].
  rewrite fmap_app, fmap_cons in Hnd.
  apply NoDup_app in Hnd as (_ & Hdis & Hnd2).
  apply NoDup_cons in Hnd2 as [Hnot2 _].
  rewrite (sameButPayload_ids _ _ H1), (sameButPayload_ids _ _ H2).
  split; [|done]. intros Hi. apply (Hdis _ Hi). left.
Qed.

(** C3. Take a pending UPDATE or DELETE mutation whose record id
    carries the local-origin prefix of its collection.  In whatever
    state the apply pass reaches it, its iteration makes no remote call
    and does nothing but mark the mutation ['synced'] and count it as
    synced.  In a push that gets past the preflight, the apply pass
    does reach it, the queue then holds it with status ['synced'], and
    when the push returns it has been cleared from the queue. *)
Theorem skip_unresolved_placeholder (env : Env) (w : World) (m : MutationRecord)
    (prefix : string) :
  well_keyed (db_mutations (w_db w)) ->
  m ∈ getPendingMutations (db_mutations (w_db w)) ->
  m_operation m = UPDATE \/ m_operation m = DELETE ->
  placeholderPrefix (m_table m) = Some prefix ->
  startsWith (m_recordId m) prefix = true ->
  (forall st m', sameButPayload m m' ->
     applyMutation env st m' =
       count_synced (in_queue (markMutationSynced (m_id m)) st) /\
     w_calls (ps_world (applyMutation env st m')) = w_calls (ps_world st)) /\
  (preflightPasses env w ->
     exists l1 m' l2,
       (beforeApply env w).2 = l1 ++ (m' :: l2) /\ sameButPayload m m' /\
       let st0 := mkPush (beforeApply env w).1.1 (beforeApply env w).1.2 0 0 in
       let st1 := applyPass env l1 st0 in
       let st2 := applyMutation env st1 m' in
       w_calls (ps_world st2) = w_calls (ps_world st1) /\
       queueOf st2 !! m_id m = Some (set_status synced m) /\
       queueOf (applyPass env l2 st2) !! m_id m = Some (set_status synced m) /\
       db_mutations (w_db (pushPendingMutations env w).2) !! m_id m = None).
Proof.
  intros Hk Hin Ho Ht Hp.
  assert (Hstep : forall st m', sameButPayload m m' ->
     applyMutation env st m' =
       count_synced (in_queue (markMutationSynced (m_id m)) st)).
  { intros st m' Hm'. destruct (sameButPayload_fields _ _ Hm') as (Hi & Htb & Hop & Hr).
    rewrite <- Hi. apply (skip_step env st m' prefix); by rewrite ?Hop, ?Htb, ?Hr. }
  split.
  { intros st m' Hm'. split; [by apply Hstep|]. by rewrite (Hstep st m' Hm'). }
  intros Hpass.
  destruct (apply_order_split env w m Hk Hin) as (l1 & m' & l2 & Hsplit & Hm' & Hn1 & Hn2).
  exists l1, m', l2. split; [done|]. split; [done|]. cbn zeta.
  set (st0 := mkPush (beforeApply env w).1.1 (beforeApply env w).1.2 0 0).
  set (st1 := applyPass env l1 st0).
  assert (Hq0 : queueOf st0 !! m_id m = Some m).
  { unfold queueOf, st0. cbn [ps_world].
    destruct (beforeApply_spec env w) as (_ & _ & -> & _).
    by apply getPendingMutations_spec. }
  assert (Hq1 : queueOf st1 !! m_id m = Some m).
  { unfold st1. by rewrite applyPass_other. }
  assert (Hq2 : queueOf (applyMutation env st1 m') !! m_id m =
                Some (set_status synced m)).
  { rewrite (Hstep st1 m' Hm'). unfold queueOf in *.
    destruct st1 as [[[] ? ? ?] ? ? ?]. cbn in *.
    unfold markMutationSynced. by rewrite lookup_alter_eq, Hq1. }
  assert (Hq3 : queueOf (applyPass env l2 (applyMutation env st1 m')) !! m_id m =
                Some (set_status synced m)).
  { by rewrite applyPass_other. }
  split; [by rewrite (Hstep st1 m' Hm')|]. split; [done|]. split; [done|].
  rewrite pushPendingMutations_phases; [|by intros Hnil; rewrite Hnil in Hin;
                                          apply elem_of_nil in Hin|done].
  rewrite Hsplit. unfold applyPass. rewrite foldl_app. cbn [foldl].
  fold st0. fold (applyPass env l1 st0). fold st1.
  fold (applyPass env l2 (applyMutation env st1 m')).
  unfold afterApply. cbn [snd].
  set (st3 := applyPass env l2 (applyMutation env st1 m')) in *.
  unfold queueOf in Hq3. destruct st3 as [[[] ? ? ?] ? ? ?]. cbn in *.
  by eapply clearSyncedMutations_synced.
Qed.

Lemma well_keyed_empty : well_keyed ∅.
Proof. intros k m Hm. by rewrite lookup_empty in Hm. Qed.

Lemma well_keyed_insert (q : gmap string MutationRecord) (m : MutationRecord) :
  well_keyed q -> well_keyed (<[m_id m := m]> q).
Proof.
  intros Hq k m' Hm'. destruct (decide (k = m_id m)) as [->|Hne].
  - rewrite lookup_insert_eq in Hm'. by injection Hm' as <-.
  - rewrite lookup_insert_ne in Hm' by done. by apply Hq.
Qed.

Lemma offlineQueue_well_keyed : well_keyed (db_mutations (w_db offlineWorld)).
Proof. repeat apply well_keyed_insert. apply well_keyed_empty. Qed.

Lemma skip_unresolved_placeholder_witness :
  well_keyed (db_mutations (w_db offlineWorld)) /\
  restockProduct ∈ getPendingMutations (db_mutations (w_db offlineWorld)) /\
  (m_operation restockProduct = UPDATE \/ m_operation restockProduct = DELETE) /\
  placeholderPrefix (m_table restockProduct) = Some "local_" /\
  startsWith (m_recordId restockProduct) "local_" = true /\
  (forall st m', sameButPayload restockProduct m' ->
     applyMutation shopBackend st m' =
       count_synced (in_queue (markMutationSynced (m_id restockProduct)) st) /\
     w_calls (ps_world (applyMutation shopBackend st m')) = w_calls (ps_world st)) /\
  (preflightPasses shopBackend offlineWorld ->
     exists l1 m' l2,
       (beforeApply shopBackend offlineWorld).2 = l1 ++ (m' :: l2) /\
       sameButPayload restockProduct m' /\
       let st0 := mkPush (beforeApply shopBackend offlineWorld).1.1
                         (beforeApply shopBackend offlineWorld).1.2 0 0 in
       let st1 := applyPass shopBackend l1 st0 in
       let st2 := applyMutation shopBackend st1 m' in
       w_calls (ps_world st2) = w_calls (ps_world st1) /\
       queueOf st2 !! m_id restockProduct = Some (set_status synced restockProduct) /\
       queueOf (applyPass shopBackend l2 st2) !! m_id restockProduct =
         Some (set_status synced restockProduct) /\
       db_mutations (w_db (pushPendingMutations shopBackend offlineWorld).2)
         !! m_id restockProduct = None).
Proof.
  assert (Hin : restockProduct ∈ getPendingMutations (db_mutations (w_db offlineWorld))).
  { apply (pending_stored _ (m_id restockProduct)); reflexivity. }
  split; [exact offlineQueue_well_keyed|]. split; [exact Hin|].
  split; [left; reflexivity|]. split; [reflexivity|]. split; [reflexivity|].
  apply (skip_unresolved_placeholder shopBackend offlineWorld restockProduct "local_");
    [exact offlineQueue_well_keyed | exact Hin | left; reflexivity
    | reflexivity | reflexivity].
Defined.

Lemma push_preflight_abort_witness :
  getPendingMutations (db_mutations (w_db offlineWorld)) <> [] /\
  (reply bareBackend (w_calls offlineWorld) (CallHead products) = ReplyThrows \/
   exists e, reply bareBackend (w_calls offlineWorld) (CallHead products) = ReplyError e /\
             relationNotFound e) /\
  let r := pushPendingMutations bareBackend offlineWorld in
  success r.1 = false /\
  idMappings r.1 = ∅ /\
  w_db r.2 = w_db offlineWorld /\
  (forall k, db_mutations (w_db r.2) !! k = db_mutations (w_db offlineWorld) !! k) /\
  w_calls r.2 = w_calls offlineWorld ++ [CallHead products].
Proof.
  assert (Hne : getPendingMutations (db_mutations (w_db offlineWorld)) <> []).
  { vm_compute. discriminate. }
  assert (Hrep : reply bareBackend (w_calls offlineWorld) (CallHead products) = ReplyThrows \/
    exists e, reply bareBackend (w_calls offlineWorld) (CallHead products) = ReplyError e /\
              relationNotFound e).
  { right. exists missingTable. split; [reflexivity | left; reflexivity]. }
  split; [exact Hne|]. split; [exact Hrep|].
  exact (push_preflight_abort bareBackend offlineWorld Hne Hrep).
Defined.

Lemma prefix_head (a : Ascii.ascii) (s1 s : string) :
  String.prefix (String a s1) s = true -> exists s', s = String a s'.
Proof.
  destruct s as [|b s']; cbn [String.prefix]; [done|].
  destruct (Ascii.ascii_dec a b) as [->|]; [eauto|done].
Qed.

Lemma other_prefix_not_local (t : MutationTable) (prefix s : string) :
  t <> products -> placeholderPrefix t = Some prefix ->
  startsWith s prefix = true -> startsWith s "local_" = false.
Proof.
  intros Ht Hpre Hs. unfold startsWith in *.
  destruct t; cbn in Hpre; simplify_eq;
    apply prefix_head in Hs as [s' ->]; cbn [String.prefix];
    by destruct (Ascii.ascii_dec _ _).
Qed.

Lemma insert_step (env : Env) (st : PushState) (m : MutationRecord)
    (prefix : string) :
  m_table m <> products -> m_operation m = INSERT ->
  placeholderPrefix (m_table m) = Some prefix ->
  startsWith (m_recordId m) prefix = true ->
  let newId := uuidv4 env (w_uuids (ps_world st)) in
  ps_idMappings (applyMutation env st m) =
    <[m_recordId m := newId]> (ps_idMappings st) /\
  w_calls (ps_world (applyMutation env st m)) =
    w_calls (ps_world st) ++
      [CallInsert (m_table m) (localPayload (m_payload m) (JStr newId))].
Proof.
  intros Ht Ho Hpre Hs. destruct st as [[[] ? ? ?] ? ? ?].
  unfold applyMutation, tryBody. rewrite Ho.
  destruct (m_table m); cbn in Hpre; simplify_eq; rewrite Hs;
    push_unfold; cbn; push_cases; done.
Qed.

(** C2, as the code does it.  For a pending INSERT mutation whose
    record id carries the local-origin prefix of its collection: the
    pre-pass writes nothing to the local database and transmits
    nothing, and the table it builds is the one the apply pass starts
    with, when no mutation has been transmitted yet.  If the mutation
    targets products, that table maps its record id to a UUID generated
    during the pre-pass.  If it targets sales, notifications or
    settings, that table has no entry for its record id; the entry is
    made in the mutation's own iteration of the apply pass, with a UUID
    generated there, and the insert transmitted in that iteration
    carries this UUID as its id. *)
Theorem premap_covers_products (env : Env) (w : World) (m : MutationRecord)
    (prefix : string) :
  m ∈ getPendingMutations (db_mutations (w_db w)) ->
  m_operation m = INSERT ->
  placeholderPrefix (m_table m) = Some prefix ->
  startsWith (m_recordId m) prefix = true ->
  let pre := premapPass env (getPendingMutations (db_mutations (w_db w)))
                        (call (CallHead products) w) in
  w_db pre.1 = w_db w /\
  w_calls pre.1 = w_calls w ++ [CallHead products] /\
  (beforeApply env w).1.2 = pre.2 /\
  w_calls (beforeApply env w).1.1 = w_calls w ++ [CallHead products] /\
  (m_table m = products ->
     exists newId, pre.2 !! m_recordId m = Some newId /\
                   drawnIn env (w_uuids w) (w_uuids pre.1) newId) /\
  (m_table m <> products ->
     pre.2 !! m_recordId m = None /\
     forall st m', sameButPayload m m' ->
       let newId := uuidv4 env (w_uuids (ps_world st)) in
       ps_idMappings (applyMutation env st m') =
         <[m_recordId m := newId]> (ps_idMappings st) /\
       w_calls (ps_world (applyMutation env st m')) =
         w_calls (ps_world st) ++
           [CallInsert (m_table m) (localPayload (m_payload m') (JStr newId))]).
Proof.
  intros Hin Ho Hpre Hs pre.
  destruct (beforeApply_spec env w) as (Hids & _ & _ & _ & Hc2 & Hdb & Hc).
  fold pre in Hids, Hdb, Hc.
  destruct (premap_invariant env (getPendingMutations (db_mutations (w_db w)))
              (call (CallHead products) w) ∅) as (_ & _ & _ & _ & _ & Hnone & Hall).
  unfold premapPass in pre. fold pre in Hnone, Hall.
  split; [done|]. split; [done|]. split; [done|]. split; [done|]. split.
  - intros Ht. rewrite Ht in Hpre. cbn in Hpre. simplify_eq.
    destruct (Hall m Hin Ht Ho Hs) as (v' & Hv' & Hd). by exists v'.
  - intros Ht. split.
    + apply Hnone; [apply lookup_empty|].
      by apply (other_prefix_not_local (m_table m) prefix).
    + intros st m' Hm'.
      destruct (sameButPayload_fields _ _ Hm') as (_ & Htb & Hop & Hr).
      rewrite <- Hr, <- Htb.
      apply (insert_step env st m' prefix); by rewrite ?Htb, ?Hop, ?Hr.
Qed.

Lemma premap_covers_products_witness :
  insertProduct ∈ getPendingMutations (db_mutations (w_db offlineWorld)) /\
  m_operation insertProduct = INSERT /\
  placeholderPrefix (m_table insertProduct) = Some "local_" /\
  startsWith (m_recordId insertProduct) "local_" = true /\
  let pre := premapPass shopBackend
               (getPendingMutations (db_mutations (w_db offlineWorld)))
               (call (CallHead products) offlineWorld) in
  w_db pre.1 = w_db offlineWorld /\
  w_calls pre.1 = w_calls offlineWorld ++ [CallHead products] /\
  (beforeApply shopBackend offlineWorld).1.2 = pre.2 /\
  w_calls (beforeApply shopBackend offlineWorld).1.1 =
    w_calls offlineWorld ++ [CallHead products] /\
  (m_table insertProduct = products ->
     exists newId, pre.2 !! m_recordId insertProduct = Some newId /\
                   drawnIn shopBackend (w_uuids offlineWorld) (w_uuids pre.1) newId) /\
  (m_table insertProduct <> products ->
     pre.2 !! m_recordId insertProduct = None /\
     forall st m', sameButPayload insertProduct m' ->
       let newId := uuidv4 shopBackend (w_uuids (ps_world st)) in
       ps_idMappings (applyMutation shopBackend st m') =
         <[m_recordId insertProduct := newId]> (ps_idMappings st) /\
       w_calls (ps_world (applyMutation shopBackend st m')) =
         w_calls (ps_world st) ++
           [CallInsert (m_table insertProduct)
                       (localPayload (m_payload m') (JStr newId))]).
Proof.
  assert (Hin : insertProduct ∈ getPendingMutations (db_mutations (w_db offlineWorld))).
  { apply (pending_stored _ (m_id insertProduct)); reflexivity. }
  split; [exact Hin|]. split; [reflexivity|]. split; [reflexivity|].
  split; [reflexivity|].
  apply (premap_covers_products shopBackend offlineWorld insertProduct "local_");
    [exact Hin | reflexivity | reflexivity | reflexivity].
Defined.

(** C2 as stated fails for the other collections: with a product and
    a sale created offline, when the apply pass starts (only the
    preflight check has been transmitted) the table maps the product's
    placeholder id but holds no entry for the placeholder id of the
    pending sale INSERT. *)
Lemma premap_misses_sale :
  insertSale ∈ getPendingMutations (db_mutations (w_db offlineWorld)) /\
  m_operation insertSale = INSERT /\
  m_table insertSale = sales /\
  startsWith (m_recordId insertSale) "sale_" = true /\
  preflightPasses shopBackend offlineWorld /\
  w_calls (beforeApply shopBackend offlineWorld).1.1 = [CallHead products] /\
  (beforeApply shopBackend offlineWorld).1.2 !! m_recordId insertProduct =
    Some "0b8c7d1e-5a3f-4c2b-9e6d-1f2a3b4c5d6e" /\
  (beforeApply shopBackend offlineWorld).1.2 !! m_recordId insertSale = None.
Proof.
  split; [apply (pending_stored _ (m_id insertSale)); reflexivity|].
  repeat split; vm_compute; reflexivity.
Qed.

(** C1, as the code does it.  On a queue whose rows are stored under
    their ids, [getPendingMutations] returns exactly the mutations
    whose status is ['pending'], each once, in ascending order of the
    mutation id (the primary key), whatever their creation timestamps;
    the array the apply pass of a push runs over holds these mutations
    in that same order (STEP 2 may have rewritten payloads), and the
    apply pass is the left-to-right fold of its iteration over that
    array. *)
Theorem pending_in_primary_key_order (env : Env) (w : World) :
  well_keyed (db_mutations (w_db w)) ->
  let q := db_mutations (w_db w) in
  (forall m, m ∈ getPendingMutations q <-> q !! m_id m = Some m /\ m_status m = pending) /\
  StronglySorted idOrder (getPendingMutations q) /\
  NoDup (m_id <$> getPendingMutations q) /\
  Forall2 sameButPayload (getPendingMutations q) (beforeApply env w).2 /\
  (getPendingMutations q <> [] -> preflightPasses env w ->
     pushPendingMutations env w =
       afterApply (foldl (applyMutation env)
                         (mkPush (beforeApply env w).1.1 (beforeApply env w).1.2 0 0)
                         (beforeApply env w).2)).
Proof.
  intros Hk q.
  split; [intros m; by apply getPendingMutations_spec|].
  split; [by apply getPendingMutations_sorted|].
  split; [by apply getPendingMutations_ids|].
  split; [by destruct (beforeApply_spec env w) as (_ & H & _)|].
  intros Hne Hpass. by apply pushPendingMutations_phases.
Qed.

Lemma pending_in_primary_key_order_witness :
  well_keyed (db_mutations (w_db offlineWorld)) /\
  let q := db_mutations (w_db offlineWorld) in
  (forall m, m ∈ getPendingMutations q <-> q !! m_id m = Some m /\ m_status m = pending) /\
  StronglySorted idOrder (getPendingMutations q) /\
  NoDup (m_id <$> getPendingMutations q) /\
  Forall2 sameButPayload (getPendingMutations q) (beforeApply shopBackend offlineWorld).2 /\
  (getPendingMutations q <> [] -> preflightPasses shopBackend offlineWorld ->
     pushPendingMutations shopBackend offlineWorld =
       afterApply (foldl (applyMutation shopBackend)
                         (mkPush (beforeApply shopBackend offlineWorld).1.1
                                 (beforeApply shopBackend offlineWorld).1.2 0 0)
                         (beforeApply shopBackend offlineWorld).2)).
Proof.
  split; [exact offlineQueue_well_keyed|].
  exact (pending_in_primary_key_order shopBackend offlineWorld offlineQueue_well_keyed).
Defined.

(** C1 as stated fails: enqueue an INSERT of a record and, later, an
    UPDATE of the same record, the second under a UUID that sorts
    before the first.  [getPendingMutations] returns the UPDATE first,
    so its result is not in ascending timestamp order, and the push
    transmits the UPDATE before the INSERT. *)
Lemma pending_not_in_creation_order :
  enqueueMutation (m_id createdFirst) (m_clientId createdFirst)
    (m_timestamp createdFirst) products INSERT (m_recordId createdFirst)
    (m_payload createdFirst) ∅
  = Some (createdFirst, <[m_id createdFirst := createdFirst]> ∅) /\
  enqueueMutation (m_id createdSecond) (m_clientId createdSecond)
    (m_timestamp createdSecond) products UPDATE (m_recordId createdSecond)
    (m_payload createdSecond) (<[m_id createdFirst := createdFirst]> ∅)
  = Some (createdSecond, reorderedQueue) /\
  m_recordId createdFirst = m_recordId createdSecond /\
  m_timestamp createdFirst < m_timestamp createdSecond /\
  getPendingMutations reorderedQueue = [createdSecond; createdFirst] /\
  ~ StronglySorted (fun a b => m_timestamp a <= m_timestamp b)
      (getPendingMutations reorderedQueue) /\
  w_calls (pushPendingMutations shopBackend reorderedWorld).2 =
    [CallHead products;
     CallUpdate products (m_payload createdSecond) (m_recordId createdSecond);
     CallInsert products (m_payload createdFirst)].
Proof.
  assert (Hp : getPendingMutations reorderedQueue = [createdSecond; createdFirst])
    by (vm_compute; reflexivity).
  split; [reflexivity|]. split; [reflexivity|]. split; [reflexivity|].
  split; [reflexivity|]. split; [exact Hp|]. split.
  - rewrite Hp. intros Hs. apply StronglySorted_inv in Hs as [_ Hall].
    apply Forall_inv in Hall. vm_compute in Hall. by apply Hall.
  - vm_compute. reflexivity.
Qed.

(** What the order costs.  A product is created offline and then a sale
    of it; the sale's mutation has the later timestamp but the smaller
    UUID.  Against a backend that enforces the reference from a sale to
    its product, the first push sends the sale before the product, the
    sale is refused, and its queued payload still names the placeholder
    id of the product.  The second push finds no product insert
    pending, so it sends the sale with that placeholder as
    [product_id], and the sale is refused again. *)
Lemma sale_pushed_before_its_product :
  let first := pushPendingMutations strictBackend saleFirstWorld in
  let second := pushPendingMutations strictBackend first.2 in
  m_timestamp insertProduct < m_timestamp earlySale /\
  getPendingMutations (db_mutations (w_db saleFirstWorld)) = [earlySale; insertProduct] /\
  w_calls first.2 =
    [CallHead products;
     CallInsert sales
       {["id" := JStr "7c9e6679-7425-40de-944b-e07fc1f90ae7";
         "product_id" := JStr "0b8c7d1e-5a3f-4c2b-9e6d-1f2a3b4c5d6e";
         "quantity_sold" := JNum 10]};
     CallInsert products
       {["id" := JStr "0b8c7d1e-5a3f-4c2b-9e6d-1f2a3b4c5d6e";
         "name" := JStr "Hair Cream"; "selling_price" := JNum 50000]}] /\
  success first.1 = false /\
  db_mutations (w_db first.2) =
    {[m_id earlySale := set_outcome pending 1 (Some "[object Object]") earlySale]} /\
  w_calls second.2 =
    w_calls first.2 ++
    [CallHead products;
     CallInsert sales
       {["id" := JStr "7c9e6679-7425-40de-944b-e07fc1f90ae7";
         "product_id" := JStr "local_1704189000000";
         "quantity_sold" := JNum 10]}] /\
  success second.1 = false /\
  db_mutations (w_db second.2) =
    {[m_id earlySale := set_outcome pending 2 (Some "[object Object]") earlySale]}.
Proof.
  cbn zeta. split; [reflexivity|]. repeat split; vm_compute; reflexivity.
Qed.

(** *** The retry ceiling *)

Lemma push_leaves_failed (env : Env) (w : World) (k : string) (r : MutationRecord) :
  well_keyed (db_mutations (w_db w)) ->
  db_mutations (w_db w) !! k = Some r ->
  m_status r = failed ->
  db_mutations (w_db (pushPendingMutations env w).2) !! k = Some r.
Proof.
  intros Hk Hr Hs.
  destruct (decide (getPendingMutations (db_mutations (w_db w)) = [])) as [Hnil|Hne].
  { by rewrite pushPendingMutations_nothing_pending. }
  destruct (preflightAborts (reply env (w_calls w) (CallHead products))) eqn:Hab.
  { by rewrite pushPendingMutations_aborted. }
  rewrite pushPendingMutations_phases by done.
  destruct (beforeApply_spec env w) as (_ & Hms & Hq & _).
  unfold afterApply. cbn [snd].
  set (st0 := mkPush (beforeApply env w).1.1 (beforeApply env w).1.2 0 0).
  assert (Hfinal : queueOf (applyPass env (beforeApply env w).2 st0) !! k = Some r).
  { rewrite applyPass_other.
    - unfold queueOf, st0. cbn [ps_world]. by rewrite Hq.
    - rewrite (sameButPayload_ids _ _ Hms).
      intros (m & -> & Hm)%list_elem_of_fmap.
      apply (getPendingMutations_spec _ _ Hk) in Hm as [Hm Hp]. congruence. }
  unfold queueOf in Hfinal.
  destruct (applyPass env (beforeApply env w).2 st0) as [[[] ? ? ?] ? ? ?].
  cbn in *. apply clearSyncedMutations_kept; [done|congruence].
Qed.

(** C4. While a mutation is in the queue, every [markMutationFailed]
    call raises its retry count by one; after any number of such calls
    its status is ['pending'] as long as the count is below 5 and
    ['failed'] once the count has reached 5.  A mutation whose status
    is ['failed'] is not among the results of [getPendingMutations],
    and a push leaves it in the queue exactly as it was; after
    [retryFailedMutation] it is among the pending mutations again. *)
Theorem markMutationFailed_retry_ceiling
    (q : gmap string MutationRecord) (mutationId error : string)
    (m : MutationRecord) (n : nat) :
  q !! mutationId = Some m ->
  (0 < n)%nat ->
  exists m',
    failTimes n mutationId error q !! mutationId = Some m' /\
    m_retries m' = m_retries m + Z.of_nat n /\
    (m_retries m' < 5 -> m_status m' = pending) /\
    (5 <= m_retries m' -> m_status m' = failed) /\
    (forall q' m0, m_status m0 = failed -> m0 ∉ getPendingMutations q') /\
    (forall env w k m0,
       well_keyed (db_mutations (w_db w)) ->
       db_mutations (w_db w) !! k = Some m0 -> m_status m0 = failed ->
       db_mutations (w_db (pushPendingMutations env w).2) !! k = Some m0) /\
    (forall q' k m0,
       q' !! k = Some m0 -> m_status m0 = failed ->
       set_outcome pending 0 None m0 ∈ getPendingMutations (retryFailedMutation k q')).
Proof.
  intros Hm Hn. exists (after_failures n error m).
  split; [by apply failTimes_lookup|].
  destruct n as [|n]; [lia|]. cbn [after_failures set_outcome m_retries m_status].
  unfold maxRetries. split; [done|]. split; [|split; [|split; [|split]]].
  - intros Hlt. destruct (Z.leb_spec 5 (m_retries m + Z.of_nat (S n))); [lia|done].
  - intros Hge. destruct (Z.leb_spec 5 (m_retries m + Z.of_nat (S n))); [done|lia].
  - intros q' m0 Hf Hin. apply pending_only in Hin. congruence.
  - intros env w k m0. apply push_leaves_failed.
  - intros q' k m0 Hm0 _. apply (pending_stored _ k); [|done].
    unfold retryFailedMutation. by rewrite lookup_alter_eq, Hm0.
Qed.

Lemma markMutationFailed_retry_ceiling_witness :
  sampleQueue !! "m-1" = Some sampleMutation /\
  (0 < 5)%nat /\
  exists m',
    failTimes 5 "m-1" "timeout" sampleQueue !! "m-1" = Some m' /\
    m_retries m' = m_retries sampleMutation + Z.of_nat 5 /\
    (m_retries m' < 5 -> m_status m' = pending) /\
    (5 <= m_retries m' -> m_status m' = failed) /\
    (forall q' m0, m_status m0 = failed -> m0 ∉ getPendingMutations q') /\
    (forall env w k m0,
       well_keyed (db_mutations (w_db w)) ->
       db_mutations (w_db w) !! k = Some m0 -> m_status m0 = failed ->
       db_mutations (w_db (pushPendingMutations env w).2) !! k = Some m0) /\
    (forall q' k m0,
       q' !! k = Some m0 -> m_status m0 = failed ->
       set_outcome pending 0 None m0 ∈ getPendingMutations (retryFailedMutation k q')).
Proof.
  split; [reflexivity|]. split; [lia|].
  apply (markMutationFailed_retry_ceiling sampleQueue "m-1" "timeout" sampleMutation 5);
    [reflexivity | lia].
Defined.

(** * Further properties of the code *)

(** ** The queue as a table *)

(** An index walk is determined by the rows of the table: any list of
    the table's entries in ascending key order is the walk. *)
Lemma index_walk_unique {A : Type} (q : gmap string A) (l : list (string * A)) :
  StronglySorted by_primary_key l ->
  NoDup l ->
  (forall k x, (k, x) ∈ l <-> q !! k = Some x) ->
  l = merge_sort by_primary_key (map_to_list q).
Proof.
  intros Hs Hnd Hl.
  assert (Hperm : l ≡ₚ merge_sort by_primary_key (map_to_list q)).
  { rewrite merge_sort_Permutation. apply NoDup_Permutation.
    - done.
    - apply NoDup_map_to_list.
    - intros [k x]. by rewrite Hl, elem_of_map_to_list. }
  apply (StronglySorted_unique_strong by_primary_key); [|done| |done].
  - intros [k1 x1] [k2 x2] H1 H2 H12 H21.
    unfold by_primary_key in *. cbn in *.
    pose proof (String.leb_antisym _ _ H12 H21) as ->.
    apply Hl in H1. rewrite merge_sort_Permutation in H2.
    apply elem_of_map_to_list in H2. congruence.
  - by apply StronglySorted_merge_sort; apply _.
Qed.

Lemma toArray_filter {A : Type} (P : A -> Prop) `{!forall x, Decision (P x)}
    (q : gmap string A) :
  toArray (filter (fun kv => P kv.2) q) = filter P (toArray q).
Proof.
  unfold toArray.
  rewrite <- (index_walk_unique (filter (fun kv => P kv.2) q)
                (filter (fun kv => P kv.2)
                        (merge_sort by_primary_key (map_to_list q)))).
  - generalize (merge_sort by_primary_key (map_to_list q)).
    induction l as [|[k x] l IH]; [done|].
    rewrite filter_cons. cbn [fmap list_fmap snd]. rewrite filter_cons. cbn.
    case_decide; cbn; by rewrite IH.
  - apply StronglySorted_filter_list. by apply StronglySorted_merge_sort; apply _.
  - apply NoDup_filter. rewrite merge_sort_Permutation. apply NoDup_map_to_list.
  - intros k x. rewrite list_elem_of_filter, merge_sort_Permutation.
    rewrite elem_of_map_to_list, map_lookup_filter_Some. cbn. tauto.
Qed.

Lemma toArray_delete (q : gmap string MutationRecord) (k : string) :
  well_keyed q ->
  toArray (delete k q) = filter (fun m => m_id m <> k) (toArray q).
Proof.
  intros Hk. unfold toArray.
  rewrite <- (index_walk_unique (delete k q)
                (filter (fun kv => m_id kv.2 <> k)
                        (merge_sort by_primary_key (map_to_list q)))).
  - generalize (merge_sort by_primary_key (map_to_list q)).
    induction l as [|[k' x] l IH]; [done|].
    rewrite filter_cons. cbn [fmap list_fmap snd]. rewrite filter_cons. cbn.
    case_decide; cbn; by rewrite IH.
  - apply StronglySorted_filter_list. by apply StronglySorted_merge_sort; apply _.
  - apply NoDup_filter. rewrite merge_sort_Permutation. apply NoDup_map_to_list.
  - intros k' x. rewrite list_elem_of_filter, merge_sort_Permutation.
    rewrite elem_of_map_to_list. cbn. split.
    + intros [Hne Hx]. rewrite lookup_delete_ne; [done|].
      intros <-. by rewrite (Hk _ _ Hx) in Hne.
    + intros Hx. destruct (decide (k' = k)) as [->|Hne].
      * by rewrite lookup_delete_eq in Hx.
      * rewrite lookup_delete_ne in Hx by done. split; [|done].
        by rewrite (Hk _ _ Hx).
Qed.

Lemma length_toArray {A : Type} (q : gmap string A) : length (toArray q) = size q.
Proof.
  unfold toArray. rewrite length_fmap, merge_sort_Permutation.
  apply length_map_to_list.
Qed.

Lemma status_partition (l : list MutationRecord) :
  (length (filter (fun m => m_status m = pending) l)
   + length (filter (fun m => m_status m = synced) l)
   + length (filter (fun m => m_status m = failed) l))%nat = length l.
Proof.
  induction l as [|m l IH]; [done|].
  rewrite !filter_cons. destruct (m_status m) eqn:Hs;
    repeat case_decide; try congruence; cbn; lia.
Qed.

(** X1. Enqueueing under an id that is free stores a fresh pending
    mutation (no retries, no error text) under that id, returns it,
    makes it one of the pending mutations, leaves every other row as it
    was and raises the total of the queue statistics by one; under an
    id that is taken nothing is stored ([add] rejects), so a queued
    mutation is never overwritten. *)
Theorem enqueueMutation_round_trip
    (uuid client : string) (now : Z) (table : MutationTable)
    (operation : MutationOperation) (recordId : string)
    (payload : gmap string JsVal) (q : gmap string MutationRecord) :
  well_keyed q ->
  (q !! uuid = None ->
     exists m q',
       enqueueMutation uuid client now table operation recordId payload q
         = Some (m, q') /\
       m = mkMutation uuid client table operation recordId payload now pending 0 None /\
       q' !! uuid = Some m /\
       m ∈ getPendingMutations q' /\
       (forall k, k <> uuid -> q' !! k = q !! k) /\
       well_keyed q' /\
       qs_total (getQueueStats q') = S (qs_total (getQueueStats q))) /\
  (is_Some (q !! uuid) ->
     enqueueMutation uuid client now table operation recordId payload q = None).
Proof.
  intros Hk. split.
  - intros Hfree. unfold enqueueMutation. rewrite Hfree.
    eexists _, _. split; [reflexivity|]. split; [reflexivity|].
    split; [by rewrite lookup_insert_eq|].
    split; [apply (pending_stored _ uuid); [by rewrite lookup_insert_eq|done]|].
    split; [intros k Hne; by rewrite lookup_insert_ne|].
    split.
    + apply (well_keyed_insert q
        (mkMutation uuid client table operation recordId payload now pending 0 None) Hk).
    + unfold getQueueStats, where_status. cbn [qs_total].
      rewrite !status_partition, !length_toArray.
      by apply map_size_insert_None.
  - intros [m Hm]. unfold enqueueMutation. by rewrite Hm.
Qed.

Lemma enqueueMutation_round_trip_witness :
  well_keyed offlineQueue /\
  (offlineQueue !! "c2d0a1f4-1111-4222-8333-444455556666" = None ->
     exists m q',
       enqueueMutation "c2d0a1f4-1111-4222-8333-444455556666" "client_1"
         1704189300000 sales DELETE "sale_1704189100000" ∅ offlineQueue
         = Some (m, q') /\
       m = mkMutation "c2d0a1f4-1111-4222-8333-444455556666" "client_1" sales DELETE
             "sale_1704189100000" ∅ 1704189300000 pending 0 None /\
       q' !! "c2d0a1f4-1111-4222-8333-444455556666" = Some m /\
       m ∈ getPendingMutations q' /\
       (forall k, k <> "c2d0a1f4-1111-4222-8333-444455556666" ->
                  q' !! k = offlineQueue !! k) /\
       well_keyed q' /\
       qs_total (getQueueStats q') = S (qs_total (getQueueStats offlineQueue))) /\
  (is_Some (offlineQueue !! "c2d0a1f4-1111-4222-8333-444455556666") ->
     enqueueMutation "c2d0a1f4-1111-4222-8333-444455556666" "client_1"
       1704189300000 sales DELETE "sale_1704189100000" ∅ offlineQueue = None).
Proof.
  split; [exact offlineQueue_well_keyed|].
  exact (enqueueMutation_round_trip "c2d0a1f4-1111-4222-8333-444455556666" "client_1"
           1704189300000 sales DELETE "sale_1704189100000" ∅ offlineQueue
           offlineQueue_well_keyed).
Defined.

(** X2. The pending mutations of one collection are the pending
    mutations, in the same order, with the other collections left
    out. *)
Theorem getPendingMutationsForTable_filters (table : MutationTable)
    (q : gmap string MutationRecord) :
  getPendingMutationsForTable table q =
    filter (fun m => m_table m = table) (getPendingMutations q) /\
  (forall m, m ∈ getPendingMutationsForTable table q <->
             m ∈ getPendingMutations q /\ m_table m = table).
Proof.
  assert (H : getPendingMutationsForTable table q =
              filter (fun m => m_table m = table) (getPendingMutations q)).
  { unfold getPendingMutationsForTable, getPendingMutations, where_status.
    generalize (toArray q). induction l as [|m l IH]; [done|].
    rewrite !filter_cons. repeat case_decide; rewrite ?filter_cons;
      repeat case_decide; try done; by rewrite IH. }
  split; [done|]. intros m. rewrite H, list_elem_of_filter. tauto.
Qed.

(** X3. The total of the queue statistics is the number of rows in the
    queue: every row is counted under exactly one of the three
    statuses. *)
Theorem getQueueStats_total (q : gmap string MutationRecord) :
  qs_total (getQueueStats q) = size q /\
  qs_total (getQueueStats q) =
    (qs_pending (getQueueStats q) + qs_synced (getQueueStats q)
     + qs_failed (getQueueStats q))%nat /\
  qs_pending (getQueueStats q) = length (getPendingMutations q) /\
  qs_failed (getQueueStats q) = length (getFailedMutations q).
Proof.
  unfold getQueueStats, where_status. cbn.
  by rewrite status_partition, length_toArray.
Qed.

Lemma clearSyncedMutations_where (s : MutationStatus)
    (q : gmap string MutationRecord) :
  where_status s (clearSyncedMutations q) =
    filter (fun m => m_status m <> synced) (where_status s q).
Proof.
  unfold where_status, clearSyncedMutations.
  pose proof (toArray_filter (fun m => m_status m <> synced) q) as Hf.
  cbn beta in Hf. rewrite Hf. clear Hf.
  generalize (toArray q). induction l as [|m l IH]; [done|].
  rewrite !filter_cons. repeat case_decide; rewrite ?filter_cons;
    repeat case_decide; try done; by rewrite IH.
Qed.

Lemma filter_all {A : Type} (P : A -> Prop) `{!forall x, Decision (P x)}
    (l : list A) :
  Forall P l -> filter P l = l.
Proof.
  induction 1 as [|x l Hx _ IH]; [done|].
  rewrite filter_cons. case_decide; [by rewrite IH|done].
Qed.

Lemma filter_none {A : Type} (P : A -> Prop) `{!forall x, Decision (P x)}
    (l : list A) :
  Forall (fun x => ~ P x) l -> filter P l = [].
Proof.
  induction 1 as [|x l Hx _ IH]; [done|].
  rewrite filter_cons. case_decide; [done|by rewrite IH].
Qed.

(** X4. Clearing the synced mutations removes exactly the rows whose
    status is ['synced']: the pending and the failed mutations are
    returned as before, in the same order, no synced row is left, every
    other row is stored unchanged, and clearing again changes
    nothing. *)
Theorem clearSyncedMutations_removes_only_synced (q : gmap string MutationRecord) :
  getPendingMutations (clearSyncedMutations q) = getPendingMutations q /\
  getFailedMutations (clearSyncedMutations q) = getFailedMutations q /\
  qs_synced (getQueueStats (clearSyncedMutations q)) = 0%nat /\
  (forall k m, clearSyncedMutations q !! k = Some m <->
               q !! k = Some m /\ m_status m <> synced) /\
  clearSyncedMutations (clearSyncedMutations q) = clearSyncedMutations q.
Proof.
  split; [|split; [|split; [|split]]].
  - unfold getPendingMutations. rewrite clearSyncedMutations_where.
    apply filter_all, Forall_forall. intros m Hm%elem_of_where_status.
    destruct Hm as [_ ->]. done.
  - unfold getFailedMutations. rewrite clearSyncedMutations_where.
    apply filter_all, Forall_forall. intros m Hm%elem_of_where_status.
    destruct Hm as [_ ->]. done.
  - unfold getQueueStats. cbn [qs_synced]. rewrite clearSyncedMutations_where.
    rewrite filter_none; [done|].
    apply Forall_forall. intros m Hm%elem_of_where_status. tauto.
  - intros k m. unfold clearSyncedMutations. by rewrite map_lookup_filter_Some.
  - unfold clearSyncedMutations. apply map_eq. intros k.
    apply option_eq. intros m. rewrite !map_lookup_filter_Some. cbn. tauto.
Qed.

(** X5. Deleting a mutation removes the row under that id and nothing
    else: on a queue whose rows are stored under their ids, the pending
    and the failed mutations are those returned before, in the same
    order, without the deleted one; deleting an id that is not in the
    queue changes nothing. *)
Theorem deleteMutation_removes_one (q : gmap string MutationRecord)
    (mutationId : string) :
  well_keyed q ->
  deleteMutation mutationId q !! mutationId = None /\
  (forall k, k <> mutationId -> deleteMutation mutationId q !! k = q !! k) /\
  getPendingMutations (deleteMutation mutationId q) =
    filter (fun m => m_id m <> mutationId) (getPendingMutations q) /\
  getFailedMutations (deleteMutation mutationId q) =
    filter (fun m => m_id m <> mutationId) (getFailedMutations q) /\
  well_keyed (deleteMutation mutationId q) /\
  (q !! mutationId = None -> deleteMutation mutationId q = q).
Proof.
  intros Hk. unfold deleteMutation.
  assert (Hw : forall s, where_status s (delete mutationId q) =
                 filter (fun m => m_id m <> mutationId) (where_status s q)).
  { intros s. unfold where_status. rewrite toArray_delete by done.
    generalize (toArray q). induction l as [|m l IH]; [done|].
    rewrite !filter_cons. repeat case_decide; rewrite ?filter_cons;
      repeat case_decide; try done; by rewrite IH. }
  split; [apply lookup_delete_eq|].
  split; [intros k Hne; by rewrite lookup_delete_ne|].
  split; [apply Hw|]. split; [apply Hw|]. split.
  - intros k m Hm. apply Hk. by apply lookup_delete_Some in Hm as [_ Hm].
  - apply delete_id.
Qed.

Lemma deleteMutation_removes_one_witness :
  well_keyed offlineQueue /\
  deleteMutation (m_id insertSale) offlineQueue !! m_id insertSale = None /\
  (forall k, k <> m_id insertSale ->
             deleteMutation (m_id insertSale) offlineQueue !! k = offlineQueue !! k) /\
  getPendingMutations (deleteMutation (m_id insertSale) offlineQueue) =
    filter (fun m => m_id m <> m_id insertSale) (getPendingMutations offlineQueue) /\
  getFailedMutations (deleteMutation (m_id insertSale) offlineQueue) =
    filter (fun m => m_id m <> m_id insertSale) (getFailedMutations offlineQueue) /\
  well_keyed (deleteMutation (m_id insertSale) offlineQueue) /\
  (offlineQueue !! m_id insertSale = None ->
   deleteMutation (m_id insertSale) offlineQueue = offlineQueue).
Proof.
  split; [exact offlineQueue_well_keyed|].
  exact (deleteMutation_removes_one offlineQueue (m_id insertSale)
           offlineQueue_well_keyed).
Defined.

(** ** Pull: what a merge keeps and what it writes *)

Section MergeLoop.
Context {A B : Type} (table : World -> gmap string B) (key : A -> string)
        (row : World -> A -> B) (put : World -> A -> World).
Hypothesis table_put :
  forall w r, table (put w r) = <[key r := row w r]> (table w).
Hypothesis clock_put : forall w r, (w_clock w <= w_clock (put w r))%nat.

Lemma merge_loop_other (rows : list A) (w : World) (k : string) :
  k ∉ (key <$> rows) -> table (foldl put w rows) !! k = table w !! k.
Proof.
  revert w. induction rows as [|r rows IH]; intros w Hk; [done|].
  cbn in Hk. apply not_elem_of_cons in Hk as [Hne Hk].
  cbn [foldl]. rewrite IH by done. rewrite table_put. by rewrite lookup_insert_ne.
Qed.

Lemma merge_loop_keeps (rows : list A) (w : World) (k : string) :
  is_Some (table w !! k) -> is_Some (table (foldl put w rows) !! k).
Proof.
  revert w. induction rows as [|r rows IH]; intros w Hk; [done|].
  cbn [foldl]. apply IH. rewrite table_put.
  destruct (decide (key r = k)) as [<-|Hne].
  - rewrite lookup_insert_eq. eauto.
  - by rewrite lookup_insert_ne.
Qed.

Lemma merge_loop_clock (rows : list A) (w : World) :
  (w_clock w <= w_clock (foldl put w rows))%nat.
Proof.
  revert w. induction rows as [|r rows IH]; intros w; [done|].
  cbn [foldl]. specialize (IH (put w r)). specialize (clock_put w r). lia.
Qed.

Lemma merge_loop_row (rows : list A) (w : World) (r : A) :
  NoDup (key <$> rows) -> r ∈ rows ->
  exists w0, table (foldl put w rows) !! key r = Some (row w0 r) /\
             (w_clock w <= w_clock w0)%nat /\
             (w_clock (put w0 r) <= w_clock (foldl put w rows))%nat.
Proof.
  revert w. induction rows as [|r0 rows IH]; intros w Hnd Hin.
  { by apply elem_of_nil in Hin. }
  cbn in Hnd. apply NoDup_cons in Hnd as [Hnot Hnd].
  cbn [foldl]. apply elem_of_cons in Hin as [->|Hin].
  - exists w. rewrite merge_loop_other by done.
    rewrite table_put, lookup_insert_eq. split; [done|]. split; [lia|].
    apply merge_loop_clock.
  - destruct (IH (put w r0) Hnd Hin) as (w0 & Hl & Hlo & Hhi).
    exists w0. split; [done|]. split; [|done].
    specialize (clock_put w r0). lia.
Qed.
End MergeLoop.

Lemma mergeRows_cases {A : Type} (put : World -> A -> World)
    (result : SelectResult A) (w : World) :
  mergeRows put result w = (negb (pullFails result), foldl put w (rowsOf result)).
Proof.
  destruct result as [|e|rows]; cbn; try done.
  by destruct (isRelationNotFound e).
Qed.

Lemma foldl_putProduct_besides (env : Env) (rows : list Product) (w : World) :
  besidesProducts (foldl (putProduct env) w rows) = besidesProducts w.
Proof.
  revert w. induction rows as [|r rows IH]; intros w; [done|].
  cbn [foldl]. rewrite IH. by destruct w as [[] ? ? ?].
Qed.

Lemma foldl_putSale_besides (env : Env) (rows : list Sale) (w : World) :
  besidesSales (foldl (putSale env) w rows) = besidesSales w.
Proof.
  revert w. induction rows as [|r rows IH]; intros w; [done|].
  cbn [foldl]. rewrite IH. by destruct w as [[] ? ? ?].
Qed.

Lemma foldl_putNotification_besides (rows : list Notification) (w : World) :
  besidesNotifications (foldl putNotification w rows) = besidesNotifications w /\
  w_clock (foldl putNotification w rows) = w_clock w.
Proof.
  revert w. induction rows as [|r rows IH]; intros w; [done|].
  cbn [foldl]. destruct (IH (putNotification w r)) as [-> ->].
  by destruct w as [[] ? ? ?].
Qed.

Lemma foldl_putSetting_besides (rows : list Setting) (w : World) :
  besidesSettings (foldl putSetting w rows) = besidesSettings w /\
  w_clock (foldl putSetting w rows) = w_clock w.
Proof.
  revert w. induction rows as [|r rows IH]; intros w; [done|].
  cbn [foldl]. destruct (IH (putSetting w r)) as [-> ->].
  by destruct w as [[] ? ? ?].
Qed.

(** The four pull functions as merge loops over the rows their query
    returned. *)
Lemma pullPhase_loops (env : Env) (w : World) :
  let '(rp, rs, rn, rt) := pullReplies env (w_calls w) in
  let w1 := foldl (putProduct env) (call (CallSelect products) w) (rowsOf rp) in
  let w2 := foldl (putSale env) (call (CallSelect sales) w1) (rowsOf rs) in
  let w3 := foldl putNotification (call (CallSelect notifications) w2) (rowsOf rn) in
  let w4 := foldl putSetting (call (CallSelect settings) w3) (rowsOf rt) in
  pullPhase env w =
    ((negb (pullFails rp), negb (pullFails rs), negb (pullFails rn),
      negb (pullFails rt)), w4).
Proof.
  unfold pullReplies, pullPhase, syncProductsFromSupabase, syncSalesFromSupabase,
    syncNotificationsFromSupabase, syncSettingsFromSupabase. cbn zeta.
  rewrite !mergeRows_cases.
  set (w1 := foldl (putProduct env) (call (CallSelect products) w) _).
  assert (H1' : w_calls w1 = w_calls w ++ [CallSelect products]).
  { exact (f_equal snd (foldl_putProduct_besides env
      (rowsOf (selectProducts env (w_calls w))) (call (CallSelect products) w))). }
  rewrite H1'.
  set (w2 := foldl (putSale env) (call (CallSelect sales) w1) _).
  assert (H2 : w_calls w2 = w_calls w ++ [CallSelect products; CallSelect sales]).
  { pose proof (f_equal snd (foldl_putSale_besides env
      (rowsOf (selectSales env (w_calls w ++ [CallSelect products])))
      (call (CallSelect sales) w1))) as Hc.
    fold w2 in Hc. cbn in Hc. rewrite Hc, H1'. by rewrite <- app_assoc. }
  rewrite H2.
  set (w3 := foldl putNotification (call (CallSelect notifications) w2) _).
  assert (H3 : w_calls w3 =
               w_calls w ++ [CallSelect products; CallSelect sales;
                             CallSelect notifications]).
  { pose proof (f_equal snd (proj1 (foldl_putNotification_besides
      (rowsOf (selectNotifications env
                 (w_calls w ++ [CallSelect products; CallSelect sales])))
      (call (CallSelect notifications) w2)))) as Hc.
    fold w3 in Hc. cbn in Hc. rewrite Hc, H2. by rewrite <- app_assoc. }
  by rewrite H3.
Qed.

Lemma besidesProducts_fields (w w' : World) :
  besidesProducts w' = besidesProducts w ->
  db_sales (w_db w') = db_sales (w_db w) /\
  db_notifications (w_db w') = db_notifications (w_db w) /\
  db_settings (w_db w') = db_settings (w_db w) /\
  db_images (w_db w') = db_images (w_db w) /\
  db_mutations (w_db w') = db_mutations (w_db w) /\
  db_syncMeta (w_db w') = db_syncMeta (w_db w).
Proof.
  destruct w as [[] ? ? ?], w' as [[] ? ? ?]. cbn. intros H.
  injection H as ? ? ? ? ? ? ? ?. by subst.
Qed.

Lemma besidesSales_fields (w w' : World) :
  besidesSales w' = besidesSales w ->
  db_products (w_db w') = db_products (w_db w) /\
  db_notifications (w_db w') = db_notifications (w_db w) /\
  db_settings (w_db w') = db_settings (w_db w) /\
  db_images (w_db w') = db_images (w_db w) /\
  db_mutations (w_db w') = db_mutations (w_db w) /\
  db_syncMeta (w_db w') = db_syncMeta (w_db w).
Proof.
  destruct w as [[] ? ? ?], w' as [[] ? ? ?]. cbn. intros H.
  injection H as ? ? ? ? ? ? ? ?. by subst.
Qed.

Lemma besidesNotifications_fields (w w' : World) :
  besidesNotifications w' = besidesNotifications w ->
  db_products (w_db w') = db_products (w_db w) /\
  db_sales (w_db w') = db_sales (w_db w) /\
  db_settings (w_db w') = db_settings (w_db w) /\
  db_images (w_db w') = db_images (w_db w) /\
  db_mutations (w_db w') = db_mutations (w_db w) /\
  db_syncMeta (w_db w') = db_syncMeta (w_db w).
Proof.
  destruct w as [[] ? ? ?], w' as [[] ? ? ?]. cbn. intros H.
  injection H as ? ? ? ? ? ? ? ?. by subst.
Qed.

Lemma besidesSettings_fields (w w' : World) :
  besidesSettings w' = besidesSettings w ->
  db_products (w_db w') = db_products (w_db w) /\
  db_sales (w_db w') = db_sales (w_db w) /\
  db_notifications (w_db w') = db_notifications (w_db w) /\
  db_images (w_db w') = db_images (w_db w) /\
  db_mutations (w_db w') = db_mutations (w_db w) /\
  db_syncMeta (w_db w') = db_syncMeta (w_db w).
Proof.
  destruct w as [[] ? ? ?], w' as [[] ? ? ?]. cbn. intros H.
  injection H as ? ? ? ? ? ? ? ?. by subst.
Qed.

Lemma putProduct_table (env : Env) (w : World) (r : Product) :
  db_products (w_db (putProduct env w r)) =
    <[p_id r := pulledProduct (toISOString_now env (w_clock w)) r]>
      (db_products (w_db w)).
Proof. by destruct w as [[] ? ? ?]. Qed.

Lemma putSale_table (env : Env) (w : World) (r : Sale) :
  db_sales (w_db (putSale env w r)) =
    <[s_id r := pulledSale (toISOString_now env (w_clock w)) r]>
      (db_sales (w_db w)).
Proof. by destruct w as [[] ? ? ?]. Qed.

Lemma putNotification_table (w : World) (r : Notification) :
  db_notifications (w_db (putNotification w r)) =
    <[n_id r := localNotification r]> (db_notifications (w_db w)).
Proof. by destruct w as [[] ? ? ?]. Qed.

Lemma putSetting_table (w : World) (r : Setting) :
  db_settings (w_db (putSetting w r)) =
    <[t_id r := localSetting r]> (db_settings (w_db w)).
Proof. by destruct w as [[] ? ? ?]. Qed.

Lemma putProduct_clock (env : Env) (w : World) (r : Product) :
  (w_clock w <= w_clock (putProduct env w r))%nat.
Proof. destruct w as [[] ? ? ?]. cbn. lia. Qed.

Lemma putSale_clock (env : Env) (w : World) (r : Sale) :
  (w_clock w <= w_clock (putSale env w r))%nat.
Proof. destruct w as [[] ? ? ?]. cbn. lia. Qed.

Lemma putNotification_clock (w : World) (r : Notification) :
  (w_clock w <= w_clock (putNotification w r))%nat.
Proof. by destruct w as [[] ? ? ?]. Qed.

Lemma putSetting_clock (w : World) (r : Setting) :
  (w_clock w <= w_clock (putSetting w r))%nat.
Proof. by destruct w as [[] ? ? ?]. Qed.

(** The chain of worlds of one pull phase, with what each loop leaves
    of the other collections. *)
Lemma pullPhase_chain (env : Env) (w : World) :
  let r := pullReplies env (w_calls w) in
  let w1 := foldl (putProduct env) (call (CallSelect products) w) (rowsOf r.1.1.1) in
  let w2 := foldl (putSale env) (call (CallSelect sales) w1) (rowsOf r.1.1.2) in
  let w3 := foldl putNotification (call (CallSelect notifications) w2)
                  (rowsOf r.1.2) in
  let w4 := foldl putSetting (call (CallSelect settings) w3) (rowsOf r.2) in
  (pullPhase env w).2 = w4 /\
  (pullPhase env w).1 =
    (negb (pullFails r.1.1.1), negb (pullFails r.1.1.2),
     negb (pullFails r.1.2), negb (pullFails r.2)) /\
  db_products (w_db w4) = db_products (w_db w1) /\
  db_sales (w_db w4) = db_sales (w_db w2) /\
  db_sales (w_db (call (CallSelect sales) w1)) = db_sales (w_db w) /\
  db_notifications (w_db w4) = db_notifications (w_db w3) /\
  db_notifications (w_db (call (CallSelect notifications) w2))
    = db_notifications (w_db w) /\
  db_settings (w_db (call (CallSelect settings) w3)) = db_settings (w_db w) /\
  db_images (w_db w4) = db_images (w_db w) /\
  db_mutations (w_db w4) = db_mutations (w_db w) /\
  db_syncMeta (w_db w4) = db_syncMeta (w_db w) /\
  (w_clock w1 <= w_clock w2)%nat /\ (w_clock w2 <= w_clock w4)%nat.
Proof.
  intros r w1 w2 w3 w4. subst w4 w3 w2 w1 r.
  pose proof (pullPhase_loops env w) as Hl.
  destruct (pullReplies env (w_calls w)) as [[[rp rs] rn] rt].
  cbn [fst snd] in *. cbn zeta in Hl. rewrite Hl. cbn [fst snd].
  set (w1 := foldl (putProduct env) (call (CallSelect products) w) (rowsOf rp)).
  set (w2 := foldl (putSale env) (call (CallSelect sales) w1) (rowsOf rs)).
  set (w3 := foldl putNotification (call (CallSelect notifications) w2) (rowsOf rn)).
  set (w4 := foldl putSetting (call (CallSelect settings) w3) (rowsOf rt)).
  destruct (besidesProducts_fields _ w1
    (foldl_putProduct_besides env (rowsOf rp) (call (CallSelect products) w)))
    as (P1 & P2 & P3 & P4 & P5 & P6).
  destruct (besidesSales_fields _ w2
    (foldl_putSale_besides env (rowsOf rs) (call (CallSelect sales) w1)))
    as (S1 & S2 & S3 & S4 & S5 & S6).
  destruct (foldl_putNotification_besides (rowsOf rn)
              (call (CallSelect notifications) w2)) as [Nb Nc].
  destruct (besidesNotifications_fields _ w3 Nb) as (N1 & N2 & N3 & N4 & N5 & N6).
  destruct (foldl_putSetting_besides (rowsOf rt)
              (call (CallSelect settings) w3)) as [Tb Tc].
  destruct (besidesSettings_fields _ w4 Tb) as (T1 & T2 & T3 & T4 & T5 & T6).
  change (w_clock w3 = w_clock w2) in Nc. change (w_clock w4 = w_clock w3) in Tc.
  cbn [call w_db w_clock] in *.
  split; [done|]. split; [done|].
  split; [congruence|]. split; [congruence|]. split; [congruence|].
  split; [congruence|]. split; [congruence|]. split; [congruence|].
  split; [congruence|]. split; [congruence|]. split; [congruence|].
  split.
  - exact (merge_loop_clock (putSale env) (putSale_clock env) (rowsOf rs)
             (call (CallSelect sales) w1)).
  - rewrite Tc, Nc. lia.
Qed.

(** X6. A pull phase never deletes: whatever the four queries return,
    every id stored in products, sales, notifications or settings
    before the phase is still stored after it, a local row whose id is
    not among the rows returned for its collection is left exactly as
    it was, and the images, the mutation queue and the sync metadata
    are untouched. *)
Theorem pull_never_deletes (env : Env) (w : World) :
  let r := pullReplies env (w_calls w) in
  let w' := (pullPhase env w).2 in
  (forall k, is_Some (db_products (w_db w) !! k) ->
             is_Some (db_products (w_db w') !! k)) /\
  (forall k, is_Some (db_sales (w_db w) !! k) ->
             is_Some (db_sales (w_db w') !! k)) /\
  (forall k, is_Some (db_notifications (w_db w) !! k) ->
             is_Some (db_notifications (w_db w') !! k)) /\
  (forall k, is_Some (db_settings (w_db w) !! k) ->
             is_Some (db_settings (w_db w') !! k)) /\
  (forall k, k ∉ (p_id <$> rowsOf r.1.1.1) ->
             db_products (w_db w') !! k = db_products (w_db w) !! k) /\
  (forall k, k ∉ (s_id <$> rowsOf r.1.1.2) ->
             db_sales (w_db w') !! k = db_sales (w_db w) !! k) /\
  (forall k, k ∉ (n_id <$> rowsOf r.1.2) ->
             db_notifications (w_db w') !! k = db_notifications (w_db w) !! k) /\
  (forall k, k ∉ (t_id <$> rowsOf r.2) ->
             db_settings (w_db w') !! k = db_settings (w_db w) !! k) /\
  db_images (w_db w') = db_images (w_db w) /\
  db_mutations (w_db w') = db_mutations (w_db w) /\
  db_syncMeta (w_db w') = db_syncMeta (w_db w).
Proof.
  intros r w'.
  destruct (pullPhase_chain env w)
    as (Hw & _ & Hp & Hs & Hs0 & Hn & Hn0 & Ht0 & Hi & Hm & Hy & _).
  fold r in Hw, Hp, Hs, Hs0, Hn, Hn0, Ht0, Hi, Hm, Hy.
  unfold w'. rewrite Hw.
  set (kp := merge_loop_keeps (fun w => db_products (w_db w)) p_id _ _
               (putProduct_table env)).
  set (ks := merge_loop_keeps (fun w => db_sales (w_db w)) s_id _ _
               (putSale_table env)).
  set (kn := merge_loop_keeps (fun w => db_notifications (w_db w)) n_id _ _
               putNotification_table).
  set (kt := merge_loop_keeps (fun w => db_settings (w_db w)) t_id _ _
               putSetting_table).
  set (op := merge_loop_other (fun w => db_products (w_db w)) p_id _ _
               (putProduct_table env)).
  set (os := merge_loop_other (fun w => db_sales (w_db w)) s_id _ _
               (putSale_table env)).
  set (on := merge_loop_other (fun w => db_notifications (w_db w)) n_id _ _
               putNotification_table).
  set (ot := merge_loop_other (fun w => db_settings (w_db w)) t_id _ _
               putSetting_table).
  split; [|split; [|split; [|split; [|split; [|split; [|split; [|split]]]]]]].
  - intros k Hk. rewrite Hp. by apply kp.
  - intros k Hk. rewrite Hs. apply ks. cbn beta. by rewrite Hs0.
  - intros k Hk. rewrite Hn. apply kn. cbn beta. by rewrite Hn0.
  - intros k Hk. apply kt. cbn beta. by rewrite Ht0.
  - intros k Hk. rewrite Hp. by rewrite op.
  - intros k Hk. rewrite Hs. rewrite os by done. cbn beta. by rewrite Hs0.
  - intros k Hk. rewrite Hn. rewrite on by done. cbn beta. by rewrite Hn0.
  - intros k Hk. rewrite ot by done. cbn beta. by rewrite Ht0.
  - done.
Qed.

(** X7. The pull phase is best effort: it always issues the four
    queries, in the order products, sales, notifications, settings,
    and the flag of each collection is [false] exactly when its own
    query rejected or answered with an error other than
    relation-not-found.  A collection whose query failed, found no
    relation or returned no rows is left exactly as it was, whatever
    happened to the others. *)
Theorem pull_failure_stays_local (env : Env) (w : World) :
  let r := pullReplies env (w_calls w) in
  let w' := (pullPhase env w).2 in
  (pullPhase env w).1 =
    (negb (pullFails r.1.1.1), negb (pullFails r.1.1.2),
     negb (pullFails r.1.2), negb (pullFails r.2)) /\
  w_calls w' =
    w_calls w ++ [CallSelect products; CallSelect sales;
                  CallSelect notifications; CallSelect settings] /\
  (rowsOf r.1.1.1 = [] -> db_products (w_db w') = db_products (w_db w)) /\
  (rowsOf r.1.1.2 = [] -> db_sales (w_db w') = db_sales (w_db w)) /\
  (rowsOf r.1.2 = [] -> db_notifications (w_db w') = db_notifications (w_db w)) /\
  (rowsOf r.2 = [] -> db_settings (w_db w') = db_settings (w_db w)) /\
  (pullFails r.1.1.1 = true -> rowsOf r.1.1.1 = []) /\
  (pullFails r.1.1.2 = true -> rowsOf r.1.1.2 = []) /\
  (pullFails r.1.2 = true -> rowsOf r.1.2 = []) /\
  (pullFails r.2 = true -> rowsOf r.2 = []).
Proof.
  intros r w'.
  destruct (pullPhase_chain env w)
    as (Hw & Hf & Hp & Hs & Hs0 & Hn & Hn0 & Ht0 & _).
  fold r in Hw, Hf, Hp, Hs, Hs0, Hn, Hn0, Ht0.
  split; [done|]. split; [apply pullPhase_effect|].
  unfold w'. rewrite Hw.
  split; [intros E; rewrite Hp, E; done|].
  split; [intros E; rewrite Hs, E; cbn [foldl]; by rewrite Hs0|].
  split; [intros E; rewrite Hn, E; cbn [foldl]; by rewrite Hn0|].
  split; [intros E; rewrite E; cbn [foldl]; by rewrite Ht0|].
  repeat split; intros E.
  - by destruct (r.1.1.1).
  - by destruct (r.1.1.2).
  - by destruct (r.1.2).
  - by destruct (r.2).
Qed.

(** X8. A pulled row overwrites the local row of its id.  When the rows
    returned for a collection have distinct ids, then after the phase
    each returned row is stored under its id with the remote fields,
    [synced = true] and, for products, no [image_id]; products and
    sales carry as [lastSyncedAt] a clock reading taken during this
    phase. *)
Theorem pull_overwrites_row (env : Env) (w : World) :
  let r := pullReplies env (w_calls w) in
  let w' := (pullPhase env w).2 in
  (NoDup (p_id <$> rowsOf r.1.1.1) ->
   forall row, row ∈ rowsOf r.1.1.1 ->
     exists k, (w_clock w <= k < w_clock w')%nat /\
       db_products (w_db w') !! p_id row =
         Some (pulledProduct (toISOString_now env k) row)) /\
  (NoDup (s_id <$> rowsOf r.1.1.2) ->
   forall row, row ∈ rowsOf r.1.1.2 ->
     exists k, (w_clock w <= k < w_clock w')%nat /\
       db_sales (w_db w') !! s_id row =
         Some (pulledSale (toISOString_now env k) row)) /\
  (NoDup (n_id <$> rowsOf r.1.2) ->
   forall row, row ∈ rowsOf r.1.2 ->
     db_notifications (w_db w') !! n_id row = Some (localNotification row)) /\
  (NoDup (t_id <$> rowsOf r.2) ->
   forall row, row ∈ rowsOf r.2 ->
     db_settings (w_db w') !! t_id row = Some (localSetting row)).
Proof.
  intros r w'.
  destruct (pullPhase_chain env w)
    as (Hw & _ & Hp & Hs & _ & Hn & _ & _ & _ & _ & _ & Hc12 & Hc24).
  fold r in Hw, Hp, Hs, Hn, Hc12, Hc24.
  unfold w'. rewrite Hw.
  set (w1 := foldl (putProduct env) (call (CallSelect products) w) (rowsOf r.1.1.1))
    in *.
  set (w2 := foldl (putSale env) (call (CallSelect sales) w1) (rowsOf r.1.1.2)) in *.
  set (w3 := foldl putNotification (call (CallSelect notifications) w2)
                   (rowsOf r.1.2)) in *.
  set (w4 := foldl putSetting (call (CallSelect settings) w3) (rowsOf r.2)) in *.
  split; [|split; [|split]].
  - intros Hnd row Hin.
    destruct (merge_loop_row (fun w => db_products (w_db w)) p_id
                (fun w0 r0 => pulledProduct (toISOString_now env (w_clock w0)) r0)
                (putProduct env) (putProduct_table env) (putProduct_clock env)
                (rowsOf r.1.1.1) (call (CallSelect products) w) row Hnd Hin)
      as (w0 & Hl & Hlo & Hhi).
    exists (w_clock w0). fold w1 in Hl, Hhi. rewrite Hp. split; [|done].
    assert (w_clock (putProduct env w0 row) = S (w_clock w0))
      by (by destruct w0 as [[] ? ? ?]).
    cbn [call w_clock] in Hlo. lia.
  - intros Hnd row Hin.
    destruct (merge_loop_row (fun w => db_sales (w_db w)) s_id
                (fun w0 r0 => pulledSale (toISOString_now env (w_clock w0)) r0)
                (putSale env) (putSale_table env) (putSale_clock env)
                (rowsOf r.1.1.2) (call (CallSelect sales) w1) row Hnd Hin)
      as (w0 & Hl & Hlo & Hhi).
    exists (w_clock w0). fold w2 in Hl, Hhi. rewrite Hs. split; [|done].
    assert (w_clock (putSale env w0 row) = S (w_clock w0))
      by (by destruct w0 as [[] ? ? ?]).
    assert (w_clock w <= w_clock w1)%nat.
    { exact (merge_loop_clock (putProduct env) (putProduct_clock env)
               (rowsOf r.1.1.1) (call (CallSelect products) w)). }
    cbn [call w_clock] in Hlo. lia.
  - intros Hnd row Hin.
    destruct (merge_loop_row (fun w => db_notifications (w_db w)) n_id
                (fun _ r0 => localNotification r0)
                putNotification putNotification_table putNotification_clock
                (rowsOf r.1.2) (call (CallSelect notifications) w2) row Hnd Hin)
      as (w0 & Hl & _). fold w3 in Hl. by rewrite Hn.
  - intros Hnd row Hin.
    destruct (merge_loop_row (fun w => db_settings (w_db w)) t_id
                (fun _ r0 => localSetting r0)
                putSetting putSetting_table putSetting_clock
                (rowsOf r.2) (call (CallSelect settings) w3) row Hnd Hin)
      as (w0 & Hl & _). by fold w4 in Hl.
Qed.

(** ** Push: what happens to each pending mutation *)

Lemma applyMutation_outcome (env : Env) (st : PushState) (m : MutationRecord) :
  (queueOf (applyMutation env st m) = markMutationSynced (m_id m) (queueOf st) /\
   ps_failedCount (applyMutation env st m) = ps_failedCount st /\
   ps_syncedCount (applyMutation env st m) = S (ps_syncedCount st)) \/
  (exists e,
     queueOf (applyMutation env st m) = markMutationFailed (m_id m) e (queueOf st) /\
     ps_failedCount (applyMutation env st m) = S (ps_failedCount st) /\
     ps_syncedCount (applyMutation env st m) = ps_syncedCount st).
Proof.
  unfold queueOf. destruct st as [[[] ? ? ?] ? ? ?].
  push_unfold. cbn. push_cases; eauto.
Qed.

Lemma applyMutation_calls (env : Env) (st : PushState) (m : MutationRecord) :
  w_calls (ps_world (applyMutation env st m)) = w_calls (ps_world st) \/
  exists c, writesTo (m_table m) c /\
    w_calls (ps_world (applyMutation env st m)) = w_calls (ps_world st) ++ [c].
Proof.
  destruct st as [[[] ? ? ?] ? ? ?].
  push_unfold. cbn.
  push_cases;
    first [by left | right; eexists; split; [|reflexivity]; cbn; congruence].
Qed.

Lemma applyMutation_verdict (env : Env) (st : PushState) (m : MutationRecord) :
  let st' := applyMutation env st m in
  (queueOf st' = markMutationSynced (m_id m) (queueOf st) /\
   ((w_calls (ps_world st') = w_calls (ps_world st) /\ notTransmitted m) \/
    (exists c, writesTo (m_table m) c /\
       w_calls (ps_world st') = w_calls (ps_world st) ++ [c] /\
       reply env (w_calls (ps_world st)) c = ReplyOk))) \/
  (exists e c,
     queueOf st' = markMutationFailed (m_id m) e (queueOf st) /\
     writesTo (m_table m) c /\
     w_calls (ps_world st') = w_calls (ps_world st) ++ [c]).
Proof.
  unfold queueOf, notTransmitted. destruct st as [[[] ? ? ?] ? ? ?].
  push_unfold. cbn.
  push_cases.
  all: first
    [ left; split; [reflexivity|]; left; split; [reflexivity|];
      first [ by left
            | right; split; [done|]; eexists; split; [reflexivity|]; done ]
    | left; split; [reflexivity|]; right; eexists;
      split; [|split; [reflexivity|]]; [cbn; congruence|done]
    | right; eexists _, _; split; [reflexivity|];
      split; [|reflexivity]; cbn; congruence ].
Qed.

Lemma applyPass_counts (env : Env) (ms : list MutationRecord) (st : PushState) :
  (ps_failedCount st <= ps_failedCount (applyPass env ms st))%nat /\
  (ps_syncedCount (applyPass env ms st) + ps_failedCount (applyPass env ms st)
   = ps_syncedCount st + ps_failedCount st + length ms)%nat.
Proof.
  revert st. induction ms as [|m ms IH]; intros st; [cbn; lia|].
  unfold applyPass in *. cbn [foldl length].
  destruct (IH (applyMutation env st m)) as [Hle Hsum].
  destruct (applyMutation_outcome env st m) as [(_ & Hf & Hs) | (e & _ & Hf & Hs)];
    rewrite Hf, Hs in *; lia.
Qed.

Lemma applyPass_calls (env : Env) (ms : list MutationRecord) (st : PushState) :
  exists cs, w_calls (ps_world (applyPass env ms st)) = w_calls (ps_world st) ++ cs /\
             (length cs <= length ms)%nat /\ Forall isWrite cs.
Proof.
  revert st. induction ms as [|m ms IH]; intros st.
  { exists []. by rewrite app_nil_r. }
  unfold applyPass in *. cbn [foldl length].
  destruct (IH (applyMutation env st m)) as (cs & -> & Hlen & Hall).
  destruct (applyMutation_calls env st m) as [-> | (c & Hc & ->)].
  - exists cs. split; [done|]. split; [lia|done].
  - exists (c :: cs). rewrite <- app_assoc. split; [done|]. split; [cbn; lia|].
    constructor; [by exists (m_table m)|done].
Qed.

(** X9. In a push that gets past the preflight, every pending mutation
    ends in one of two ways.  Either its iteration of the apply pass
    marks it synced and it is gone from the queue when the push
    returns: after exactly one write to its collection that the backend
    accepted, or without any remote call when it is an UPDATE or DELETE
    of a record whose id still carries the placeholder prefix of its
    collection, or a mutation of the images table.  Or its iteration
    has sent one write to its collection and it is still queued, with
    its retry count raised by one, the error text recorded and the
    status the retry ceiling gives.  A push that reports success has
    removed it.  When the push returns, no row of the queue has status
    ['synced'], and the mutations counted as synced and as failed add
    up to the pending ones. *)
Theorem push_outcome_per_mutation (env : Env) (w : World) (m : MutationRecord) :
  well_keyed (db_mutations (w_db w)) ->
  m ∈ getPendingMutations (db_mutations (w_db w)) ->
  preflightPasses env w ->
  let r := pushPendingMutations env w in
  let q' := db_mutations (w_db r.2) in
  let st0 := mkPush (beforeApply env w).1.1 (beforeApply env w).1.2 0 0 in
  (exists l1 m' l2 sent,
     (beforeApply env w).2 = l1 ++ (m' :: l2) /\ sameButPayload m m' /\
     let st := applyPass env l1 st0 in
     w_calls (ps_world (applyMutation env st m')) = w_calls (ps_world st) ++ sent /\
     ((q' !! m_id m = None /\
       ((sent = [] /\ notTransmitted m) \/
        (exists c, sent = [c] /\ writesTo (m_table m) c /\
                   reply env (w_calls (ps_world st)) c = ReplyOk))) \/
      (exists e c,
         sent = [c] /\ writesTo (m_table m) c /\
         q' !! m_id m =
           Some (set_outcome
                   (if maxRetries <=? m_retries m + 1 then failed else pending)
                   (m_retries m + 1) (Some e) m)))) /\
  (success r.1 = true -> q' !! m_id m = None) /\
  (forall k m0, q' !! k = Some m0 -> m_status m0 <> synced) /\
  (exists st, r = afterApply st /\
     (ps_syncedCount st + ps_failedCount st)%nat =
       length (getPendingMutations (db_mutations (w_db w)))).
Proof.
  intros Hk Hin Hpass r q' st0.
  destruct (apply_order_split env w m Hk Hin) as (l1 & m' & l2 & Hsplit & Hm' & Hn1 & Hn2).
  assert (Hne : getPendingMutations (db_mutations (w_db w)) <> []).
  { intros Hnil. rewrite Hnil in Hin. by apply elem_of_nil in Hin. }
  unfold q', r. rewrite (pushPendingMutations_phases env w Hne Hpass). fold st0.
  destruct (beforeApply_spec env w) as (_ & Hms & Hq & _).
  assert (Hq0 : queueOf st0 !! m_id m = Some m).
  { unfold queueOf, st0. cbn [ps_world]. rewrite Hq.
    by apply getPendingMutations_spec. }
  set (st1 := applyPass env l1 st0).
  set (st3 := applyPass env l2 (applyMutation env st1 m')).
  assert (Hst : applyPass env (beforeApply env w).2 st0 = st3).
  { rewrite Hsplit. unfold st3, st1, applyPass. by rewrite foldl_app. }
  rewrite Hst.
  assert (Hq1 : queueOf st1 !! m_id m = Some m).
  { unfold st1. by rewrite applyPass_other. }
  destruct (sameButPayload_fields _ _ Hm') as (Hid & Htab & Hop & Hrec).
  assert (Hq3 : queueOf st3 !! m_id m = queueOf (applyMutation env st1 m') !! m_id m).
  { unfold st3. by rewrite applyPass_other. }
  destruct (applyPass_counts env l2 (applyMutation env st1 m')) as [Hle _].
  fold st3 in Hle.
  assert (Hclear : forall st, db_mutations (w_db (afterApply st).2)
                              = clearSyncedMutations (queueOf st)).
  { intros st. unfold afterApply, queueOf. by destruct st as [[[] ? ? ?] ? ? ?]. }
  rewrite Hclear.
  assert (Hsucc : success (afterApply st3).1 = bool_decide (ps_failedCount st3 = 0%nat))
    by done.
  rewrite Hsucc.
  assert (Hgone : queueOf (applyMutation env st1 m')
                    = markMutationSynced (m_id m') (queueOf st1) ->
                  clearSyncedMutations (queueOf st3) !! m_id m = None).
  { intros Hs. eapply clearSyncedMutations_synced; [rewrite Hq3, Hs|].
    - unfold markMutationSynced. rewrite Hid, lookup_alter_eq, Hq1. reflexivity.
    - done. }
  split; [|split; [|split]].
  - exists l1, m', l2.
    destruct (applyMutation_verdict env st1 m')
      as [(Hs & [(Hc & Hskip) | (c & Hw & Hc & Hok)]) | (e & c & Hf & Hw & Hc)].
    + exists []. split; [done|]. split; [done|]. cbn zeta. fold st1.
      split; [by rewrite app_nil_r|]. left. split; [by apply Hgone|]. left.
      split; [done|]. unfold notTransmitted in *. by rewrite <- Htab, <- Hop, <- Hrec.
    + exists [c]. split; [done|]. split; [done|]. cbn zeta. fold st1.
      split; [done|]. left. split; [by apply Hgone|]. right.
      exists c. rewrite <- Htab. by repeat split.
    + exists [c]. split; [done|]. split; [done|]. cbn zeta. fold st1.
      split; [done|]. right. exists e, c. split; [done|]. split; [by rewrite <- Htab|].
      apply clearSyncedMutations_kept.
      * rewrite Hq3, Hf, Hid. by apply markMutationFailed_lookup.
      * cbn. by destruct (maxRetries <=? m_retries m + 1).
  - intros Hok%bool_decide_eq_true.
    destruct (applyMutation_outcome env st1 m') as [(Hs & _) | (e & _ & Hf & _)].
    + by apply Hgone.
    + rewrite Hf in Hle. lia.
  - intros k m0 Hm0. unfold clearSyncedMutations in Hm0.
    by apply map_lookup_filter_Some in Hm0 as [_ ?].
  - exists st3. split; [done|].
    destruct (applyPass_counts env (beforeApply env w).2 st0) as [_ Hsum].
    rewrite Hst in Hsum. rewrite Hsum. cbn [st0 ps_syncedCount ps_failedCount].
    by rewrite (Forall2_length _ _ _ Hms).
Qed.

Lemma push_outcome_per_mutation_witness :
  well_keyed (db_mutations (w_db offlineWorld)) /\
  restockProduct ∈ getPendingMutations (db_mutations (w_db offlineWorld)) /\
  preflightPasses shopBackend offlineWorld /\
  let r := pushPendingMutations shopBackend offlineWorld in
  let q' := db_mutations (w_db r.2) in
  success r.1 = true /\
  q' !! m_id restockProduct = None /\
  notTransmitted restockProduct /\
  (forall k m0, q' !! k = Some m0 -> m_status m0 <> synced).
Proof.
  assert (Hin : restockProduct ∈ getPendingMutations (db_mutations (w_db offlineWorld))).
  { apply (pending_stored _ (m_id restockProduct)); reflexivity. }
  split; [exact offlineQueue_well_keyed|]. split; [exact Hin|].
  split; [reflexivity|].
  destruct (push_outcome_per_mutation shopBackend offlineWorld restockProduct
              offlineQueue_well_keyed Hin eq_refl) as (_ & Hgone & Hnone & _).
  assert (Hok : success (pushPendingMutations shopBackend offlineWorld).1 = true)
    by (vm_compute; reflexivity).
  split; [exact Hok|]. split; [exact (Hgone Hok)|]. split; [|exact Hnone].
  right. split; [discriminate|]. exists "local_". by split.
Defined.

(** X10. A push only ever appends to the remote call log, and sends
    little: nothing at all when no mutation is pending; otherwise the
    preflight check first and then at most one call per pending
    mutation, each of them an insert, update or delete; and only the
    preflight check when that check aborts the push. *)
Theorem push_sends_at_most_one_call_per_mutation (env : Env) (w : World) :
  let pend := getPendingMutations (db_mutations (w_db w)) in
  exists cs,
    w_calls (pushPendingMutations env w).2 = w_calls w ++ cs /\
    (pend = [] -> cs = []) /\
    (pend <> [] ->
       exists ws, cs = CallHead products :: ws /\
                  (length ws <= length pend)%nat /\
                  Forall isWrite ws /\
                  (preflightAborts (reply env (w_calls w) (CallHead products)) = true ->
                   ws = [])).
Proof.
  intros pend.
  destruct (decide (pend = [])) as [Hnil|Hne].
  { exists []. unfold pend in Hnil.
    rewrite (pushPendingMutations_nothing_pending env w Hnil), app_nil_r.
    by split. }
  destruct (preflightAborts (reply env (w_calls w) (CallHead products))) eqn:Hab.
  { exists [CallHead products].
    rewrite (pushPendingMutations_aborted env w Hne Hab).
    split; [done|]. split; [by intros ?|]. intros _. exists [].
    split; [done|]. split; [cbn; lia|]. by split. }
  rewrite (pushPendingMutations_phases env w Hne Hab).
  destruct (beforeApply_spec env w) as (_ & Hms & _ & _ & Hc & _).
  destruct (applyPass_calls env (beforeApply env w).2
              (mkPush (beforeApply env w).1.1 (beforeApply env w).1.2 0 0))
    as (ws & Hws & Hlen & Hall).
  cbn [ps_world] in Hws. rewrite Hc in Hws.
  exists (CallHead products :: ws). split.
  - unfold afterApply. cbn [snd].
    destruct (applyPass env _ _) as [[[] ? ? ?] ? ? ?]. cbn in *.
    rewrite Hws. by rewrite <- app_assoc.
  - split; [by intros ?|]. intros _. exists ws. split; [done|].
    split; [unfold pend; by rewrite (Forall2_length _ _ _ Hms)|]. by split.
Qed.

(** ** Push: placeholder identifiers *)

Lemma rewritePass_array (ids : gmap string string) (ms seen : list MutationRecord)
    (w : World) :
  (foldl (rewriteSaleMutation ids) (w, seen) ms).2 =
    seen ++ (rewrittenMutation ids <$> ms).
Proof.
  revert w seen. induction ms as [|m ms IH]; intros w seen; cbn [foldl].
  { cbn. by rewrite app_nil_r. }
  assert (H : exists w', rewriteSaleMutation ids (w, seen) m =
                         (w', seen ++ [rewrittenMutation ids m])).
  { unfold rewriteSaleMutation, rewrittenMutation.
    destruct (bool_decide (m_table m = sales)); [|by eexists].
    destruct (payloadProductId (m_payload m)) as [pid|]; cbn; [|by eexists].
    destruct (mapped ids pid); by eexists. }
  destruct H as [w' ->]. rewrite IH. cbn. by rewrite <- app_assoc.
Qed.

Lemma beforeApply_array (env : Env) (w : World) :
  (beforeApply env w).2 =
    rewrittenMutation (beforeApply env w).1.2
      <$> getPendingMutations (db_mutations (w_db w)).
Proof.
  unfold beforeApply.
  destruct (premapPass env _ _) as [w1 ids1].
  pose proof (rewritePass_array ids1
                (getPendingMutations (db_mutations (w_db w))) [] w1) as H.
  unfold rewritePass. by destruct (foldl _ _ _) as [w2 ms'].
Qed.

Lemma applyMutation_ids_local (env : Env) (st : PushState) (m : MutationRecord)
    (key : string) :
  startsWith key "local_" = true ->
  ps_idMappings (applyMutation env st m) !! key = ps_idMappings st !! key.
Proof.
  intros Hkey.
  assert (Hne : forall t prefix, t <> products ->
            placeholderPrefix t = Some prefix ->
            startsWith (m_recordId m) prefix = true -> m_recordId m <> key).
  { intros t prefix Ht Hp Hs Heq. rewrite Heq in Hs.
    pose proof (other_prefix_not_local t prefix key Ht Hp Hs). congruence. }
  destruct st as [[[] ? ? ?] ? ? ?].
  push_unfold. cbn.
  push_cases; try done;
    rewrite lookup_insert_ne; try done;
    first [ by apply (Hne sales "sale_")
          | by apply (Hne notifications "notif_")
          | by apply (Hne settings "setting_") ].
Qed.

Lemma applyPass_ids_local (env : Env) (ms : list MutationRecord) (st : PushState)
    (key : string) :
  startsWith key "local_" = true ->
  ps_idMappings (applyPass env ms st) !! key = ps_idMappings st !! key.
Proof.
  intros Hkey. revert st. induction ms as [|m ms IH]; intros st; [done|].
  unfold applyPass in *. cbn [foldl]. rewrite IH.
  by apply applyMutation_ids_local.
Qed.

Lemma product_insert_call (env : Env) (st : PushState) (m : MutationRecord) :
  m_table m = products -> m_operation m = INSERT ->
  startsWith (m_recordId m) "local_" = true ->
  w_calls (ps_world (applyMutation env st m)) =
    w_calls (ps_world st) ++
      [CallInsert products
         (localPayload (m_payload m) (mappedVal (ps_idMappings st) (m_recordId m)))].
Proof.
  intros Ht Ho Hp. destruct st as [[[] ? ? ?] ? ? ?].
  unfold applyMutation, tryBody. rewrite Ht, Ho, Hp.
  push_unfold. cbn. push_cases; done.
Qed.

Lemma localPayload_lookup (payload : gmap string JsVal) (v : JsVal) (field : string) :
  field <> "id" -> field <> "synced" ->
  localPayload payload v !! field = payload !! field.
Proof.
  intros H1 H2. unfold localPayload.
  by rewrite lookup_delete_ne, lookup_insert_ne.
Qed.

Lemma sale_insert_call (env : Env) (st : PushState) (m : MutationRecord) :
  m_table m = sales -> m_operation m = INSERT ->
  exists payload,
    w_calls (ps_world (applyMutation env st m)) =
      w_calls (ps_world st) ++ [CallInsert sales payload] /\
    payload !! "product_id" = m_payload m !! "product_id".
Proof.
  intros Ht Ho. destruct st as [[[] ? ? ?] ? ? ?].
  unfold applyMutation, tryBody. rewrite Ht, Ho.
  push_unfold. cbn.
  push_cases; eexists; (split; [reflexivity|]);
    first [done | by apply localPayload_lookup].
Qed.

Lemma rewrittenMutation_same (ids : gmap string string) (m : MutationRecord) :
  sameButPayload m (rewrittenMutation ids m).
Proof.
  unfold rewrittenMutation, sameButPayload.
  destruct (bool_decide _); [|by destruct m].
  destruct (_ ≫= _); by destruct m.
Qed.

Lemma apply_array_split (env : Env) (w : World) (m : MutationRecord) :
  m ∈ getPendingMutations (db_mutations (w_db w)) ->
  exists l1 l2,
    (beforeApply env w).2 =
      l1 ++ (rewrittenMutation (beforeApply env w).1.2 m :: l2).
Proof.
  intros (p1 & p2 & Hp)%list_elem_of_split.
  rewrite beforeApply_array, Hp, fmap_app, fmap_cons. eauto.
Qed.

(** X11. Placeholder resolution.  Let a product and a sale of it have
    been created offline: a pending INSERT of a product under a
    ['local_'] id and a pending INSERT of a sale whose payload names
    that id as [product_id].  If the generator never returns the empty
    string, the pre-pass assigns the product a new UUID, and in the
    apply pass both the product insert that is transmitted (as its
    [id]) and the sale insert that is transmitted (as its
    [product_id]) carry that UUID, whichever of the two is processed
    first. *)
Theorem offline_sale_follows_product (env : Env) (w : World)
    (mp ms : MutationRecord) :
  mp ∈ getPendingMutations (db_mutations (w_db w)) ->
  m_table mp = products -> m_operation mp = INSERT ->
  startsWith (m_recordId mp) "local_" = true ->
  ms ∈ getPendingMutations (db_mutations (w_db w)) ->
  m_table ms = sales -> m_operation ms = INSERT ->
  m_payload ms !! "product_id" = Some (JStr (m_recordId mp)) ->
  (forall k, uuidv4 env k <> "") ->
  let st0 := mkPush (beforeApply env w).1.1 (beforeApply env w).1.2 0 0 in
  exists newId,
    (beforeApply env w).1.2 !! m_recordId mp = Some newId /\
    (exists l1 mp' l2 payload,
       (beforeApply env w).2 = l1 ++ (mp' :: l2) /\ sameButPayload mp mp' /\
       w_calls (ps_world (applyMutation env (applyPass env l1 st0) mp')) =
         w_calls (ps_world (applyPass env l1 st0)) ++ [CallInsert products payload] /\
       payload !! "id" = Some (JStr newId)) /\
    (exists l1 ms' l2 payload,
       (beforeApply env w).2 = l1 ++ (ms' :: l2) /\ sameButPayload ms ms' /\
       w_calls (ps_world (applyMutation env (applyPass env l1 st0) ms')) =
         w_calls (ps_world (applyPass env l1 st0)) ++ [CallInsert sales payload] /\
       payload !! "product_id" = Some (JStr newId)).
Proof.
  intros Hmp Htp Hop Hpp Hms Hts Hos Hpay Huuid st0.
  destruct (beforeApply_spec env w) as (Hids & _).
  destruct (premap_invariant env (getPendingMutations (db_mutations (w_db w)))
              (call (CallHead products) w) ∅) as (_ & _ & _ & _ & _ & _ & Hall).
  destruct (Hall mp Hmp Htp Hop Hpp) as (newId & Hnew & (k & _ & Hk)).
  unfold premapPass in Hids. rewrite <- Hids in Hnew.
  assert (Hnz : newId <> "") by (rewrite Hk; apply Huuid).
  exists newId. split; [done|]. split.
  - destruct (apply_array_split env w mp Hmp) as (l1 & l2 & Hsplit).
    set (mp' := rewrittenMutation (beforeApply env w).1.2 mp) in *.
    pose proof (rewrittenMutation_same (beforeApply env w).1.2 mp) as Hsame.
    destruct (sameButPayload_fields _ _ Hsame) as (_ & Ht' & Ho' & Hr').
    fold mp' in Hsame, Ht', Ho', Hr'.
    eexists l1, mp', l2, _. split; [done|]. split; [done|]. split.
    + apply product_insert_call; by rewrite ?Ht', ?Ho', ?Hr'.
    + unfold localPayload. rewrite lookup_delete_ne by done.
      rewrite lookup_insert_eq. unfold mappedVal.
      rewrite applyPass_ids_local by (by rewrite Hr').
      cbn [st0 ps_idMappings]. by rewrite Hr', Hnew.
  - destruct (apply_array_split env w ms Hms) as (l1 & l2 & Hsplit).
    set (ms' := rewrittenMutation (beforeApply env w).1.2 ms) in *.
    pose proof (rewrittenMutation_same (beforeApply env w).1.2 ms) as Hsame.
    destruct (sameButPayload_fields _ _ Hsame) as (_ & Ht' & Ho' & _).
    fold ms' in Hsame, Ht', Ho'.
    destruct (sale_insert_call env (applyPass env l1 st0) ms')
      as (payload & Hcall & Hfield); [by rewrite Ht'|by rewrite Ho'|].
    exists l1, ms', l2, payload. split; [done|]. split; [done|]. split; [done|].
    rewrite Hfield. unfold ms', rewrittenMutation.
    rewrite bool_decide_eq_true_2 by done.
    assert (Hpid : payloadProductId (m_payload ms) = Some (m_recordId mp)).
    { unfold payloadProductId. rewrite Hpay.
      rewrite bool_decide_eq_false_2; [done|].
      intros E. rewrite E in Hpp. discriminate Hpp. }
    rewrite Hpid. cbn [mbind option_bind]. unfold mapped. rewrite Hnew.
    rewrite bool_decide_eq_false_2 by done.
    cbn [set_payload m_payload]. by rewrite lookup_insert_eq.
Qed.

Lemma offline_sale_follows_product_witness :
  insertProduct ∈ getPendingMutations (db_mutations (w_db offlineWorld)) /\
  m_table insertProduct = products /\ m_operation insertProduct = INSERT /\
  startsWith (m_recordId insertProduct) "local_" = true /\
  insertSale ∈ getPendingMutations (db_mutations (w_db offlineWorld)) /\
  m_table insertSale = sales /\ m_operation insertSale = INSERT /\
  m_payload insertSale !! "product_id" = Some (JStr (m_recordId insertProduct)) /\
  (forall k, uuidv4 shopBackend k <> "") /\
  let st0 := mkPush (beforeApply shopBackend offlineWorld).1.1
                    (beforeApply shopBackend offlineWorld).1.2 0 0 in
  exists newId,
    (beforeApply shopBackend offlineWorld).1.2 !! m_recordId insertProduct
      = Some newId /\
    (exists l1 mp' l2 payload,
       (beforeApply shopBackend offlineWorld).2 = l1 ++ (mp' :: l2) /\
       sameButPayload insertProduct mp' /\
       w_calls (ps_world (applyMutation shopBackend
                            (applyPass shopBackend l1 st0) mp')) =
         w_calls (ps_world (applyPass shopBackend l1 st0))
           ++ [CallInsert products payload] /\
       payload !! "id" = Some (JStr newId)) /\
    (exists l1 ms' l2 payload,
       (beforeApply shopBackend offlineWorld).2 = l1 ++ (ms' :: l2) /\
       sameButPayload insertSale ms' /\
       w_calls (ps_world (applyMutation shopBackend
                            (applyPass shopBackend l1 st0) ms')) =
         w_calls (ps_world (applyPass shopBackend l1 st0))
           ++ [CallInsert sales payload] /\
       payload !! "product_id" = Some (JStr newId)).
Proof.
  assert (Hp : insertProduct ∈ getPendingMutations (db_mutations (w_db offlineWorld))).
  { apply (pending_stored _ (m_id insertProduct)); reflexivity. }
  assert (Hs : insertSale ∈ getPendingMutations (db_mutations (w_db offlineWorld))).
  { apply (pending_stored _ (m_id insertSale)); reflexivity. }
  assert (Hu : forall k, uuidv4 shopBackend k <> "").
  { intros [|k]; discriminate. }
  split; [exact Hp|]. split; [reflexivity|]. split; [reflexivity|].
  split; [reflexivity|]. split; [exact Hs|]. split; [reflexivity|].
  split; [reflexivity|]. split; [reflexivity|]. split; [exact Hu|].
  exact (offline_sale_follows_product shopBackend offlineWorld insertProduct
           insertSale Hp eq_refl eq_refl eq_refl Hs eq_refl eq_refl eq_refl Hu).
Defined.

(** X12. The iteration of the apply pass for an offline-created
    product whose placeholder id is mapped to [newId].  If the backend
    accepts the insert and the local row exists, the row is moved from
    the placeholder id to [newId] with [synced = true] and a fresh
    stamp, and the mutation is marked synced.  If the backend refuses
    or the call throws, the products table is untouched and the failure
    is recorded on the mutation.  If the local row is missing the
    mutation is still marked synced.  If [newId] is already stored, the
    placeholder row has been deleted before [add] rejects, and the
    mutation is marked failed. *)
Theorem product_insert_rekeys (env : Env) (st : PushState) (m : MutationRecord)
    (newId : string) :
  m_table m = products -> m_operation m = INSERT ->
  startsWith (m_recordId m) "local_" = true ->
  ps_idMappings st !! m_recordId m = Some newId ->
  let sent := CallInsert products (localPayload (m_payload m) (JStr newId)) in
  let answer := reply env (w_calls (ps_world st)) sent in
  let st' := applyMutation env st m in
  let moved := delete (m_recordId m) (productsOf st) in
  w_calls (ps_world st') = w_calls (ps_world st) ++ [sent] /\
  (answer <> ReplyOk ->
     productsOf st' = productsOf st /\
     queueOf st' =
       markMutationFailed (m_id m) (String_ env (RemoteFailure answer)) (queueOf st)) /\
  (answer = ReplyOk -> productsOf st !! m_recordId m = None ->
     productsOf st' = productsOf st /\
     queueOf st' = markMutationSynced (m_id m) (queueOf st)) /\
  (answer = ReplyOk ->
   forall local, productsOf st !! m_recordId m = Some local ->
     (moved !! newId = None ->
        productsOf st' =
          <[newId := lp_rekey newId (toISOString_now env (w_clock (ps_world st)))
                              local]> moved /\
        queueOf st' = markMutationSynced (m_id m) (queueOf st)) /\
     (is_Some (moved !! newId) ->
        productsOf st' = moved /\
        queueOf st' =
          markMutationFailed (m_id m) (String_ env LocalStoreFailure) (queueOf st))).
Proof.
  intros Ht Ho Hp Hid sent answer st' moved.
  subst sent answer st' moved. unfold productsOf, queueOf.
  destruct st as [[[] ? ? ?] ? ? ?]. cbn in Hid.
  unfold applyMutation, tryBody. rewrite Ht, Ho, Hp.
  unfold mappedVal. cbn [ps_idMappings]. rewrite Hid.
  push_unfold. cbn.
  split; [push_cases; done|].
  split; [|split].
  - intros Hans. push_cases; done.
  - intros Hans Hnone. rewrite Hans. cbn. rewrite Hnone. done.
  - intros Hans local Hloc. rewrite Hans. cbn. rewrite Hloc.
    unfold payloadId, localPayload.
    rewrite (lookup_delete_ne (<["id" := JStr newId]> (m_payload m)) "synced" "id")
      by done.
    rewrite lookup_insert_eq. cbn. split.
    + intros Hfree. rewrite Hfree. done.
    + intros [x Hx]. rewrite Hx. done.
Qed.

Lemma product_insert_rekeys_witness :
  let newId := "0b8c7d1e-5a3f-4c2b-9e6d-1f2a3b4c5d6e" in
  let st := mkPush offlineWorld {["local_1704189000000" := newId]} 0 0 in
  let st' := applyMutation shopBackend st insertProduct in
  ps_idMappings st !! m_recordId insertProduct = Some newId /\
  productsOf st !! m_recordId insertProduct = Some offlineProduct /\
  productsOf st' =
    <[newId := lp_rekey newId "2024-01-02T10:00:00.000Z" offlineProduct]>
      (delete (m_recordId insertProduct) (productsOf st)) /\
  queueOf st' = markMutationSynced (m_id insertProduct) (queueOf st).
Proof.
  intros newId st st'.
  assert (Hid : ps_idMappings st !! m_recordId insertProduct = Some newId)
    by (vm_compute; reflexivity).
  assert (Hloc : productsOf st !! m_recordId insertProduct = Some offlineProduct)
    by (vm_compute; reflexivity).
  split; [exact Hid|]. split; [exact Hloc|].
  destruct (product_insert_rekeys shopBackend st insertProduct newId
              eq_refl eq_refl eq_refl Hid) as (_ & _ & _ & Hok).
  destruct (Hok eq_refl offlineProduct Hloc) as [Hfree _].
  apply Hfree. vm_compute; reflexivity.
Defined.

(** ** The reference fixup *)

Lemma remapSale_step (env : Env) (ids : gmap string string) (w : World)
    (thrown : bool) (sale : LocalSale) :
  let r := remapSale env ids (w, thrown) sale in
  db_products (w_db r.1) = db_products (w_db w) /\
  db_notifications (w_db r.1) = db_notifications (w_db w) /\
  db_settings (w_db r.1) = db_settings (w_db w) /\
  db_images (w_db r.1) = db_images (w_db w) /\
  db_syncMeta (w_db r.1) = db_syncMeta (w_db w) /\
  w_calls r.1 = w_calls w /\ w_uuids r.1 = w_uuids w /\
  (forall k, set_ls_product_id None <$> db_sales (w_db r.1) !! k =
             set_ls_product_id None <$> db_sales (w_db w) !! k) /\
  (forall k, k <> ls_id sale ->
             db_sales (w_db r.1) !! k = db_sales (w_db w) !! k) /\
  (ls_product_id sale ≫= mapped ids = None ->
   db_sales (w_db r.1) = db_sales (w_db w)) /\
  (forall k m, db_mutations (w_db w) !! k = Some m ->
               db_mutations (w_db r.1) !! k = Some m) /\
  (forall k m, db_mutations (w_db r.1) !! k = Some m ->
               db_mutations (w_db w) !! k = Some m \/
               (m_id m = k /\ m_recordId m = ls_id sale /\ isRemapMutation ids m)).
Proof.
  destruct w as [[] ? ? ?]. unfold remapSale.
  destruct thrown; [cbn; by repeat split; eauto|].
  destruct (ls_product_id sale ≫= mapped ids) as [newId|] eqn:Hmap;
    [|cbn; by repeat split; eauto].
  cbn. destruct (db_mutations0 !! _) as [old|] eqn:Hold; cbn.
  - repeat split; try done; eauto.
    + intros k. destruct (decide (k = ls_id sale)) as [->|Hne].
      * rewrite lookup_alter_eq. by destruct (db_sales0 !! ls_id sale).
      * by rewrite lookup_alter_ne.
    + intros k Hne. by rewrite lookup_alter_ne.
  - repeat split; try done.
    + intros k. destruct (decide (k = ls_id sale)) as [->|Hne].
      * rewrite lookup_alter_eq. by destruct (db_sales0 !! ls_id sale).
      * by rewrite lookup_alter_ne.
    + intros k Hne. by rewrite lookup_alter_ne.
    + intros k m Hm. rewrite lookup_insert_ne; [done|]. congruence.
    + intros k m Hm.
      destruct (decide (k = remapId env w_clock0)) as [->|Hne].
      * rewrite lookup_insert_eq in Hm. injection Hm as <-. right.
        split; [done|]. split; [done|]. unfold isRemapMutation. cbn.
        repeat split; try done.
        destruct (ls_product_id sale) as [oldId|]; [|done]. cbn in Hmap. eauto.
      * rewrite lookup_insert_ne in Hm by done. by left.
Qed.

Lemma remapLoop_frame (env : Env) (ids : gmap string string)
    (sales0 : list LocalSale) (w : World) (thrown : bool) :
  let r := foldl (remapSale env ids) (w, thrown) sales0 in
  db_products (w_db r.1) = db_products (w_db w) /\
  db_notifications (w_db r.1) = db_notifications (w_db w) /\
  db_settings (w_db r.1) = db_settings (w_db w) /\
  db_images (w_db r.1) = db_images (w_db w) /\
  db_syncMeta (w_db r.1) = db_syncMeta (w_db w) /\
  w_calls r.1 = w_calls w /\ w_uuids r.1 = w_uuids w /\
  (forall k, set_ls_product_id None <$> db_sales (w_db r.1) !! k =
             set_ls_product_id None <$> db_sales (w_db w) !! k) /\
  (forall k, k ∉ (ls_id <$> filter
                    (fun s => is_Some (ls_product_id s ≫= mapped ids)) sales0) ->
             db_sales (w_db r.1) !! k = db_sales (w_db w) !! k) /\
  (forall k m, db_mutations (w_db w) !! k = Some m ->
               db_mutations (w_db r.1) !! k = Some m) /\
  (forall k m, db_mutations (w_db r.1) !! k = Some m ->
               db_mutations (w_db w) !! k = Some m \/
               (m_id m = k /\ isRemapMutation ids m /\
                m_recordId m ∈ (ls_id <$> sales0))).
Proof.
  revert w thrown. induction sales0 as [|s rest IH]; intros w thrown.
  { cbn. repeat split; eauto. }
  cbn [foldl].
  destruct (remapSale env ids (w, thrown) s) as [w1 t1] eqn:Hstep.
  pose proof (remapSale_step env ids w thrown s) as Hs. rewrite Hstep in Hs.
  cbn [fst] in Hs.
  destruct Hs as (P1 & P2 & P3 & P4 & P5 & P6 & P7 & P8 & P9 & P10 & P11 & P12).
  specialize (IH w1 t1). cbn zeta in IH.
  destruct IH as (Q1 & Q2 & Q3 & Q4 & Q5 & Q6 & Q7 & Q8 & Q9 & Q11 & Q12).
  cbn zeta.
  split; [congruence|]. split; [congruence|]. split; [congruence|].
  split; [congruence|]. split; [congruence|]. split; [congruence|].
  split; [congruence|].
  split; [intros k; by rewrite Q8, P8|].
  split; [|split].
  - intros k Hk. rewrite filter_cons in Hk.
    destruct (decide (is_Some (ls_product_id s ≫= mapped ids))) as [Hmapped|Hnot].
    + cbn in Hk. apply not_elem_of_cons in Hk as [Hne Hk].
      rewrite Q9 by done. by apply P9.
    + rewrite Q9 by done. rewrite P10; [done|].
      destruct (ls_product_id s ≫= mapped ids); [|done].
      exfalso. apply Hnot. eauto.
  - intros k m Hm. by apply Q11, P11.
  - intros k m Hm. destruct (Q12 k m Hm) as [Hm1 | (Hid & Hr & Hin)].
    + destruct (P12 k m Hm1) as [Hm0 | (Hid & Hrec & Hr)]; [by left|].
      right. split; [done|]. split; [done|]. rewrite Hrec. cbn. left.
    + right. split; [done|]. split; [done|]. cbn. by right.
Qed.

Lemma remapLoop_effect (env : Env) (ids : gmap string string)
    (sales0 : list LocalSale) (w : World) :
  NoDup (ls_id <$> sales0) ->
  (forall s, s ∈ sales0 -> db_sales (w_db w) !! ls_id s = Some s) ->
  remapIdsFresh env (w_clock w) (db_mutations (w_db w)) ->
  let r := foldl (remapSale env ids) (w, false) sales0 in
  forall s newId, s ∈ sales0 -> ls_product_id s ≫= mapped ids = Some newId ->
    db_sales (w_db r.1) !! ls_id s = Some (set_ls_product_id (Some newId) s) /\
    exists key m,
      db_mutations (w_db r.1) !! key = Some m /\ m_id m = key /\
      m_recordId m = ls_id s /\ m_table m = sales /\ m_operation m = UPDATE /\
      m_status m = pending /\ m_payload m = {["product_id" := JStr newId]}.
Proof.
  revert w. induction sales0 as [|s0 rest IH]; intros w Hnd Hsnap Hfresh r s newId Hin Hmap.
  { by apply elem_of_nil in Hin. }
  cbn in Hnd. apply NoDup_cons in Hnd as [Hnot Hnd].
  unfold r. cbn [foldl].
  destruct (ls_product_id s0 ≫= mapped ids) as [new0|] eqn:Hmap0.
  - (* the head sale is rewritten *)
    assert (Hstep : remapSale env ids (w, false) s0 =
      (with_db (with_mutations (insert (remapId env (w_clock w))
         (mkMutation (remapId env (w_clock w)) (clientId env) sales UPDATE (ls_id s0)
            {["product_id" := JStr new0]} (Date_now env (S (w_clock w)))
            pending 0 None)))
         (tick (tick (with_db (with_sales
            (alter (set_ls_product_id (Some new0)) (ls_id s0))) w))), false)).
    { unfold remapSale. rewrite Hmap0. destruct Hfresh as [Hf _].
      specialize (Hf (w_clock w) (le_n _)).
      destruct w as [[] ? ? ?]. cbn in *. by rewrite Hf. }
    rewrite Hstep. set (w1 := with_db _ _).
    assert (Hsales1 : db_sales (w_db w1) =
              alter (set_ls_product_id (Some new0)) (ls_id s0) (db_sales (w_db w)))
      by (by destruct w as [[] ? ? ?]).
    assert (Hq1 : db_mutations (w_db w1) =
              <[remapId env (w_clock w) :=
                  mkMutation (remapId env (w_clock w)) (clientId env) sales UPDATE
                    (ls_id s0) {["product_id" := JStr new0]}
                    (Date_now env (S (w_clock w))) pending 0 None]>
                (db_mutations (w_db w)))
      by (by destruct w as [[] ? ? ?]).
    assert (Hc1 : w_clock w1 = S (S (w_clock w))) by (by destruct w as [[] ? ? ?]).
    assert (Hsnap1 : forall s', s' ∈ rest -> db_sales (w_db w1) !! ls_id s' = Some s').
    { intros s' Hs'. rewrite Hsales1, lookup_alter_ne.
      - apply Hsnap. by right.
      - intros E. apply Hnot. rewrite E. apply list_elem_of_fmap. eauto. }
    assert (Hfresh1 : remapIdsFresh env (w_clock w1) (db_mutations (w_db w1))).
    { destruct Hfresh as [Hf Hinj]. rewrite Hc1, Hq1. split.
      - intros c Hc. rewrite lookup_insert_ne; [apply Hf; lia|].
        intros E. apply Hinj in E; lia.
      - intros c c' Hc Hc'. apply Hinj; lia. }
    apply elem_of_cons in Hin as [->|Hin].
    + rewrite Hmap0 in Hmap. injection Hmap as ->.
      destruct (remapLoop_frame env ids rest w1 false)
        as (_ & _ & _ & _ & _ & _ & _ & _ & Hother & Hkeep & _).
      split.
      * rewrite Hother.
        -- rewrite Hsales1, lookup_alter_eq, (Hsnap s0); [done|left].
        -- intros Hk. apply Hnot.
           apply list_elem_of_fmap in Hk as (s' & -> & Hs').
           apply list_elem_of_filter in Hs' as [_ Hs'].
           apply list_elem_of_fmap. eauto.
      * eexists _, _. split; [apply Hkeep; rewrite Hq1; apply lookup_insert_eq|].
        by repeat split.
    + by apply (IH w1 Hnd Hsnap1 Hfresh1).
  - (* the head sale is not mapped *)
    assert (Hstep : remapSale env ids (w, false) s0 = (w, false)).
    { unfold remapSale. by rewrite Hmap0. }
    rewrite Hstep.
    apply elem_of_cons in Hin as [->|Hin]; [congruence|].
    apply (IH w Hnd); try done. intros s' Hs'. apply Hsnap. by right.
Qed.

(** X13. The reference fixup touches product references only.  It
    leaves products, notifications, settings, images and the sync
    metadata alone and makes no remote call; it keeps every sale under
    its id with every field but [product_id]; it removes and changes no
    queued mutation, and each mutation it adds is a pending UPDATE of a
    sale carrying a mapped id as [product_id].  With an empty mapping
    it does nothing.  When the sales are stored under their ids and the
    generated remap ids are new, every sale whose [product_id] is
    mapped ends with the new id and has such an UPDATE queued, and
    every other sale is unchanged. *)
Theorem updateRemappedReferences_effect (env : Env) (ids : gmap string string)
    (w : World) :
  let w' := updateRemappedReferences env ids w in
  db_products (w_db w') = db_products (w_db w) /\
  db_notifications (w_db w') = db_notifications (w_db w) /\
  db_settings (w_db w') = db_settings (w_db w) /\
  db_images (w_db w') = db_images (w_db w) /\
  db_syncMeta (w_db w') = db_syncMeta (w_db w) /\
  w_calls w' = w_calls w /\
  (forall k, set_ls_product_id None <$> db_sales (w_db w') !! k =
             set_ls_product_id None <$> db_sales (w_db w) !! k) /\
  (forall k m, db_mutations (w_db w) !! k = Some m ->
               db_mutations (w_db w') !! k = Some m) /\
  (forall k m, db_mutations (w_db w') !! k = Some m ->
               db_mutations (w_db w) !! k = Some m \/
               (m_id m = k /\ isRemapMutation ids m)) /\
  (ids = ∅ -> w' = w) /\
  (sales_well_keyed (db_sales (w_db w)) ->
   remapIdsFresh env (w_clock w) (db_mutations (w_db w)) ->
   forall k s, db_sales (w_db w) !! k = Some s ->
     match ls_product_id s ≫= mapped ids with
     | Some newId =>
         db_sales (w_db w') !! k = Some (set_ls_product_id (Some newId) s) /\
         exists key m,
           db_mutations (w_db w') !! key = Some m /\ m_id m = key /\
           m_recordId m = k /\ m_table m = sales /\ m_operation m = UPDATE /\
           m_status m = pending /\ m_payload m = {["product_id" := JStr newId]}
     | None => db_sales (w_db w') !! k = Some s
     end).
Proof.
  intros w'. unfold w', updateRemappedReferences.
  destruct (decide (size ids = 0%nat)) as [Hz|Hnz].
  { rewrite bool_decide_eq_true_2 by done.
    apply map_size_empty_iff in Hz. subst ids.
    repeat split; eauto.
    intros _ _ k s Hs. unfold mapped.
    destruct (ls_product_id s) as [pid|]; cbn; [|done].
    by rewrite lookup_empty. }
  rewrite bool_decide_eq_false_2 by done.
  destruct (remapLoop_frame env ids (toArray (db_sales (w_db w))) w false)
    as (P1 & P2 & P3 & P4 & P5 & P6 & P7 & P8 & P9 & P11 & P12).
  split; [done|]. split; [done|]. split; [done|]. split; [done|].
  split; [done|]. split; [done|]. split; [done|]. split; [done|].
  split; [|split].
  - intros k m Hm. destruct (P12 k m Hm) as [?|(? & ? & _)]; eauto.
  - intros ->. by rewrite map_size_empty in Hnz.
  - intros Hwk Hfresh k s Hs.
    assert (Hin : s ∈ toArray (db_sales (w_db w))) by (apply elem_of_toArray; eauto).
    assert (Hsnap : forall s', s' ∈ toArray (db_sales (w_db w)) ->
                      db_sales (w_db w) !! ls_id s' = Some s').
    { intros s' (k' & Hs')%elem_of_toArray. by rewrite (Hwk _ _ Hs'). }
    pose proof (Hwk _ _ Hs) as Hk.
    destruct (ls_product_id s ≫= mapped ids) as [newId|] eqn:Hmap.
    + destruct (remapLoop_effect env ids (toArray (db_sales (w_db w))) w
                  (toArray_ids ls_id _ Hwk) Hsnap Hfresh s newId Hin Hmap)
        as (Hsale & key & m & Hm). rewrite <- Hk. split; [done|]. eauto.
    + rewrite P9; [done|]. intros Hx.
      apply list_elem_of_fmap in Hx as (s' & Hid & Hs').
      apply list_elem_of_filter in Hs' as [[x Hx] Hs'].
      pose proof (Hsnap s' Hs') as Hl. rewrite <- Hid, Hs in Hl.
      injection Hl as <-. congruence.
Qed.

(** ** An invariant of the queue *)

Lemma well_keyed_alter (f : MutationRecord -> MutationRecord) (k : string)
    (q : gmap string MutationRecord) :
  (forall m, m_id (f m) = m_id m) -> well_keyed q -> well_keyed (alter f k q).
Proof.
  intros Hf Hq k' m Hm. destruct (decide (k' = k)) as [->|Hne].
  - rewrite lookup_alter_eq in Hm. destruct (q !! k) as [m0|] eqn:Hm0; [|done].
    cbn in Hm. injection Hm as <-. rewrite Hf. by apply Hq.
  - rewrite lookup_alter_ne in Hm by done. by apply Hq.
Qed.

Lemma well_keyed_markMutationFailed (mutationId error : string)
    (q : gmap string MutationRecord) :
  well_keyed q -> well_keyed (markMutationFailed mutationId error q).
Proof.
  intros Hq. unfold markMutationFailed. destruct (q !! mutationId); [|done].
  by apply well_keyed_alter.
Qed.

Lemma well_keyed_clearSyncedMutations (q : gmap string MutationRecord) :
  well_keyed q -> well_keyed (clearSyncedMutations q).
Proof.
  intros Hq k m Hm. apply Hq. unfold clearSyncedMutations in Hm.
  by apply map_lookup_filter_Some in Hm as [? _].
Qed.

Lemma well_keyed_applyPass (env : Env) (ms : list MutationRecord) (st : PushState) :
  well_keyed (queueOf st) -> well_keyed (queueOf (applyPass env ms st)).
Proof.
  revert st. induction ms as [|m ms IH]; intros st Hq; [done|].
  unfold applyPass in *. cbn [foldl]. apply IH.
  destruct (applyMutation_queue env st m) as [-> | [e ->]].
  - by apply well_keyed_alter.
  - by apply well_keyed_markMutationFailed.
Qed.

Lemma well_keyed_push (env : Env) (w : World) :
  well_keyed (db_mutations (w_db w)) ->
  well_keyed (db_mutations (w_db (pushPendingMutations env w).2)).
Proof.
  intros Hq.
  destruct (decide (getPendingMutations (db_mutations (w_db w)) = [])) as [Hnil|Hne].
  { by rewrite pushPendingMutations_nothing_pending. }
  destruct (preflightAborts (reply env (w_calls w) (CallHead products))) eqn:Hab.
  { by rewrite pushPendingMutations_aborted. }
  rewrite pushPendingMutations_phases by done.
  destruct (beforeApply_spec env w) as (_ & _ & Hq0 & _).
  pose proof (well_keyed_applyPass env (beforeApply env w).2
                (mkPush (beforeApply env w).1.1 (beforeApply env w).1.2 0 0)) as H.
  unfold queueOf in H. cbn [ps_world] in H. rewrite Hq0 in H. specialize (H Hq).
  unfold afterApply. cbn [snd].
  destruct (applyPass env _ _) as [[[] ? ? ?] ? ? ?]. cbn in *.
  by apply well_keyed_clearSyncedMutations.
Qed.

Lemma well_keyed_fullSyncBody (env : Env) (w : World) :
  well_keyed (db_mutations (w_db w)) ->
  well_keyed (db_mutations (w_db (fullSyncBody env w).2)).
Proof.
  intros Hq. unfold fullSyncBody.
  destruct (pullPhase env w) as [[[[b1 b2] b3] b4] w1] eqn:Hpull.
  assert (Hq1 : well_keyed (db_mutations (w_db w1))).
  { destruct (pullPhase_chain env w)
      as (Hw & _ & _ & _ & _ & _ & _ & _ & _ & Hm & _).
    rewrite Hpull in Hw. cbn [snd] in Hw. rewrite Hw. by rewrite Hm. }
  pose proof (well_keyed_push env w1 Hq1) as Hq2.
  destruct (pushPendingMutations env w1) as [res w2]. cbn [snd] in Hq2.
  set (w3 := with_db (with_images (syncImagesToSupabase env)) w2).
  assert (Hq3 : well_keyed (db_mutations (w_db w3))) by (by destruct w2 as [[] ? ? ?]).
  assert (Hq4 : well_keyed (db_mutations (w_db
            (if bool_decide (size (idMappings res) = 0%nat) then w3
             else updateRemappedReferences env (idMappings res) w3)))).
  { destruct (bool_decide _); [done|]. unfold updateRemappedReferences.
    destruct (bool_decide _); [done|].
    destruct (remapLoop_frame env (idMappings res) (toArray (db_sales (w_db w3)))
                w3 false) as (_ & _ & _ & _ & _ & _ & _ & _ & _ & _ & Hnew).
    intros k m Hm.
    destruct (Hnew k m Hm) as [Hold | (Hid & _)]; [by apply Hq3|done]. }
  cbn [snd].
  generalize dependent (if bool_decide (size (idMappings res) = 0%nat) then w3
                        else updateRemappedReferences env (idMappings res) w3).
  intros w4 Hq4. by destruct w4 as [[] ? ? ?].
Qed.

(** X14. Every row of the queue stays stored under its own id: each
    queue operation keeps this, and so do a push and a whole
    [performFullSync] call, whatever the backend answers. *)
Theorem queue_stays_well_keyed (env : Env) (now : Z) (e : Engine)
    (mutationId error : string) :
  let q := db_mutations (w_db (world e)) in
  well_keyed q ->
  well_keyed (markMutationSynced mutationId q) /\
  well_keyed (markMutationFailed mutationId error q) /\
  well_keyed (retryFailedMutation mutationId q) /\
  well_keyed (clearSyncedMutations q) /\
  well_keyed (deleteMutation mutationId q) /\
  well_keyed (db_mutations (w_db (pushPendingMutations env (world e)).2)) /\
  well_keyed (db_mutations (w_db (world (performFullSync env now e).2))).
Proof.
  intros q Hq.
  split; [by apply well_keyed_alter|].
  split; [by apply well_keyed_markMutationFailed|].
  split; [by apply well_keyed_alter|].
  split; [by apply well_keyed_clearSyncedMutations|].
  split; [intros k m Hm; apply Hq; unfold deleteMutation in Hm;
          by apply lookup_delete_Some in Hm as [_ Hm]|].
  split; [by apply well_keyed_push|].
  unfold performFullSync. destruct (enter now e) as [e'|] eqn:Hent; [|done].
  assert (He' : world e' = world e).
  { unfold enter in Hent. repeat case_match; by simplify_eq. }
  unfold settle. rewrite He'.
  pose proof (well_keyed_fullSyncBody env (world e) Hq) as H.
  by destruct (fullSyncBody env (world e)).
Qed.

Lemma queue_stays_well_keyed_witness :
  let e := mkEngine offlineWorld false 0 in
  let q := db_mutations (w_db (world e)) in
  well_keyed q /\
  well_keyed (markMutationSynced (m_id insertSale) q) /\
  well_keyed (markMutationFailed (m_id insertSale) "timeout" q) /\
  well_keyed (retryFailedMutation (m_id insertSale) q) /\
  well_keyed (clearSyncedMutations q) /\
  well_keyed (deleteMutation (m_id insertSale) q) /\
  well_keyed (db_mutations (w_db (pushPendingMutations shopBackend (world e)).2)) /\
  well_keyed (db_mutations
                (w_db (world (performFullSync shopBackend 1704189600000 e).2))).
Proof.
  cbn zeta. split; [exact offlineQueue_well_keyed|].
  exact (queue_stays_well_keyed shopBackend 1704189600000
           (mkEngine offlineWorld false 0) (m_id insertSale) "timeout"
           offlineQueue_well_keyed).
Defined.

(** ** The orchestrator over any schedule *)

Lemma step_accounting (env : Env) (m : Machine) (ev : Event) :
  (cycles (step env m ev) + dropped (step env m ev) + inFlight (step env m ev)
   = cycles m + dropped m + inFlight m + triggersIn [ev])%nat.
Proof.
  unfold inFlight. destruct ev as [now|]; cbn.
  - unfold enter.
    destruct (now - lastSyncAttempt (engine m) <? SYNC_DEBOUNCE_MS);
      [cbn; lia|].
    destruct (syncInProgress (engine m)) eqn:Hp; cbn; rewrite ?Hp; lia.
  - destruct (syncInProgress (engine m)) eqn:Hp; cbn.
    + destruct (settle_engine env (engine m)) as [-> _]. lia.
    + rewrite Hp. lia.
Qed.

(** X15. Over any schedule of triggers and completions, every trigger
    is accounted for in exactly one way: it was dropped, or it ran a
    cycle that has completed, or it is the one sync now in progress;
    so no trigger is ever queued and at most one sync is in flight.  A
    call that nothing interleaves with leaves the in-progress flag
    lowered when it found it lowered, and moves the last-attempt time
    only when it is admitted. *)
Theorem every_trigger_accounted_for (env : Env) (evs : list Event) (m : Machine) :
  (cycles (run env evs m) + dropped (run env evs m) + inFlight (run env evs m)
   = cycles m + dropped m + inFlight m + triggersIn evs)%nat /\
  (inFlight (run env evs m) <= 1)%nat /\
  (forall e now,
     syncInProgress e = false ->
     syncInProgress (performFullSync env now e).2 = false /\
     (lastSyncAttempt (performFullSync env now e).2 = lastSyncAttempt e \/
      (lastSyncAttempt (performFullSync env now e).2 = now /\
       SYNC_DEBOUNCE_MS <= now - lastSyncAttempt e))).
Proof.
  split; [|split].
  - revert m. induction evs as [|ev evs IH]; intros m.
    { cbn. lia. }
    unfold run in *. cbn [foldl]. rewrite IH.
    pose proof (step_accounting env m ev) as Hs.
    destruct ev; cbn [triggersIn] in *; lia.
  - unfold inFlight. destruct (syncInProgress _); lia.
  - intros e now Hidle. unfold performFullSync, enter. rewrite Hidle.
    destruct (Z.ltb_spec (now - lastSyncAttempt e) SYNC_DEBOUNCE_MS).
    + split; [done|by left].
    + destruct (settle_engine env (mkEngine (world e) true now)) as [-> ->].
      split; [done|]. right. by split.
Qed.

Lemma burst_invariant (env : Env) (t0 : Z) (evs : list Event) (m : Machine) :
  lastSyncAttempt (engine m) = t0 ->
  withinWindow t0 evs ->
  lastSyncAttempt (engine (run env evs m)) = t0 /\
  (dropped (run env evs m) = dropped m + triggersIn evs)%nat /\
  (cycles (run env evs m) + inFlight (run env evs m) = cycles m + inFlight m)%nat /\
  (cycles m <= cycles (run env evs m))%nat /\
  (Complete ∈ evs -> inFlight (run env evs m) = 0%nat).
Proof.
  revert m. induction evs as [|ev evs IH]; intros m Hlast Hwin.
  { cbn. repeat split; try lia; try done.
    intros H. by apply elem_of_nil in H. }
  apply Forall_cons in Hwin as [Hev Hwin].
  unfold run in *. cbn [foldl].
  assert (Hstep : lastSyncAttempt (engine (step env m ev)) = t0 /\
                  (dropped (step env m ev) = dropped m + triggersIn [ev])%nat /\
                  (cycles (step env m ev) + inFlight (step env m ev)
                   = cycles m + inFlight m)%nat /\
                  (cycles m <= cycles (step env m ev))%nat /\
                  (ev = Complete -> inFlight (step env m ev) = 0%nat)).
  { unfold inFlight. destruct ev as [t|]; cbn.
    - rewrite (enter_dropped (engine m) t) by (right; by rewrite Hlast).
      cbn. repeat split; try done; lia.
    - destruct (syncInProgress (engine m)) eqn:Hp; cbn.
      + destruct (settle_engine env (engine m)) as [-> ->].
        repeat split; try done; lia.
      + rewrite Hp. repeat split; try done; lia. }
  destruct Hstep as (H1 & H2 & H3 & H3' & H4).
  destruct (IH (step env m ev) H1 Hwin) as (I1 & I2 & I3 & I3' & I4).
  split; [done|]. split; [|split; [|split]].
  - rewrite I2, H2. destruct ev; cbn; lia.
  - lia.
  - lia.
  - intros [<-|Hin]%elem_of_cons.
    + specialize (H4 eq_refl). lia.
    + by apply I4.
Qed.

(** X16. A burst of triggers runs one cycle.  After a trigger admitted
    at [t0], let any number of further triggers arrive inside the
    debounce window, interleaved in any way with completions: each of
    them is dropped, the last-attempt time stays [t0], and the whole
    schedule runs at most one cycle, exactly one once a completion has
    occurred. *)
Theorem burst_runs_one_cycle (env : Env) (m : Machine) (t0 : Z) (evs : list Event) :
  enter t0 (engine m) <> None ->
  withinWindow t0 evs ->
  let m' := run env (Trigger t0 :: evs) m in
  lastSyncAttempt (engine m') = t0 /\
  (dropped m' = dropped m + triggersIn evs)%nat /\
  (cycles m' + inFlight m' = S (cycles m))%nat /\
  (Complete ∈ evs -> cycles m' = S (cycles m) /\ syncInProgress (engine m') = false).
Proof.
  intros Hadm Hwin m'. unfold m', run. cbn [foldl].
  pose proof (enter_admitted _ _ Hadm) as Hent.
  assert (Hs : step env m (Trigger t0) =
               mkMachine (mkEngine (world (engine m)) true t0) (cycles m) (dropped m)).
  { unfold step. by rewrite Hent. }
  rewrite Hs.
  destruct (burst_invariant env t0 evs
              (mkMachine (mkEngine (world (engine m)) true t0) (cycles m) (dropped m))
              eq_refl Hwin) as (I1 & I2 & I3 & _ & I4).
  unfold run in *. cbn [cycles dropped] in *.
  split; [done|]. split; [done|].
  split; [rewrite I3; unfold inFlight; cbn; lia|].
  intros Hc. specialize (I4 Hc). rewrite I4 in I3. unfold inFlight in I3, I4. cbn in I3.
  split; [lia|]. by destruct (syncInProgress _).
Qed.

Lemma burst_runs_one_cycle_witness :
  let evs := [Trigger 1704189600100; Trigger 1704189600200; Complete;
              Trigger 1704189600900] in
  enter 1704189600000 (engine idleMachine) <> None /\
  withinWindow 1704189600000 evs /\
  let m' := run shopBackend (Trigger 1704189600000 :: evs) idleMachine in
  lastSyncAttempt (engine m') = 1704189600000 /\
  (dropped m' = dropped idleMachine + triggersIn evs)%nat /\
  (cycles m' + inFlight m' = S (cycles idleMachine))%nat /\
  (Complete ∈ evs ->
   cycles m' = S (cycles idleMachine) /\ syncInProgress (engine m') = false).
Proof.
  cbn zeta.
  assert (Ha : enter 1704189600000 (engine idleMachine) <> None) by discriminate.
  assert (Hw : withinWindow 1704189600000
                 [Trigger 1704189600100; Trigger 1704189600200; Complete;
                  Trigger 1704189600900]).
  { unfold withinWindow. repeat constructor. }
  split; [exact Ha|]. split; [exact Hw|].
  exact (burst_runs_one_cycle shopBackend idleMachine 1704189600000 _ Ha Hw).
Defined.

(** ** The full sync as a whole *)

Lemma applyMutation_syncMeta (env : Env) (st : PushState) (m : MutationRecord) :
  db_syncMeta (w_db (ps_world (applyMutation env st m))) =
    db_syncMeta (w_db (ps_world st)) /\
  db_images (w_db (ps_world (applyMutation env st m))) =
    db_images (w_db (ps_world st)).
Proof.
  destruct st as [[[] ? ? ?] ? ? ?].
  push_unfold. cbn. push_cases; done.
Qed.

Lemma applyPass_syncMeta (env : Env) (ms : list MutationRecord) (st : PushState) :
  db_syncMeta (w_db (ps_world (applyPass env ms st))) =
    db_syncMeta (w_db (ps_world st)) /\
  db_images (w_db (ps_world (applyPass env ms st))) =
    db_images (w_db (ps_world st)).
Proof.
  revert st. induction ms as [|m ms IH]; intros st; [done|].
  unfold applyPass in *. cbn [foldl].
  destruct (IH (applyMutation env st m)) as [-> ->].
  apply applyMutation_syncMeta.
Qed.

Lemma rewritePass_syncMeta (ids : gmap string string) (ms seen : list MutationRecord)
    (w : World) :
  db_syncMeta (w_db (foldl (rewriteSaleMutation ids) (w, seen) ms).1) =
    db_syncMeta (w_db w) /\
  db_images (w_db (foldl (rewriteSaleMutation ids) (w, seen) ms).1) =
    db_images (w_db w).
Proof.
  revert w seen. induction ms as [|m ms IH]; intros w seen; [done|].
  cbn [foldl].
  destruct (rewriteSaleMutation ids (w, seen) m) as [w1 seen1] eqn:Hstep.
  destruct (IH w1 seen1) as [-> ->].
  unfold rewriteSaleMutation in Hstep. destruct w as [[] ? ? ?].
  repeat case_match; by simplify_eq/=.
Qed.

Lemma push_syncMeta (env : Env) (w : World) :
  db_syncMeta (w_db (pushPendingMutations env w).2) = db_syncMeta (w_db w) /\
  db_images (w_db (pushPendingMutations env w).2) = db_images (w_db w).
Proof.
  destruct (decide (getPendingMutations (db_mutations (w_db w)) = [])) as [Hnil|Hne].
  { by rewrite pushPendingMutations_nothing_pending. }
  destruct (preflightAborts (reply env (w_calls w) (CallHead products))) eqn:Hab.
  { by rewrite pushPendingMutations_aborted. }
  rewrite pushPendingMutations_phases by done.
  set (st0 := mkPush (beforeApply env w).1.1 (beforeApply env w).1.2 0 0).
  destruct (applyPass_syncMeta env (beforeApply env w).2 st0) as [Hm Hi].
  assert (H0 : db_syncMeta (w_db (ps_world st0)) = db_syncMeta (w_db w) /\
               db_images (w_db (ps_world st0)) = db_images (w_db w)).
  { unfold st0, beforeApply. cbn [ps_world].
    destruct (beforeApply_spec env w) as (_ & _ & _ & _ & _ & Hdb & _).
    destruct (premapPass env _ _) as [w1 ids1] eqn:Hpre. cbn [fst] in Hdb.
    pose proof (rewritePass_syncMeta ids1
      (getPendingMutations (db_mutations (w_db w))) [] w1) as Hr.
    unfold rewritePass. destruct (foldl _ _ _) as [w2 ms']. cbn [fst snd] in *.
    destruct Hr as [-> ->]. by rewrite Hdb. }
  destruct H0 as [H0m H0i]. rewrite H0m in Hm. rewrite H0i in Hi.
  unfold afterApply. cbn [snd].
  by destruct (applyPass env _ st0) as [[[] ? ? ?] ? ? ?].
Qed.

(** X17. A full sync is best effort.  Whatever the four pulls return,
    the push runs on the store they leave, and the calls the
    cycle makes to the backend tables are the four queries followed by
    the calls of that push; the
    cycle reports success only if none of the pulls failed and the push
    succeeded; and whether or not it reports success, it stamps
    [lastSyncedAt] of the sync metadata, when that row exists, with the
    last clock reading of the cycle, and creates no such row. *)
Theorem fullSync_is_best_effort (env : Env) (w : World) :
  let pulled := pullPhase env w in
  let pushed := pushPendingMutations env pulled.2 in
  let final := fullSyncBody env w in
  w_calls pulled.2 =
    w_calls w ++ [CallSelect products; CallSelect sales;
                  CallSelect notifications; CallSelect settings] /\
  w_calls final.2 = w_calls pushed.2 /\
  (final.1 = true ->
     pulled.1 = (true, true, true, true) /\ success pushed.1 = true) /\
  (exists k, w_clock final.2 = S k /\
     db_syncMeta (w_db final.2) =
       set_sm_lastSyncedAt (toISOString_now env k) <$> db_syncMeta (w_db w)).
Proof.
  intros pulled pushed final.
  split; [apply pullPhase_effect|].
  unfold final, fullSyncBody. fold pulled.
  assert (Hmeta1 : db_syncMeta (w_db pulled.2) = db_syncMeta (w_db w)).
  { destruct (pullPhase_chain env w)
      as (Hw & _ & _ & _ & _ & _ & _ & _ & _ & _ & Hmeta & _).
    unfold pulled. by rewrite Hw. }
  unfold pushed. clear pushed final.
  destruct pulled as [[[[b1 b2] b3] b4] w1]. cbn [fst snd] in *.
  destruct (push_syncMeta env w1) as [Hpm _].
  destruct (pushPendingMutations env w1) as [res w2]. cbn [fst snd] in *.
  set (w3 := with_db (with_images (syncImagesToSupabase env)) w2).
  set (w4 := if bool_decide (size (idMappings res) = 0%nat) then w3
             else updateRemappedReferences env (idMappings res) w3).
  assert (H3 : w_calls w3 = w_calls w2 /\ db_syncMeta (w_db w3) = db_syncMeta (w_db w2)).
  { unfold w3. by destruct w2 as [[] ? ? ?]. }
  assert (H4 : w_calls w4 = w_calls w3 /\ db_syncMeta (w_db w4) = db_syncMeta (w_db w3)).
  { unfold w4. destruct (bool_decide _); [done|]. unfold updateRemappedReferences.
    destruct (bool_decide _); [done|].
    destruct (remapLoop_frame env (idMappings res) (toArray (db_sales (w_db w3)))
                w3 false) as (_ & _ & _ & _ & Hsm & Hc & _).
    done. }
  destruct H3 as [H3c H3m], H4 as [H4c H4m].
  assert (Hc : w_calls w4 = w_calls w2) by congruence.
  assert (Hm : db_syncMeta (w_db w4) = db_syncMeta (w_db w)) by congruence.
  clearbody w4. clear w3 H3c H3m H4c H4m.
  destruct w4 as [[] ? ? ?]. cbn in *. subst.
  split; [done|]. split; [|by eexists].
  intros Hok. by repeat (apply andb_prop in Hok as [Hok ?]); subst.
Qed.

(** ** At most one sync at a time *)

Lemma pushPendingMutations_calls (env : Env) (w : World) :
  let pend := getPendingMutations (db_mutations (w_db w)) in
  exists ws,
    w_calls (pushPendingMutations env w).2 = w_calls w ++ ws /\
    (pend = [] -> ws = []) /\
    (pend <> [] ->
       exists writes, ws = CallHead products :: writes /\
                      (length writes <= length pend)%nat /\ Forall isWrite writes).
Proof.
  intros pend.
  destruct (decide (pend = [])) as [Hnil|Hne].
  { exists []. unfold pend in Hnil.
    rewrite (pushPendingMutations_nothing_pending env w Hnil), app_nil_r.
    by split. }
  destruct (preflightAborts (reply env (w_calls w) (CallHead products))) eqn:Hab.
  { exists [CallHead products].
    rewrite (pushPendingMutations_aborted env w Hne Hab).
    split; [done|]. split; [by intros ?|]. intros _. exists [].
    split; [done|]. split; [cbn; lia|done]. }
  rewrite (pushPendingMutations_phases env w Hne Hab).
  destruct (beforeApply_spec env w) as (_ & Hms & _ & _ & Hc & _).
  destruct (applyPass_calls env (beforeApply env w).2
              (mkPush (beforeApply env w).1.1 (beforeApply env w).1.2 0 0))
    as (writes & Hws & Hlen & Hall).
  cbn [ps_world] in Hws. rewrite Hc in Hws.
  exists (CallHead products :: writes). split.
  - unfold afterApply. cbn [snd].
    destruct (applyPass env _ _) as [[[] ? ? ?] ? ? ?]. cbn in *.
    rewrite Hws. by rewrite <- app_assoc.
  - split; [by intros ?|]. intros _. exists writes. split; [done|].
    split; [unfold pend; by rewrite (Forall2_length _ _ _ Hms)|done].
Qed.

Lemma fullSyncBody_calls (env : Env) (w : World) :
  w_calls (fullSyncBody env w).2 =
    w_calls (pushPendingMutations env (pullPhase env w).2).2.
Proof.
  unfold fullSyncBody.
  destruct (pullPhase env w) as [[[[b1 b2] b3] b4] w1]. cbn [fst snd].
  destruct (pushPendingMutations env w1) as [res w2]. cbn [fst snd].
  set (w3 := with_db (with_images (syncImagesToSupabase env)) w2).
  set (w4 := if bool_decide (size (idMappings res) = 0%nat) then w3
             else updateRemappedReferences env (idMappings res) w3).
  assert (H3 : w_calls w3 = w_calls w2).
  { unfold w3. by destruct w2 as [[] ? ? ?]. }
  assert (H4 : w_calls w4 = w_calls w3).
  { unfold w4. destruct (bool_decide _); [done|]. unfold updateRemappedReferences.
    destruct (bool_decide _); [done|].
    by destruct (remapLoop_frame env (idMappings res) (toArray (db_sales (w_db w3)))
                   w3 false) as (_ & _ & _ & _ & _ & Hc & _). }
  rewrite <- H3, <- H4. clearbody w4. by destruct w4 as [[] ? ? ?].
Qed.

(** C8. A call of [performFullSync] made while a sync is in progress,
    or less than [SYNC_DEBOUNCE_MS] after the last admitted attempt,
    returns [false] and leaves the engine and the world exactly as they
    were: no pull, no push, no write.  Hence, when a first trigger is
    admitted at [t0] and a second one arrives at [t1] inside the
    debounce window, the second is dropped whether it arrives while the
    first cycle is still in progress or after it has completed, and
    exactly one pull-and-push cycle runs: the admitted call is the
    [try] block of [performFullSync] on the world it found, and the
    remote calls made over the whole schedule are the four pull
    queries, once, followed by the calls of one push on the store the
    pull left (none when nothing is pending, otherwise the preflight
    check and at most one write per pending mutation). *)
Theorem performFullSync_at_most_one (env : Env) (m : Machine) (t0 t1 : Z) :
  enter t0 (engine m) <> None ->
  t1 - t0 < SYNC_DEBOUNCE_MS ->
  let w := world (engine m) in
  let started := step env m (Trigger t0) in
  let finished := step env started Complete in
  let pulled := (pullPhase env w).2 in
  let pend := getPendingMutations (db_mutations (w_db pulled)) in
  performFullSync env t1 (engine started) = (false, engine started) /\
  performFullSync env t1 (engine finished) = (false, engine finished) /\
  run env [Trigger t0; Trigger t1; Complete] m =
    mkMachine (engine finished) (S (cycles m)) (S (dropped m)) /\
  run env [Trigger t0; Complete; Trigger t1] m =
    mkMachine (engine finished) (S (cycles m)) (S (dropped m)) /\
  run env [Trigger t0; Complete] m =
    mkMachine (engine finished) (S (cycles m)) (dropped m) /\
  (forall e now,
     syncInProgress e = true \/ now - lastSyncAttempt e < SYNC_DEBOUNCE_MS ->
     performFullSync env now e = (false, e)) /\
  world (engine started) = w /\
  performFullSync env t0 (engine m) = ((fullSyncBody env w).1, engine finished) /\
  world (engine finished) = (fullSyncBody env w).2 /\
  (exists ws,
     w_calls (world (engine finished)) =
       w_calls w ++ [CallSelect products; CallSelect sales;
                     CallSelect notifications; CallSelect settings] ++ ws /\
     w_calls (pushPendingMutations env pulled).2 = w_calls pulled ++ ws /\
     (pend = [] -> ws = []) /\
     (pend <> [] ->
        exists writes, ws = CallHead products :: writes /\
                       (length writes <= length pend)%nat /\ Forall isWrite writes)).
Proof.
  intros Hadm Hwin w started finished pulled pend.
  assert (Hlaw : forall e now,
     syncInProgress e = true \/ now - lastSyncAttempt e < SYNC_DEBOUNCE_MS ->
     performFullSync env now e = (false, e)).
  { intros e now H. unfold performFullSync. by rewrite (enter_dropped e now H). }
  pose proof (enter_admitted _ _ Hadm) as Hent.
  assert (Hs : started = mkMachine (mkEngine (world (engine m)) true t0)
                                   (cycles m) (dropped m)).
  { unfold started, step. by rewrite Hent. }
  assert (Hf : finished =
            mkMachine (settle env (mkEngine (world (engine m)) true t0)).2
                      (S (cycles m)) (dropped m)).
  { unfold finished. by rewrite Hs. }
  destruct (settle_engine env (mkEngine (world (engine m)) true t0)) as [Hp Hl].
  cbn [lastSyncAttempt] in Hl.
  assert (Hd1 : enter t1 (engine started) = None).
  { apply enter_dropped. left. by rewrite Hs. }
  assert (Hd2 : enter t1 (engine finished) = None).
  { apply enter_dropped. right. rewrite Hf. cbn [engine]. by rewrite Hl. }
  assert (Hworld : world (engine finished) = (fullSyncBody env w).2).
  { rewrite Hf. cbn [engine]. unfold settle. cbn [world]. fold w.
    by destruct (fullSyncBody env w). }
  split; [apply Hlaw; left; by rewrite Hs|].
  split; [apply Hlaw; right; rewrite Hf; cbn [engine]; by rewrite Hl|].
  split; [|split; [|split; [|split; [exact Hlaw|]]]].
  - unfold run; cbn [foldl]. fold started.
    cbn [step]. rewrite Hd1. rewrite Hs. cbn [engine syncInProgress cycles dropped].
    by rewrite Hf.
  - unfold run; cbn [foldl]. fold started. fold finished.
    cbn [step]. rewrite Hd2. by rewrite Hf.
  - unfold run; cbn [foldl]. fold started. fold finished. by rewrite Hf.
  - split; [by rewrite Hs|]. split.
    { unfold performFullSync. rewrite Hent, Hf. cbn [engine]. unfold settle.
      cbn [world]. fold w. by destruct (fullSyncBody env w). }
    split; [exact Hworld|].
    destruct (pushPendingMutations_calls env pulled) as (ws & Hws & Hnil & Hsome).
    exists ws. rewrite Hworld, fullSyncBody_calls. fold pulled. rewrite Hws.
    assert (Hpull : w_calls pulled =
              w_calls w ++ [CallSelect products; CallSelect sales;
                            CallSelect notifications; CallSelect settings])
      by apply pullPhase_effect.
    split; [by rewrite Hpull, <- app_assoc|]. done.
Qed.

Lemma performFullSync_at_most_one_witness :
  enter 1704189600000 (engine idleMachine) <> None /\
  1704189600400 - 1704189600000 < SYNC_DEBOUNCE_MS /\
  let started := step shopBackend idleMachine (Trigger 1704189600000) in
  let finished := step shopBackend started Complete in
  performFullSync shopBackend 1704189600400 (engine started) = (false, engine started) /\
  performFullSync shopBackend 1704189600400 (engine finished) = (false, engine finished) /\
  run shopBackend [Trigger 1704189600000; Trigger 1704189600400; Complete] idleMachine =
    mkMachine (engine finished) 1 1 /\
  run shopBackend [Trigger 1704189600000; Complete; Trigger 1704189600400] idleMachine =
    mkMachine (engine finished) 1 1 /\
  run shopBackend [Trigger 1704189600000; Complete] idleMachine =
    mkMachine (engine finished) 1 0 /\
  w_calls (world (engine finished)) =
    [CallSelect products; CallSelect sales;
     CallSelect notifications; CallSelect settings].
Proof.
  split; [discriminate|]. split; [reflexivity|]. cbn zeta.
  destruct (performFullSync_at_most_one shopBackend idleMachine
              1704189600000 1704189600400)
    as (H1 & H2 & H3 & H4 & H5 & _ & _ & _ & _ & ws & Hcalls & _ & Hnil & _);
    [discriminate | reflexivity |].
  split; [exact H1|]. split; [exact H2|]. split; [exact H3|].
  split; [exact H4|]. split; [exact H5|].
  rewrite Hcalls, Hnil; [reflexivity|]. vm_compute. reflexivity.
Defined.

(** ** Startup: queueing the rows that are not synced *)

Lemma queued_lookup (table : MutationTable) (recordId : string)
    (q : gmap string MutationRecord) :
  queued table recordId q <->
  exists k m, q !! k = Some m /\ m_status m = pending /\
              m_table m = table /\ m_recordId m = recordId.
Proof.
  unfold queued, getPendingMutations. split.
  - intros (m & Hin & Ht & Hr). apply elem_of_where_status in Hin as [[k Hk] Hs].
    by exists k, m.
  - intros (k & m & Hk & Hs & Ht & Hr). exists m. split; [|done].
    apply elem_of_where_status. split; [by exists k|done].
Qed.

Lemma existingMutation_None (table : MutationTable) (recordId : string)
    (q : gmap string MutationRecord) :
  existingMutation table recordId q = None <-> ~ queued table recordId q.
Proof.
  unfold existingMutation. rewrite queued_lookup. split.
  - intros Hhead (k & m & Hk & Hs & Ht & Hr).
    apply head_None in Hhead.
    assert (Hin : m ∈ filter (fun m => m_table m = table /\ m_recordId m = recordId
                                       /\ m_status m = pending) (toArray q)).
    { apply list_elem_of_filter. split; [done|]. apply elem_of_toArray. by exists k. }
    rewrite Hhead in Hin. by apply elem_of_nil in Hin.
  - intros Hno. apply head_None. apply filter_none. apply Forall_forall.
    intros m Hin (Ht & Hr & Hs). apply elem_of_toArray in Hin as [k Hk].
    apply Hno. by exists k, m.
Qed.

Lemma queued_mono (table : MutationTable) (recordId : string)
    (q q' : gmap string MutationRecord) :
  q ⊆ q' -> queued table recordId q -> queued table recordId q'.
Proof.
  rewrite !queued_lookup. intros Hsub (k & m & Hk & H). exists k, m.
  split; [|done]. by eapply lookup_weaken.
Qed.

Lemma existingMutation_Some (table : MutationTable) (recordId : string)
    (q : gmap string MutationRecord) (m : MutationRecord) :
  existingMutation table recordId q = Some m -> queued table recordId q.
Proof.
  unfold existingMutation. intros Hhead. apply head_Some_elem_of in Hhead.
  apply list_elem_of_filter in Hhead as [(Ht & Hr & Hs) Hin].
  apply elem_of_toArray in Hin as [k Hk]. apply queued_lookup. by exists k, m.
Qed.

Lemma enqueuedFrom_start (env : Env) (w0 : World) :
  enqueuedFrom env w0 (w0, 0%nat, false).
Proof.
  unfold enqueuedFrom. repeat split; try done; try lia.
  intros k m Hk. by left.
Qed.

Lemma enqueueIfMissing_step (env : Env) (w0 : World) (N : nat)
    (table : MutationTable) (operation : MutationOperation) (recordId : string)
    (payload : gmap string JsVal) (st : World * nat * bool) :
  freshUUIDs env w0 N -> enqueuedFrom env w0 st -> (st.1.2 < N)%nat ->
  let st' := enqueueIfMissing env table operation recordId payload st in
  enqueuedFrom env w0 st' /\ (st'.1.2 <= S st.1.2)%nat /\
  db_mutations (w_db st.1.1) ⊆ db_mutations (w_db st'.1.1) /\
  queued table recordId (db_mutations (w_db st'.1.1)).
Proof.
  intros Hfresh Hinv Hlt. destruct st as [[w n] thrown]. cbn [fst snd] in *.
  destruct Hinv as (-> & Hframe & Hu & Hc & Hsub & Hsize & Hrows).
  unfold enqueueIfMissing.
  destruct (existingMutation table recordId (db_mutations (w_db w))) as [m|] eqn:Hex.
  { cbn [fst snd]. split; [done|]. split; [lia|]. split; [done|].
    by eapply existingMutation_Some. }
  assert (Hfree : db_mutations (w_db w) !! uuidv4 env (w_uuids w) = None).
  { destruct (db_mutations (w_db w) !! uuidv4 env (w_uuids w)) as [m|] eqn:Hm; [|done].
    exfalso. destruct (Hfresh (w_uuids w)) as [Hnone Hinj]; [lia|].
    destruct (Hrows _ _ Hm) as [Hold | (j & Hj & Heq & _)]; [congruence|].
    apply Hinj in Heq; lia. }
  unfold enqueue, enqueueMutation. rewrite Hfree.
  destruct w as [[] ? ? ?]. cbn in *.
  set (mutation := mkMutation _ _ _ _ _ _ _ _ _ _).
  split; [|split; [lia|split]].
  - split; [done|]. split; [done|]. split; [lia|]. split; [lia|].
    split; [|split].
    + etrans; [exact Hsub|]. by apply insert_subseteq.
    + rewrite map_size_insert_None by done. lia.
    + intros k m Hm. destruct (decide (k = uuidv4 env w_uuids0)) as [->|Hne].
      * rewrite lookup_insert_eq in Hm. injection Hm as <-. right.
        exists n. split; [lia|]. split; [by rewrite Hu|done].
      * rewrite lookup_insert_ne in Hm by done.
        destruct (Hrows _ _ Hm) as [Hold | (j & Hj & Hrest)]; [by left|].
        right. exists j. split; [lia|done].
  - by apply insert_subseteq.
  - apply queued_lookup. exists (uuidv4 env w_uuids0), mutation.
    by rewrite lookup_insert_eq.
Qed.

Lemma enqueueLoop_spec {A : Type} (env : Env) (w0 : World) (N : nat)
    (table : MutationTable) (operation : MutationOperation)
    (recordId : A -> string) (payload : A -> gmap string JsVal)
    (rows : list A) (st : World * nat * bool) :
  freshUUIDs env w0 N -> enqueuedFrom env w0 st ->
  (st.1.2 + length rows <= N)%nat ->
  let st' := enqueueLoop env table operation recordId payload rows st in
  enqueuedFrom env w0 st' /\ (st'.1.2 <= st.1.2 + length rows)%nat /\
  db_mutations (w_db st.1.1) ⊆ db_mutations (w_db st'.1.1) /\
  (forall row, row ∈ rows ->
     queued table (recordId row) (db_mutations (w_db st'.1.1))).
Proof.
  intros Hfresh. revert st. induction rows as [|row rows IH]; intros st Hinv Hlen.
  { cbn. split; [done|]. split; [lia|]. split; [done|].
    intros row Hin. by apply elem_of_nil in Hin. }
  cbn [length] in Hlen. unfold enqueueLoop in *. cbn [foldl].
  destruct (enqueueIfMissing_step env w0 N table operation (recordId row)
              (payload row) st Hfresh Hinv) as (Hinv1 & Hn1 & Hsub1 & Hq1); [lia|].
  destruct (IH _ Hinv1) as (Hinv2 & Hn2 & Hsub2 & Hq2); [lia|].
  split; [done|]. split; [cbn [length]; lia|]. split; [by etrans|].
  intros r Hin. apply elem_of_cons in Hin as [->|Hin]; [|by apply Hq2].
  by eapply queued_mono.
Qed.

Lemma enqueueLoop_noop {A : Type} (env : Env)
    (table : MutationTable) (operation : MutationOperation)
    (recordId : A -> string) (payload : A -> gmap string JsVal)
    (rows : list A) (w : World) (n : nat) :
  (forall row, row ∈ rows -> queued table (recordId row) (db_mutations (w_db w))) ->
  enqueueLoop env table operation recordId payload rows (w, n, false) = (w, n, false).
Proof.
  induction rows as [|row rows IH]; intros Hq; [done|].
  unfold enqueueLoop in *. cbn [foldl].
  assert (Hstep : enqueueIfMissing env table operation (recordId row) (payload row)
                    (w, n, false) = (w, n, false)).
  { unfold enqueueIfMissing.
    destruct (existingMutation _ _ _) eqn:Hex; [done|].
    apply existingMutation_None in Hex. destruct Hex. apply Hq. by left. }
  rewrite Hstep. apply IH. intros r Hin. apply Hq. by right.
Qed.

Lemma unsynced_row {A : Type} (P : A -> Prop) `{!forall x, Decision (P x)}
    (t : gmap string A) (k : string) (x : A) :
  t !! k = Some x -> P x -> x ∈ filter P (toArray t).
Proof.
  intros Hk HP. apply list_elem_of_filter. split; [done|].
  apply elem_of_toArray. by exists k.
Qed.

Lemma enqueueUnsynced_spec (env : Env) (w : World) :
  freshUUIDs env w (unsyncedCount (w_db w)) ->
  let st := enqueueUnsynced env w in
  enqueuedFrom env w st /\ (st.1.2 <= unsyncedCount (w_db w))%nat /\
  unsyncedQueued (w_db w) (db_mutations (w_db st.1.1)).
Proof.
  intros Hfresh. unfold enqueueUnsynced. cbn [fst snd].
  set (st0 := (w, 0%nat, false)).
  pose proof (enqueuedFrom_start env w) as H0. fold st0 in H0.
  unfold unsyncedCount in *.
  set (P := filter (fun p => lp_synced p = false) (toArray (db_products (w_db w)))) in *.
  set (S_ := filter (fun s => ls_synced s = false) (toArray (db_sales (w_db w)))) in *.
  set (N_ := filter (fun n => ln_synced n = false)
                    (toArray (db_notifications (w_db w)))) in *.
  set (T := filter (fun s => lt_synced s = false) (toArray (db_settings (w_db w)))) in *.
  destruct (enqueueLoop_spec env w _ products UPDATE lp_id productPayload P st0
              Hfresh H0) as (H1 & Hn1 & Hs1 & Hq1); [cbn; lia|].
  set (st1 := enqueueLoop env products UPDATE lp_id productPayload P st0) in *.
  assert (E1 : db_sales (w_db st1.1.1) = db_sales (w_db w)).
  { destruct st1 as [[w1 n1] t1]. by destruct H1 as (_ & (_ & ? & _) & _). }
  rewrite E1. fold S_.
  destruct (enqueueLoop_spec env w _ sales INSERT ls_id salePayload S_ st1
              Hfresh H1) as (H2 & Hn2 & Hs2 & Hq2); [cbn in *; lia|].
  set (st2 := enqueueLoop env sales INSERT ls_id salePayload S_ st1) in *.
  assert (E2 : db_notifications (w_db st2.1.1) = db_notifications (w_db w)).
  { destruct st2 as [[w2 n2] t2]. by destruct H2 as (_ & (_ & _ & ? & _) & _). }
  rewrite E2. fold N_.
  destruct (enqueueLoop_spec env w _ notifications INSERT ln_id notificationPayload
              N_ st2 Hfresh H2) as (H3 & Hn3 & Hs3 & Hq3); [cbn in *; lia|].
  set (st3 := enqueueLoop env notifications INSERT ln_id notificationPayload
                N_ st2) in *.
  assert (E3 : db_settings (w_db st3.1.1) = db_settings (w_db w)).
  { destruct st3 as [[w3 n3] t3]. by destruct H3 as (_ & (_ & _ & _ & ? & _) & _). }
  rewrite E3. fold T.
  destruct (enqueueLoop_spec env w _ settings UPDATE lt_id settingPayload T st3
              Hfresh H3) as (H4 & Hn4 & Hs4 & Hq4); [cbn in *; lia|].
  set (st4 := enqueueLoop env settings UPDATE lt_id settingPayload T st3) in *.
  split; [done|]. split; [cbn in *; lia|].
  split; [|split; [|split]].
  - intros k p Hk Hp. eapply queued_mono; [|apply Hq1; by eapply unsynced_row].
    etrans; [exact Hs2|]. by etrans.
  - intros k s Hk Hs. eapply queued_mono; [|apply Hq2; by eapply unsynced_row].
    by etrans.
  - intros k n Hk Hn. eapply queued_mono; [|apply Hq3; by eapply unsynced_row]. done.
  - intros k s Hk Hs. apply Hq4. by eapply unsynced_row.
Qed.

Lemma enqueueUnsynced_noop (env : Env) (w : World) :
  unsyncedQueued (w_db w) (db_mutations (w_db w)) ->
  enqueueUnsynced env w = (w, 0%nat, false).
Proof.
  intros (Hp & Hs & Hn & Ht). unfold enqueueUnsynced. cbn [fst snd].
  rewrite enqueueLoop_noop; cbn [fst snd].
  2:{ intros p Hin. apply list_elem_of_filter in Hin as [Hu Hin].
      apply elem_of_toArray in Hin as [k Hk]. by eapply Hp. }
  rewrite enqueueLoop_noop; cbn [fst snd].
  2:{ intros s Hin. apply list_elem_of_filter in Hin as [Hu Hin].
      apply elem_of_toArray in Hin as [k Hk]. by eapply Hs. }
  rewrite enqueueLoop_noop; cbn [fst snd].
  2:{ intros n Hin. apply list_elem_of_filter in Hin as [Hu Hin].
      apply elem_of_toArray in Hin as [k Hk]. by eapply Hn. }
  rewrite enqueueLoop_noop; cbn [fst snd]; [done|].
  intros s Hin. apply list_elem_of_filter in Hin as [Hu Hin].
  apply elem_of_toArray in Hin as [k Hk]. by eapply Ht.
Qed.

Lemma initializeSyncQueue_offline (env : Env) (now : Z) (e : Engine) :
  let st := enqueueUnsynced env (world e) in
  st.2 = false ->
  initializeSyncQueue env false now e =
    (st.1.2, mkEngine st.1.1 (syncInProgress e) (lastSyncAttempt e)).
Proof.
  intros st Hok. unfold initializeSyncQueue. fold st.
  destruct st as [[w n] thrown]. cbn in Hok. subst thrown. cbn [fst snd].
  by destruct (_ || _).
Qed.

(** X18. Startup while offline queues every row that is not synced.
    When the identifiers [uuidv4] returns next are distinct and not in
    the queue, [initializeSyncQueue] leaves every row of the four
    tables that is marked as not synced addressed by a pending
    mutation.  It keeps every row the queue had, the rows it adds are
    pending and as many as the count it returns, at most one per row
    that is not synced, and it changes nothing but the queue. *)
Theorem startup_queues_unsynced_rows (env : Env) (now : Z) (e : Engine) :
  freshUUIDs env (world e) (unsyncedCount (w_db (world e))) ->
  let r := initializeSyncQueue env false now e in
  let d := w_db (world e) in
  let d' := w_db (world r.2) in
  unsyncedQueued d' (db_mutations d') /\
  db_mutations d ⊆ db_mutations d' /\
  size (db_mutations d') = (size (db_mutations d) + r.1)%nat /\
  (r.1 <= unsyncedCount d)%nat /\
  (forall k m, db_mutations d' !! k = Some m -> db_mutations d !! k = None ->
     m_id m = k /\ m_status m = pending) /\
  with_mutations (fun _ => db_mutations d) d' = d /\
  syncInProgress r.2 = syncInProgress e /\
  lastSyncAttempt r.2 = lastSyncAttempt e.
Proof.
  intros Hfresh r d d'.
  destruct (enqueueUnsynced_spec env (world e) Hfresh) as (Hinv & Hn & Hq).
  subst r d d'. rewrite initializeSyncQueue_offline.
  2:{ destruct (enqueueUnsynced env (world e)) as [[w n] thrown].
      by destruct Hinv as (-> & _). }
  destruct (enqueueUnsynced env (world e)) as [[w n] thrown].
  cbn [fst snd world syncInProgress lastSyncAttempt] in *.
  destruct Hinv as (_ & (Hp & Hs & Hno & Hse & Hi & Hm & _) & _ & _ & Hsub & Hsize
                    & Hrows).
  split.
  { destruct Hq as (Q1 & Q2 & Q3 & Q4).
    unfold unsyncedQueued. rewrite Hp, Hs, Hno, Hse. done. }
  split; [done|]. split; [done|]. split; [done|].
  split.
  { intros k m Hk Hnone.
    destruct (Hrows k m Hk) as [Hold | (j & _ & _ & Hid & Hst)]; [congruence|done]. }
  split; [|done].
  destruct (world e) as [[] ? ? ?], w as [[] ? ? ?]. cbn in *. by subst.
Qed.

Lemma startup_queues_unsynced_rows_witness :
  freshUUIDs shopBackend (world unqueuedEngine)
    (unsyncedCount (w_db (world unqueuedEngine))) /\
  (initializeSyncQueue shopBackend false 1704189600000 unqueuedEngine).1 = 2%nat /\
  queued products "local_1704189000000"
    (db_mutations (w_db (world
       (initializeSyncQueue shopBackend false 1704189600000 unqueuedEngine).2))) /\
  queued sales "sale_1704189100000"
    (db_mutations (w_db (world
       (initializeSyncQueue shopBackend false 1704189600000 unqueuedEngine).2))).
Proof.
  assert (Hfresh : freshUUIDs shopBackend (world unqueuedEngine)
                     (unsyncedCount (w_db (world unqueuedEngine)))).
  { intros j Hj. change (0 <= j < 2)%nat in Hj. split; [done|].
    intros k Hk. change (0 <= k < 2)%nat in Hk.
    assert (Hj' : j = 0%nat \/ j = 1%nat) by lia.
    assert (Hk' : k = 0%nat \/ k = 1%nat) by lia.
    destruct Hj' as [-> | ->], Hk' as [-> | ->]; cbn; congruence. }
  split; [exact Hfresh|].
  destruct (startup_queues_unsynced_rows shopBackend 1704189600000 unqueuedEngine
              Hfresh) as ((Hp & Hs & _) & _).
  split; [vm_compute; reflexivity|].
  split.
  - apply (Hp "local_1704189000000" offlineProduct); vm_compute; reflexivity.
  - apply (Hs "sale_1704189100000" offlineSale); vm_compute; reflexivity.
Defined.

(** X19. Startup is idempotent while offline: after one
    [initializeSyncQueue], a second one enqueues nothing, returns 0 and
    leaves the engine and the store as they are. *)
Theorem startup_twice_enqueues_nothing (env : Env) (now now' : Z) (e : Engine) :
  freshUUIDs env (world e) (unsyncedCount (w_db (world e))) ->
  let r := initializeSyncQueue env false now e in
  initializeSyncQueue env false now' r.2 = (0%nat, r.2).
Proof.
  intros Hfresh r.
  destruct (enqueueUnsynced_spec env (world e) Hfresh) as (Hinv & Hn & Hq).
  subst r. rewrite (initializeSyncQueue_offline env now e).
  2:{ destruct (enqueueUnsynced env (world e)) as [[w n] thrown].
      by destruct Hinv as (-> & _). }
  destruct (enqueueUnsynced env (world e)) as [[w n] thrown].
  cbn [fst snd] in *.
  destruct Hinv as (_ & (Hp & Hs & Hno & Hse & _) & _).
  assert (Hnoop : enqueueUnsynced env w = (w, 0%nat, false)).
  { apply enqueueUnsynced_noop. unfold unsyncedQueued in *.
    by rewrite Hp, Hs, Hno, Hse. }
  rewrite initializeSyncQueue_offline; cbn [world]; rewrite Hnoop; done.
Qed.

Lemma startup_twice_enqueues_nothing_witness :
  freshUUIDs shopBackend (world unqueuedEngine)
    (unsyncedCount (w_db (world unqueuedEngine))) /\
  initializeSyncQueue shopBackend false 1704189700000
    (initializeSyncQueue shopBackend false 1704189600000 unqueuedEngine).2 =
  (0%nat, (initializeSyncQueue shopBackend false 1704189600000 unqueuedEngine).2).
Proof.
  assert (Hfresh : freshUUIDs shopBackend (world unqueuedEngine)
                     (unsyncedCount (w_db (world unqueuedEngine)))).
  { intros j Hj. change (0 <= j < 2)%nat in Hj. split; [done|].
    intros k Hk. change (0 <= k < 2)%nat in Hk.
    assert (Hj' : j = 0%nat \/ j = 1%nat) by lia.
    assert (Hk' : k = 0%nat \/ k = 1%nat) by lia.
    destruct Hj' as [-> | ->], Hk' as [-> | ->]; cbn; congruence. }
  split; [exact Hfresh|].
  exact (startup_twice_enqueues_nothing shopBackend 1704189600000 1704189700000
           unqueuedEngine Hfresh).
Defined.

(** ** The cart *)

Lemma findItem_Some (productId : string) (cart : list CartItem) (item : CartItem) :
  findItem productId cart = Some item ->
  item ∈ cart /\ p_id (ci_product item) = productId.
Proof.
  unfold findItem. intros Hfind. apply find_some in Hfind as [Hin Hid].
  split; [by apply list_elem_of_In|]. by apply bool_decide_eq_true in Hid.
Qed.

Lemma findItem_None (productId : string) (cart : list CartItem) :
  findItem productId cart = None -> productId ∉ lines cart.
Proof.
  unfold findItem, lines. intros Hfind Hin.
  apply list_elem_of_fmap in Hin as (item & -> & Hin).
  apply list_elem_of_In in Hin.
  pose proof (find_none _ _ Hfind _ Hin) as Hno. cbn in Hno.
  by apply bool_decide_eq_false in Hno.
Qed.

Lemma findItem_is_Some (productId : string) (cart : list CartItem) :
  productId ∈ lines cart -> is_Some (findItem productId cart).
Proof.
  intros Hin. destruct (findItem productId cart) eqn:Hfind; [by eexists|].
  by apply findItem_None in Hfind.
Qed.

Lemma line_unique (cart : list CartItem) (a b : CartItem) :
  NoDup (lines cart) -> a ∈ cart -> b ∈ cart ->
  p_id (ci_product a) = p_id (ci_product b) -> a = b.
Proof.
  unfold lines. induction cart as [|c cart IH]; intros Hnd Ha Hb Hid.
  { by apply elem_of_nil in Ha. }
  cbn in Hnd. apply NoDup_cons in Hnd as [Hc Hnd].
  apply elem_of_cons in Ha as [->|Ha], Hb as [->|Hb]; [done| | |by apply IH].
  - destruct Hc. apply list_elem_of_fmap. exists b. by rewrite Hid.
  - destruct Hc. apply list_elem_of_fmap. exists a. by rewrite <- Hid.
Qed.

Lemma lines_requantified (productId : string) (f : CartItem -> Z)
    (cart : list CartItem) :
  lines (map (fun item =>
                if bool_decide (p_id (ci_product item) = productId)
                then set_ci_quantity (f item) item
                else item) cart) = lines cart.
Proof.
  unfold lines. rewrite map_map. apply map_ext. intros item.
  by destruct (bool_decide _).
Qed.

Lemma lines_removeFromCart (productId : string) (cart : list CartItem) :
  lines (removeFromCart productId cart) =
  List.filter (fun k => negb (bool_decide (k = productId))) (lines cart).
Proof.
  unfold lines, removeFromCart. induction cart as [|c cart IH]; [done|].
  cbn. destruct (bool_decide _); cbn; by rewrite IH.
Qed.

Lemma removeFromCart_ok (productId : string) (cart : list CartItem) :
  cartOk cart -> cartOk (removeFromCart productId cart).
Proof.
  intros [Hnd Hall]. split.
  - rewrite lines_removeFromCart.
    generalize dependent (lines cart). intros l Hl.
    induction Hl as [|k l Hk Hl IH]; [constructor|].
    cbn. destruct (negb _); [|done]. apply NoDup_cons. split; [|done].
    intros Hin. apply Hk. apply list_elem_of_In in Hin.
    apply filter_In in Hin as [Hin _]. by apply list_elem_of_In.
  - unfold removeFromCart. apply Forall_forall. intros item Hin.
    apply list_elem_of_In in Hin. apply filter_In in Hin as [Hin _].
    apply list_elem_of_In in Hin. by eapply Forall_forall in Hall.
Qed.

Lemma requantified_ok (productId : string) (quantity : Z) (cart : list CartItem) :
  cartOk cart ->
  (forall item, item ∈ cart -> p_id (ci_product item) = productId ->
     1 <= quantity <= p_quantity (ci_product item)) ->
  cartOk (map (fun item =>
                 if bool_decide (p_id (ci_product item) = productId)
                 then set_ci_quantity quantity item
                 else item) cart).
Proof.
  intros [Hnd Hall] Hq. split.
  - by rewrite (lines_requantified productId (fun _ => quantity)).
  - apply Forall_forall. intros item Hin.
    apply list_elem_of_In in Hin. apply in_map_iff in Hin as (old & <- & Hin).
    apply list_elem_of_In in Hin.
    pose proof (proj1 (Forall_forall _ _) Hall old Hin) as Hold. cbn in Hold.
    case_bool_decide as Hid; cbn; [by apply Hq|done].
Qed.

(** X20. The cart keeps one line per product, each for at least one
    unit and at most the stock recorded in the line's copy of the
    product.  [updateQuantity] and [removeFromCart] keep this for any
    arguments; [addToCart] keeps it when the product passed records no
    more stock than the copy the cart holds of it, and keeps the first
    two parts whatever product is passed. *)
Theorem cart_lines_stay_valid (cart : list CartItem) (product : Product)
    (productId : string) (newQuantity : Z) :
  cartOk cart ->
  let added := (addToCart product cart).1 in
  cartOk (updateQuantity productId newQuantity cart).1 /\
  cartOk (removeFromCart productId cart) /\
  NoDup (lines added) /\ Forall (fun item => 1 <= ci_quantity item) added /\
  ((forall item, item ∈ cart -> p_id (ci_product item) = p_id product ->
      p_quantity product <= p_quantity (ci_product item)) ->
   cartOk added).
Proof.
  intros Hok added.
  assert (Hupd : cartOk (updateQuantity productId newQuantity cart).1).
  { unfold updateQuantity.
    destruct (findItem productId cart) as [item|] eqn:Hfind; [|done].
    destruct (newQuantity <=? 0) eqn:Hpos; [by apply removeFromCart_ok|].
    destruct (newQuantity >? p_quantity (ci_product item)) eqn:Hmax; [done|].
    cbn [fst]. apply requantified_ok; [done|].
    intros other Hin Hid.
    apply findItem_Some in Hfind as [Hitem Hid'].
    assert (other = item) as ->.
    { eapply line_unique; [apply Hok|done|done|congruence]. }
    lia. }
  split; [exact Hupd|]. split; [by apply removeFromCart_ok|].
  subst added. unfold addToCart.
  destruct (p_quantity product <=? 0) eqn:Hstock.
  { cbn [fst]. destruct Hok as [Hnd Hall]. split; [done|]. split; [|done].
    eapply Forall_impl; [exact Hall|]. cbn. lia. }
  destruct (findItem (p_id product) cart) as [existingItem|] eqn:Hfind.
  - destruct (ci_quantity existingItem >=? p_quantity product) eqn:Hfull.
    { cbn [fst]. destruct Hok as [Hnd Hall]. split; [done|]. split; [|done].
      eapply Forall_impl; [exact Hall|]. cbn. lia. }
    cbn [fst]. destruct Hok as [Hnd Hall].
    apply findItem_Some in Hfind as [Hitem Hid].
    split; [by rewrite (lines_requantified (p_id product)
                          (fun item => ci_quantity item + 1))|].
    split.
    + apply Forall_forall. intros item Hin.
      apply list_elem_of_In in Hin. apply in_map_iff in Hin as (old & <- & Hin).
      apply list_elem_of_In in Hin.
      pose proof (proj1 (Forall_forall _ _) Hall old Hin) as Hold. cbn in Hold.
      case_bool_decide; cbn; lia.
    + intros Hcopy. split.
      { by rewrite (lines_requantified (p_id product)
                      (fun item => ci_quantity item + 1)). }
      apply Forall_forall. intros item Hin.
      apply list_elem_of_In in Hin. apply in_map_iff in Hin as (old & <- & Hin).
      apply list_elem_of_In in Hin.
      pose proof (proj1 (Forall_forall _ _) Hall old Hin) as Hold. cbn in Hold.
      case_bool_decide as Hsame; [|done]. cbn.
      assert (old = existingItem) as ->.
      { eapply line_unique; [exact Hnd|done|done|congruence]. }
      pose proof (Hcopy existingItem Hitem Hid). lia.
  - cbn [fst]. destruct Hok as [Hnd Hall].
    apply findItem_None in Hfind.
    assert (Hlines : NoDup (lines (cart ++ [mkCartItem product 1]))).
    { unfold lines in *. rewrite map_app. cbn.
      apply NoDup_app. split; [done|]. split; [|apply NoDup_singleton].
      intros k Hk Hin. apply list_elem_of_singleton in Hin. by subst. }
    split; [exact Hlines|]. split.
    + apply Forall_app. split.
      * eapply Forall_impl; [exact Hall|]. cbn. lia.
      * repeat constructor; cbn; lia.
    + intros _. split; [exact Hlines|].
      apply Forall_app. split; [done|]. repeat constructor; cbn; lia.
Qed.

Lemma cart_lines_stay_valid_witness :
  cartOk sampleCart /\
  cartOk (updateQuantity (p_id hairCream) 10 sampleCart).1 /\
  cartOk (addToCart hairCream sampleCart).1.
Proof.
  assert (Hok : cartOk sampleCart).
  { split; [apply NoDup_singleton|]. repeat constructor; cbn; lia. }
  split; [exact Hok|].
  destruct (cart_lines_stay_valid sampleCart hairCream (p_id hairCream) 10 Hok)
    as (Hupd & _ & _ & _ & Hadd).
  split; [exact Hupd|]. apply Hadd.
  intros item Hin _. apply list_elem_of_singleton in Hin. subst item. cbn. lia.
Defined.

(** ** Completing a sale *)

Lemma enqueue_fresh (env : Env) (table : MutationTable)
    (operation : MutationOperation) (recordId : string)
    (payload : gmap string JsVal) (w : World) :
  db_mutations (w_db w) !! uuidv4 env (w_uuids w) = None ->
  exists w',
    enqueue env table operation recordId payload w = (w', false) /\
    db_mutations (w_db w') =
      <[uuidv4 env (w_uuids w) :=
          mkMutation (uuidv4 env (w_uuids w)) (clientId env) table operation
            recordId payload (Date_now env (w_clock w)) pending 0 None]>
        (db_mutations (w_db w)) /\
    db_products (w_db w') = db_products (w_db w) /\
    db_sales (w_db w') = db_sales (w_db w) /\
    (db_notifications (w_db w') = db_notifications (w_db w) /\
     db_settings (w_db w') = db_settings (w_db w) /\
     db_images (w_db w') = db_images (w_db w) /\
     db_syncMeta (w_db w') = db_syncMeta (w_db w) /\
     w_calls w' = w_calls w) /\
    w_clock w' = S (w_clock w) /\ w_uuids w' = S (w_uuids w).
Proof.
  intros Hfree. unfold enqueue, enqueueMutation. rewrite Hfree.
  eexists. split; [reflexivity|]. by destruct w as [[] ? ? ?].
Qed.

Lemma queued_insert (table : MutationTable) (operation : MutationOperation)
    (recordId clientId : string) (payload : gmap string JsVal) (now : Z)
    (uuid : string) (q : gmap string MutationRecord) :
  queued table recordId
    (<[uuid := mkMutation uuid clientId table operation recordId payload now
                 pending 0 None]> q).
Proof.
  apply queued_lookup. eexists _, _. by rewrite lookup_insert_eq.
Qed.

Lemma sellItem_step (env : Env) (saleIdAt : nat -> string) (saleDate : string)
    (w0 : World) (N : nat) (seen : list CartItem) (item : CartItem)
    (st : World * bool) :
  freshUUIDs env w0 (2 * N) -> freshSaleIds saleIdAt w0 N ->
  (length seen < N)%nat -> NoDup (lines (seen ++ [item])) ->
  soldFrom env saleIdAt saleDate w0 seen st ->
  soldFrom env saleIdAt saleDate w0 (seen ++ [item])
           (sellItem env saleIdAt saleDate st item).
Proof.
  intros Hfresh Hsids Hlen Hnd Hinv. destruct st as [w thrown].
  destruct Hinv as (-> & Hframe & Hc & Hu & Hpo & Hps & Hss & Hsz & Hsi & Hsp
                    & Hqs & Hqz & Hqp & Hqq).
  set (n := length seen) in *.
  assert (Hitem : p_id (ci_product item) ∉ lines seen).
  { unfold lines in Hnd. rewrite map_app in Hnd. apply NoDup_app in Hnd as (_ & Hd & _).
    intros Hin. apply (Hd _ Hin). cbn. by left. }
  unfold sellItem.
  set (productId := p_id (ci_product item)).
  set (newQuantity := p_quantity (ci_product item) - ci_quantity item).
  set (wa := tick (with_db (with_products
                (alter (set_lp_sold newQuantity (toISOString_now env (w_clock w)))
                       productId)) w)).
  assert (Ha : db_products (w_db wa) =
                 alter (set_lp_sold newQuantity (toISOString_now env (w_clock w)))
                       productId (db_products (w_db w)) /\
               db_sales (w_db wa) = db_sales (w_db w) /\
               db_mutations (w_db wa) = db_mutations (w_db w) /\
               (db_notifications (w_db wa) = db_notifications (w_db w) /\
                db_settings (w_db wa) = db_settings (w_db w) /\
                db_images (w_db wa) = db_images (w_db w) /\
                db_syncMeta (w_db wa) = db_syncMeta (w_db w) /\
                w_calls wa = w_calls w) /\
               w_clock wa = S (w_clock w) /\ w_uuids wa = w_uuids w).
  { unfold wa. by destruct w as [[] ? ? ?]. }
  destruct Ha as (Hap & Has & Haq & Haf & Hac & Hau).
  set (payload := ({["quantity" := JNum newQuantity;
                     "updated_at" := JStr (toISOString_now env (w_clock wa))]}
                   : gmap string JsVal)).
  assert (Hta : db_mutations (w_db (tick wa)) = db_mutations (w_db w) /\
                db_products (w_db (tick wa)) = db_products (w_db wa) /\
                db_sales (w_db (tick wa)) = db_sales (w_db w) /\
                (db_notifications (w_db (tick wa)) = db_notifications (w_db w) /\
                 db_settings (w_db (tick wa)) = db_settings (w_db w) /\
                 db_images (w_db (tick wa)) = db_images (w_db w) /\
                 db_syncMeta (w_db (tick wa)) = db_syncMeta (w_db w) /\
                 w_calls (tick wa) = w_calls w) /\
                w_clock (tick wa) = S (S (w_clock w)) /\
                w_uuids (tick wa) = w_uuids w).
  { destruct wa as [[] ? ? ?]. cbn in *. by rewrite Haq, Has, Hac, Hau. }
  destruct Hta as (Htq & Htp & Hts & Htf & Htc & Htu).
  assert (Hfree1 : db_mutations (w_db (tick wa)) !! uuidv4 env (w_uuids (tick wa))
                   = None).
  { rewrite Htq, Htu.
    destruct (db_mutations (w_db w) !! uuidv4 env (w_uuids w)) as [m|] eqn:Hm; [|done].
    exfalso. destruct (Hfresh (w_uuids w)) as [Hnone Hinj]; [lia|].
    destruct (Hqp _ _ Hm) as [Hold | (j & Hj & Heq & _)]; [congruence|].
    apply Hinj in Heq; lia. }
  destruct (enqueue_fresh env products UPDATE productId payload (tick wa) Hfree1)
    as (wb & -> & Hbq & Hbp & Hbs & Hbf & Hbc & Hbu).
  rewrite Htq, Htu, Htc in Hbq. rewrite Htc in Hbc. rewrite Htu in Hbu.
  set (m1 := mkMutation _ _ products _ _ _ _ _ _ _) in Hbq.
  set (saleId := saleIdAt (w_clock wb)).
  assert (Hsid : saleId = saleIdOf saleIdAt w0 n).
  { unfold saleId, saleIdOf. f_equal. lia. }
  assert (Htb : db_mutations (w_db (tick wb)) = db_mutations (w_db wb) /\
                db_products (w_db (tick wb)) = db_products (w_db wb) /\
                db_sales (w_db (tick wb)) = db_sales (w_db wb) /\
                (db_notifications (w_db (tick wb)) = db_notifications (w_db wb) /\
                 db_settings (w_db (tick wb)) = db_settings (w_db wb) /\
                 db_images (w_db (tick wb)) = db_images (w_db wb) /\
                 db_syncMeta (w_db (tick wb)) = db_syncMeta (w_db wb) /\
                 w_calls (tick wb) = w_calls wb) /\
                w_clock (tick wb) = S (w_clock wb) /\
                w_uuids (tick wb) = w_uuids wb).
  { by destruct wb as [[] ? ? ?]. }
  destruct Htb as (Hcq & Hcp & Hcs & Hcf & Hcc & Hcu).
  assert (Hfree2 : db_sales (w_db w) !! saleId = None).
  { destruct (db_sales (w_db w) !! saleId) as [s|] eqn:Hs; [|done].
    exfalso. destruct (Hsids n Hlen) as [Hnone Hinj].
    destruct (Hsp _ _ Hs) as [Hold | (i & Hi & Heq)]; [congruence|].
    rewrite Hsid in Heq. apply Hinj in Heq; lia. }
  rewrite Hcs, Hbs, Hts, Hfree2.
  set (wd := with_db (with_sales (insert saleId (saleOf saleId saleDate item)))
                     (tick wb)).
  assert (Hd : db_mutations (w_db wd) = db_mutations (w_db wb) /\
               db_products (w_db wd) = db_products (w_db wb) /\
               db_sales (w_db wd) =
                 <[saleId := saleOf saleId saleDate item]> (db_sales (w_db w)) /\
               (db_notifications (w_db wd) = db_notifications (w_db wb) /\
                db_settings (w_db wd) = db_settings (w_db wb) /\
                db_images (w_db wd) = db_images (w_db wb) /\
                db_syncMeta (w_db wd) = db_syncMeta (w_db wb) /\
                w_calls wd = w_calls wb) /\
               w_clock wd = S (w_clock wb) /\ w_uuids wd = w_uuids wb).
  { unfold wd. rewrite <- Hts, <- Hbs. by destruct wb as [[] ? ? ?]. }
  destruct Hd as (Hdq & Hdp & Hds & Hdf & Hdc & Hdu).
  assert (Hfree3 : db_mutations (w_db wd) !! uuidv4 env (w_uuids wd) = None).
  { rewrite Hdq, Hdu, Hbq, Hbu.
    destruct (Hfresh (S (w_uuids w))) as [Hnone Hinj]; [lia|].
    rewrite lookup_insert_ne.
    2:{ intros Heq. symmetry in Heq. apply Hinj in Heq; lia. }
    destruct (db_mutations (w_db w) !! uuidv4 env (S (w_uuids w))) as [m|] eqn:Hm;
      [|done].
    exfalso. destruct (Hqp _ _ Hm) as [Hold | (j & Hj & Heq & _)]; [congruence|].
    apply Hinj in Heq; lia. }
  destruct (enqueue_fresh env sales INSERT saleId (saleRecord saleId saleDate item)
              wd Hfree3) as (we & -> & Heq & Hep & Hes & Hef & Hec & Heu).
  rewrite Hdq, Hdu, Hdc, Hbq, Hbu in Heq.
  set (m2 := mkMutation _ _ sales _ _ _ _ _ _ _) in Heq.
  assert (Hk12 : uuidv4 env (S (w_uuids w)) <> uuidv4 env (w_uuids w)).
  { destruct (Hfresh (S (w_uuids w))) as [_ Hinj]; [lia|].
    intros Hkk. apply Hinj in Hkk; lia. }
  assert (Hq1 : db_mutations (w_db w) !! uuidv4 env (w_uuids w) = None).
  { by rewrite Htq, Htu in Hfree1. }
  assert (Hq2 : db_mutations (w_db w) !! uuidv4 env (S (w_uuids w)) = None).
  { rewrite Hdq, Hdu, Hbq, Hbu in Hfree3. by rewrite lookup_insert_ne in Hfree3. }
  assert (Hsubq : db_mutations (w_db w) ⊆ db_mutations (w_db we)).
  { rewrite Heq. etrans; [apply (insert_subseteq _ _ m1 Hq1)|].
    apply insert_subseteq. by rewrite lookup_insert_ne. }
  assert (Hsubs : db_sales (w_db w) ⊆ db_sales (w_db we)).
  { rewrite Hes, Hds. by apply insert_subseteq. }
  unfold soldFrom. rewrite length_app. cbn [length]. fold n.
  split; [done|].
  split.
  { destruct Hef as (-> & -> & -> & -> & ->), Hdf as (-> & -> & -> & -> & ->),
      Hbf as (-> & -> & -> & -> & ->), Htf as (-> & -> & -> & -> & ->). done. }
  split; [lia|]. split; [lia|].
  split.
  { intros k Hk. rewrite Hep, Hdp, Hcp || rewrite Hep, Hdp.
    rewrite Hbp, Htp, Hap.
    unfold lines in Hk. rewrite map_app in Hk. apply not_elem_of_app in Hk as [Hk1 Hk2].
    cbn in Hk2. apply not_elem_of_cons in Hk2 as [Hk2 _].
    rewrite lookup_alter_ne by done. by apply Hpo. }
  split.
  { intros i x Hix. rewrite Hep, Hdp, Hbp, Htp, Hap.
    apply lookup_snoc_Some in Hix as [[Hi Hix] | [-> <-]].
    - rewrite lookup_alter_ne; [by apply Hps|].
      intros Hsame. apply Hitem. unfold productId in Hsame. rewrite Hsame.
      apply list_elem_of_fmap. exists x. split; [done|]. by eapply list_elem_of_lookup_2.
    - fold productId. rewrite lookup_alter_eq. rewrite (Hpo productId Hitem).
      unfold soldAt. fold n. rewrite Hc. fold newQuantity.
      by replace (w_clock w0 + 1 + 5 * n)%nat with (w_clock w0 + 5 * n + 1)%nat by lia. }
  split; [by etrans|].
  split.
  { rewrite Hes, Hds. rewrite map_size_insert_None by done. lia. }
  split.
  { intros i x Hix. rewrite Hes, Hds.
    apply lookup_snoc_Some in Hix as [[Hi Hix] | [-> <-]].
    - rewrite lookup_insert_ne; [by apply Hsi|].
      intros Hsame. rewrite Hsid in Hsame.
      destruct (Hsids n Hlen) as [_ Hinj]. apply Hinj in Hsame; lia.
    - fold n. rewrite <- Hsid. by rewrite lookup_insert_eq. }
  split.
  { intros k s. rewrite Hes, Hds. intros Hk.
    destruct (decide (k = saleId)) as [->|Hne].
    - right. exists n. split; [lia|done].
    - rewrite lookup_insert_ne in Hk by done.
      destruct (Hsp _ _ Hk) as [Hold | (i & Hi & Hki)]; [by left|].
      right. exists i. split; [lia|done]. }
  split; [by etrans|].
  split.
  { rewrite Heq. rewrite map_size_insert_None by (by rewrite lookup_insert_ne).
    rewrite map_size_insert_None by done. lia. }
  split.
  { intros k m. rewrite Heq. intros Hk.
    destruct (decide (k = uuidv4 env (S (w_uuids w)))) as [->|Hne2].
    { rewrite lookup_insert_eq in Hk. injection Hk as <-. right.
      exists (2 * n + 1)%nat. split; [lia|]. split; [|done].
      f_equal. lia. }
    rewrite lookup_insert_ne in Hk by done.
    destruct (decide (k = uuidv4 env (w_uuids w))) as [->|Hne1].
    { rewrite lookup_insert_eq in Hk. injection Hk as <-. right.
      exists (2 * n)%nat. split; [lia|]. split; [|done].
      f_equal. lia. }
    rewrite lookup_insert_ne in Hk by done.
    destruct (Hqp _ _ Hk) as [Hold | (j & Hj & Hrest)]; [by left|].
    right. exists j. split; [lia|done]. }
  intros i x Hix.
  apply lookup_snoc_Some in Hix as [[Hi Hix] | [-> <-]].
  - destruct (Hqq _ _ Hix) as [Hp Hs].
    split; by eapply queued_mono.
  - fold n. rewrite <- Hsid, Heq. split; [|apply queued_insert].
    eapply queued_mono; [|apply (queued_insert products UPDATE productId)].
    apply insert_subseteq. by rewrite lookup_insert_ne.
Qed.

Lemma sellLoop_spec (env : Env) (saleIdAt : nat -> string) (saleDate : string)
    (w0 : World) (N : nat) (rest seen : list CartItem) (st : World * bool) :
  freshUUIDs env w0 (2 * N) -> freshSaleIds saleIdAt w0 N ->
  (length (seen ++ rest) <= N)%nat -> NoDup (lines (seen ++ rest)) ->
  soldFrom env saleIdAt saleDate w0 seen st ->
  soldFrom env saleIdAt saleDate w0 (seen ++ rest)
           (foldl (sellItem env saleIdAt saleDate) st rest).
Proof.
  intros Hfresh Hsids. revert seen st.
  induction rest as [|item rest IH]; intros seen st Hlen Hnd Hinv.
  { by rewrite app_nil_r. }
  cbn [foldl]. rewrite (assoc_L (++) seen [item] rest : seen ++ item :: rest = _) in *.
  apply IH; [done|done|].
  rewrite !length_app in Hlen. cbn [length] in Hlen.
  apply (sellItem_step env saleIdAt saleDate w0 N); [done|done|lia| |done].
  unfold lines in *. rewrite map_app in Hnd. by apply NoDup_app in Hnd as (? & _).
Qed.

Lemma completeSale_spec (env : Env) (saleIdAt : nat -> string)
    (cart : list CartItem) (w : World) :
  cart <> [] -> NoDup (lines cart) ->
  freshUUIDs env w (2 * length cart) -> freshSaleIds saleIdAt w (length cart) ->
  exists w',
    completeSale env saleIdAt cart w = (w', [], None) /\
    soldFrom env saleIdAt (toISOString_now env (w_clock w)) w cart (w', false).
Proof.
  intros Hne Hnd Hfresh Hsids. unfold completeSale.
  rewrite bool_decide_eq_false_2 by (by destruct cart).
  assert (H0 : soldFrom env saleIdAt (toISOString_now env (w_clock w)) w []
                 (tick w, false)).
  { unfold soldFrom. cbn [length]. destruct w as [[] ? ? ?]. cbn.
    repeat split; try done; try lia.
    - intros k s Hk. by left.
    - intros k m Hk. by left. }
  pose proof (sellLoop_spec env saleIdAt _ w (length cart) cart [] (tick w, false)
                Hfresh Hsids (Nat.le_refl _) Hnd H0) as Hinv.
  cbn [app] in Hinv.
  destruct (foldl _ _ cart) as [w' thrown].
  assert (thrown = false) as -> by (by destruct Hinv as (-> & _)).
  by exists w'.
Qed.



(** X23. Completing a sale keeps every unsynced row queued.  When the
    product rows are stored under their own id and every row that is
    not synced is addressed by a pending mutation, the same holds after
    [completeSale], for the rows it has written as for the others. *)
Theorem completeSale_keeps_unsynced_queued (env : Env) (saleIdAt : nat -> string)
    (cart : list CartItem) (w : World) :
  cart <> [] -> NoDup (lines cart) ->
  freshUUIDs env w (2 * length cart) -> freshSaleIds saleIdAt w (length cart) ->
  products_well_keyed (db_products (w_db w)) ->
  unsyncedQueued (w_db w) (db_mutations (w_db w)) ->
  let w' := (completeSale env saleIdAt cart w).1.1 in
  products_well_keyed (db_products (w_db w')) /\
  unsyncedQueued (w_db w') (db_mutations (w_db w')).
Proof.
  intros Hne Hnd Hfresh Hsids Hkeyed (Qp & Qs & Qn & Qt) w0'. subst w0'.
  destruct (completeSale_spec env saleIdAt cart w Hne Hnd Hfresh Hsids)
    as (w' & -> & Hinv).
  cbn [fst snd].
  destruct Hinv as (_ & (Hn & Ht & _) & _ & _ & Hpo & Hps & Hss & Hsz & Hsi & Hsp
                    & Hqs & Hqz & _ & Hqq).
  assert (Hrow : forall k p', db_products (w_db w') !! k = Some p' ->
            exists p, db_products (w_db w) !! k = Some p /\ lp_id p' = lp_id p /\
              (k ∉ lines cart -> p' = p) /\
              (k ∈ lines cart -> queued products k (db_mutations (w_db w')))).
  { intros k p' Hk.
    destruct (decide (k ∈ lines cart)) as [Hin|Hout].
    - unfold lines in Hin. apply list_elem_of_fmap in Hin as (item & -> & Hin).
      apply list_elem_of_lookup in Hin as [i Hi].
      rewrite (Hps _ _ Hi) in Hk.
      destruct (db_products (w_db w) !! p_id (ci_product item)) as [p|] eqn:Hp;
        [|done].
      cbn in Hk. injection Hk as <-. exists p.
      split; [done|]. split; [done|]. split.
      + intros Hno. destruct Hno. apply list_elem_of_fmap. exists item.
        split; [done|]. by eapply list_elem_of_lookup_2.
      + intros _. by destruct (Hqq _ _ Hi).
    - rewrite (Hpo _ Hout) in Hk. exists p'. by repeat split. }
  split.
  { intros k p' Hk. destruct (Hrow k p' Hk) as (p & Hp & -> & _). by apply Hkeyed. }
  split; [|split; [|split]].
  - intros k p' Hk Hun. destruct (Hrow k p' Hk) as (p & Hp & Hid & Hsame & Hq).
    rewrite Hid, (Hkeyed _ _ Hp).
    destruct (decide (k ∈ lines cart)) as [Hin|Hout]; [by apply Hq|].
    rewrite (Hsame Hout) in Hun.
    eapply queued_mono; [exact Hqs|]. rewrite <- (Hkeyed _ _ Hp). by eapply Qp.
  - intros k s Hk Hun.
    destruct (Hsp _ _ Hk) as [Hold | (i & Hi & ->)].
    + eapply queued_mono; [exact Hqs|]. by eapply Qs.
    + destruct (lookup_lt_is_Some_2 cart i Hi) as [item Hitem].
      rewrite (Hsi _ _ Hitem) in Hk. injection Hk as <-. cbn.
      by destruct (Hqq _ _ Hitem).
  - intros k n Hk Hun. rewrite Hn in Hk.
    eapply queued_mono; [exact Hqs|]. by eapply Qn.
  - intros k s Hk Hun. rewrite Ht in Hk.
    eapply queued_mono; [exact Hqs|]. by eapply Qt.
Qed.

Lemma completeSale_keeps_unsynced_queued_witness :
  sampleCart <> [] /\ NoDup (lines sampleCart) /\
  freshUUIDs shopBackend stockedWorld (2 * length sampleCart) /\
  freshSaleIds sampleSaleIdAt stockedWorld (length sampleCart) /\
  products_well_keyed (db_products (w_db stockedWorld)) /\
  unsyncedQueued (w_db stockedWorld) (db_mutations (w_db stockedWorld)) /\
  unsyncedQueued
    (w_db (completeSale shopBackend sampleSaleIdAt sampleCart stockedWorld).1.1)
    (db_mutations
       (w_db (completeSale shopBackend sampleSaleIdAt sampleCart stockedWorld).1.1)).
Proof.
  assert (Hne : sampleCart <> []) by discriminate.
  assert (Hnd : NoDup (lines sampleCart)) by apply NoDup_singleton.
  assert (Hfresh : freshUUIDs shopBackend stockedWorld (2 * length sampleCart)).
  { intros j Hj. change (0 <= j < 2)%nat in Hj. split; [done|].
    intros k Hk. change (0 <= k < 2)%nat in Hk.
    assert (Hj' : j = 0%nat \/ j = 1%nat) by lia.
    assert (Hk' : k = 0%nat \/ k = 1%nat) by lia.
    destruct Hj' as [-> | ->], Hk' as [-> | ->]; cbn; congruence. }
  assert (Hsids : freshSaleIds sampleSaleIdAt stockedWorld (length sampleCart)).
  { intros i Hi. change (i < 1)%nat in Hi. split; [done|].
    intros j Hj _. change (j < 1)%nat in Hj. lia. }
  assert (Hkeyed : products_well_keyed (db_products (w_db stockedWorld))).
  { intros k p Hk. cbn in Hk. apply lookup_singleton_Some in Hk as [<- <-]. done. }
  assert (Hq : unsyncedQueued (w_db stockedWorld) (db_mutations (w_db stockedWorld))).
  { split; [|split; [|split]]; intros k x Hk Hun; cbn in Hk.
    - apply lookup_singleton_Some in Hk as [_ <-]. discriminate.
    - by rewrite lookup_empty in Hk.
    - by rewrite lookup_empty in Hk.
    - by rewrite lookup_empty in Hk. }
  split; [exact Hne|]. split; [exact Hnd|]. split; [exact Hfresh|].
  split; [exact Hsids|]. split; [exact Hkeyed|]. split; [exact Hq|].
  exact (proj2 (completeSale_keeps_unsynced_queued shopBackend sampleSaleIdAt
                  sampleCart stockedWorld Hne Hnd Hfresh Hsids Hkeyed Hq)).
Defined.

Lemma sellLoop_thrown (env : Env) (saleIdAt : nat -> string) (saleDate : string)
    (rest : list CartItem) (w : World) :
  foldl (sellItem env saleIdAt saleDate) (w, true) rest = (w, true).
Proof. induction rest as [|item rest IH]; [done|]. cbn [foldl]. exact IH. Qed.

(** X24. A sale that fails is not rolled back.  When the identifier
    drawn for the sale of the first line is already in the store,
    [completeSale] alerts the error and keeps the cart, and no sale is
    stored; but the stock of the first product has been overwritten and
    marked as not synced, and the mutation for it is pending in the
    queue. *)
Theorem completeSale_failure_not_rolled_back (env : Env) (saleIdAt : nat -> string)
    (item : CartItem) (rest : list CartItem) (w : World) :
  db_mutations (w_db w) !! uuidv4 env (w_uuids w) = None ->
  is_Some (db_sales (w_db w) !! saleIdOf saleIdAt w 0) ->
  let r := completeSale env saleIdAt (item :: rest) w in
  let productId := p_id (ci_product item) in
  r.1.2 = item :: rest /\
  r.2 = Some "Error completing sale. Please try again." /\
  db_sales (w_db r.1.1) = db_sales (w_db w) /\
  db_products (w_db r.1.1) =
    alter (set_lp_sold (p_quantity (ci_product item) - ci_quantity item)
                       (soldAt env w 0)) productId (db_products (w_db w)) /\
  size (db_mutations (w_db r.1.1)) = S (size (db_mutations (w_db w))) /\
  queued products productId (db_mutations (w_db r.1.1)).
Proof.
  intros Hfree [old Hold] r productId. subst r.
  assert (Hstep : exists wb,
            sellItem env saleIdAt (toISOString_now env (w_clock w)) (tick w, false)
                     item = (wb, true) /\
            db_sales (w_db wb) = db_sales (w_db w) /\
            db_products (w_db wb) =
              alter (set_lp_sold (p_quantity (ci_product item) - ci_quantity item)
                                 (soldAt env w 0)) productId (db_products (w_db w)) /\
            size (db_mutations (w_db wb)) = S (size (db_mutations (w_db w))) /\
            queued products productId (db_mutations (w_db wb))).
  { unfold sellItem.
    set (wa := tick (with_db (with_products _) (tick w))).
    assert (Hfree1 : db_mutations (w_db (tick wa)) !! uuidv4 env (w_uuids (tick wa))
                     = None).
    { unfold wa. by destruct w as [[] ? ? ?]. }
    destruct (enqueue_fresh env products UPDATE (p_id (ci_product item))
                {["quantity" :=
                    JNum (p_quantity (ci_product item) - ci_quantity item);
                  "updated_at" := JStr (toISOString_now env (w_clock wa))]}
                (tick wa) Hfree1)
      as (wb & -> & Hbq & Hbp & Hbs & _ & Hbc & _).
    assert (Htick : db_sales (w_db (tick wb)) = db_sales (w_db wb) /\
                    db_products (w_db (tick wb)) = db_products (w_db wb) /\
                    db_mutations (w_db (tick wb)) = db_mutations (w_db wb)).
    { by destruct wb as [[] ? ? ?]. }
    destruct Htick as (Hts & Htp & Htq).
    assert (Hsale : db_sales (w_db (tick wb)) !! saleIdAt (w_clock wb) = Some old).
    { rewrite Hts, Hbs, Hbc. unfold wa, saleIdOf in *.
      destruct w as [[] ? ? ?]. cbn in *.
      by replace (S (S (S (S w_clock0)))) with (w_clock0 + 5 * 0 + 4)%nat by lia. }
    rewrite Hsale. exists (tick wb). split; [done|].
    rewrite Hts, Htp, Htq, Hbs, Hbp, Hbq.
    split; [unfold wa; by destruct w as [[] ? ? ?]|].
    split.
    { unfold wa, soldAt. destruct w as [[] ? ? ?]. cbn.
      by replace (w_clock0 + 0 + 1)%nat with (S w_clock0) by lia. }
    split; [|apply queued_insert].
    rewrite map_size_insert_None by done.
    unfold wa. by destruct w as [[] ? ? ?]. }
  destruct Hstep as (wb & Hstep & Hs & Hp & Hq & Hqq).
  unfold completeSale. rewrite bool_decide_eq_false_2 by done.
  cbn [foldl]. rewrite Hstep, sellLoop_thrown. cbn [fst snd]. done.
Qed.

Lemma completeSale_failure_not_rolled_back_witness :
  let r := completeSale shopBackend sampleSaleIdAt sampleCart collidingWorld in
  db_mutations (w_db collidingWorld)
    !! uuidv4 shopBackend (w_uuids collidingWorld) = None /\
  is_Some (db_sales (w_db collidingWorld) !! saleIdOf sampleSaleIdAt collidingWorld 0) /\
  r.1.2 = sampleCart /\
  r.2 = Some "Error completing sale. Please try again." /\
  size (db_mutations (w_db r.1.1)) = 1%nat.
Proof.
  intros r.
  assert (Hfree : db_mutations (w_db collidingWorld)
                    !! uuidv4 shopBackend (w_uuids collidingWorld) = None) by done.
  assert (Hold : is_Some (db_sales (w_db collidingWorld)
                            !! saleIdOf sampleSaleIdAt collidingWorld 0)).
  { eexists. vm_compute. reflexivity. }
  split; [exact Hfree|]. split; [exact Hold|].
  destruct (completeSale_failure_not_rolled_back shopBackend sampleSaleIdAt
              (mkCartItem hairCream 2) [] collidingWorld Hfree Hold)
    as (Hcart & Halert & _ & _ & Hsize & _).
  split; [exact Hcart|]. split; [exact Halert|]. exact Hsize.
Defined.

(** ** Sync metadata *)

Lemma fullSyncBody_stamps (env : Env) (w : World) :
  exists k, w_clock (fullSyncBody env w).2 = S k /\
    db_syncMeta (w_db (fullSyncBody env w).2) =
      set_sm_lastSyncedAt (toISOString_now env k) <$> db_syncMeta (w_db w).
Proof.
  unfold fullSyncBody.
  assert (Hmeta1 : db_syncMeta (w_db (pullPhase env w).2) = db_syncMeta (w_db w)).
  { destruct (pullPhase_chain env w)
      as (Hw & _ & _ & _ & _ & _ & _ & _ & _ & _ & Hmeta & _).
    by rewrite Hw. }
  destruct (pullPhase env w) as [[[[b1 b2] b3] b4] w1]. cbn [fst snd] in *.
  destruct (push_syncMeta env w1) as [Hpm _].
  destruct (pushPendingMutations env w1) as [res w2]. cbn [fst snd] in *.
  set (w3 := with_db (with_images (syncImagesToSupabase env)) w2).
  set (w4 := if bool_decide (size (idMappings res) = 0%nat) then w3
             else updateRemappedReferences env (idMappings res) w3).
  assert (H3 : db_syncMeta (w_db w3) = db_syncMeta (w_db w2)).
  { unfold w3. by destruct w2 as [[] ? ? ?]. }
  assert (H4 : db_syncMeta (w_db w4) = db_syncMeta (w_db w3)).
  { unfold w4. destruct (bool_decide _); [done|]. unfold updateRemappedReferences.
    destruct (bool_decide _); [done|].
    by destruct (remapLoop_frame env (idMappings res) (toArray (db_sales (w_db w3)))
                   w3 false) as (_ & _ & _ & _ & Hsm & _). }
  assert (Hm : db_syncMeta (w_db w4) = db_syncMeta (w_db w)) by congruence.
  clearbody w4. destruct w4 as [[] ? ? ?]. cbn in *.
  eexists. split; [reflexivity|]. by rewrite Hm.
Qed.

(** X25. The sync metadata row is created once and stamped by every
    sync.  [initializeSyncMeta] creates the row with the epoch as
    [lastSyncedAt] when it is missing and never overwrites a row that
    exists, whatever client id it is called with.  After it, any full
    sync, successful or not, leaves the row with the client id and the
    offline flag it had and the last clock reading of the cycle as
    [lastSyncedAt]; on a store where the row was never created a full
    sync creates none. *)
Theorem syncMeta_created_once_stamped_always (env : Env) (w : World)
    (clientId other : string) :
  let d1 := (initializeSyncMeta clientId (w_db w)).2 in
  let final := (fullSyncBody env (with_db (fun _ => d1) w)).2 in
  (db_syncMeta d1 =
     Some (default (mkSyncMetadata epoch clientId false) (db_syncMeta (w_db w)))) /\
  initializeSyncMeta other d1 =
    (mkSyncMetaView (sm_lastSyncedAt <$> db_syncMeta d1)
       (default other (sm_clientId <$> db_syncMeta d1))
       (default false (sm_offlineMode <$> db_syncMeta d1)), d1) /\
  (exists k meta,
     w_clock final = S k /\ db_syncMeta d1 = Some meta /\
     db_syncMeta (w_db final) =
       Some (mkSyncMetadata (toISOString_now env k) (sm_clientId meta)
                            (sm_offlineMode meta))) /\
  (db_syncMeta (w_db w) = None ->
   db_syncMeta (w_db (fullSyncBody env w).2) = None).
Proof.
  intros d1 final.
  assert (H1 : db_syncMeta d1 =
               Some (default (mkSyncMetadata epoch clientId false)
                             (db_syncMeta (w_db w)))).
  { unfold d1, initializeSyncMeta. destruct w as [[] ? ? ?]. cbn.
    by destruct db_syncMeta0. }
  split; [exact H1|]. split.
  { unfold initializeSyncMeta at 1. by rewrite H1. }
  split.
  - destruct (fullSyncBody_stamps env (with_db (fun _ => d1) w)) as (k & Hk & Hm).
    exists k. eexists. split; [exact Hk|]. split; [exact H1|].
    fold final in Hm. rewrite Hm.
    replace (db_syncMeta (w_db (with_db (fun _ => d1) w))) with (db_syncMeta d1)
      by (by destruct w).
    by rewrite H1.
  - intros Hnone. destruct (fullSyncBody_stamps env w) as (k & _ & Hm).
    by rewrite Hm, Hnone.
Qed.
